(** * Provenance recording and provenance graph of util/metadata.py

    A shallow embedding of the step recorder ([_run_cmd_with_tracking]),
    of the record validation ([dict_has_keys], [is_valid_step_record]) and of
    the provenance graph engine ([ProvenanceGraph.load],
    [_reconstruct_missing_connections], [_reconstruct_fnode_maker],
    [print_provenance], [extract_comps_assembly]).

    Modelling conventions.
    - A value read by [json.loads] is a [json] tree; a Python dict is an
      association list in insertion order with unique keys.
    - Times are integers: [mtime] is an int in the source (stat.ST_MTIME);
      [beg_time] is a float there, and only its order against other times
      is used, so one integer scale for both loses nothing that the code
      observes.
    - A Python call that may raise returns a [result]: [Ok v] or [Raise e].
    - The operating system is a set of oracles ([isfile], [samefile], the
      clock) bound as section variables.
    - A networkx DiGraph is the insertion-ordered list of its nodes with their
      attribute dicts and the insertion-ordered list of its edges with theirs.
    - The fields of a record that become graph keys ([step_id], [realpath],
      [hash], [mtime]) must have the JSON types the recorder writes; where a
      record carries another type there the model raises [TypeError].
    - A Python set is a duplicate-free list and is iterated in insertion
      order; Python fixes no order there, and no property below depends on
      the one chosen.
    - Of the log only the warnings are kept; what the code prints is kept
      only for [print_provenance], whose printed lines are its result.
    - [assert] statements are executed (the interpreter runs without -O).
    - [json.dumps(..., sort_keys=True)] orders the keys of a written record;
      the model keeps the order of construction, which only changes the
      order in which [load] meets the arguments of a step. *)

From stdpp Require Import base option list sorting strings gmap.
From Stdlib Require Import ZArith Lia Ascii.

Set Warnings "-register-all".

Open Scope string_scope.
Open Scope list_scope.
Open Scope Z_scope.

(** ** Python exceptions and results *)

Inductive exn_class :=
  | KeyError | TypeError | ValueError | AttributeError | AssertionError
  | OSError | RuntimeError
  | KeyboardInterrupt | SystemExit.

(** [isinstance(e, Exception)]: KeyboardInterrupt and SystemExit derive from
    BaseException only. *)
Definition is_Exception (c : exn_class) : bool :=
  match c with
  | KeyboardInterrupt | SystemExit => false
  | _ => true
  end.

Definition is_KeyboardInterrupt (c : exn_class) : bool :=
  match c with KeyboardInterrupt => true | _ => false end.

Record exn := Exn { exn_cls : exn_class; exn_msg : string }.

Inductive result (A : Type) :=
  | Ok (a : A)
  | Raise (e : exn).
Arguments Ok {A} a.
Arguments Raise {A} e.

#[global] Instance result_ret : MRet result := fun _ a => Ok a.
#[global] Instance result_bind : MBind result := fun _ _ f m =>
  match m with Ok a => f a | Raise e => Raise e end.

Definition raise {A} (c : exn_class) (msg : string) : result A :=
  Raise (Exn c msg).

Definition is_Ok {A} (r : result A) : bool :=
  match r with Ok _ => true | Raise _ => false end.

(** Monadic left fold: a Python [for] loop whose body may raise. *)
Fixpoint foldM {A S : Type} (f : S -> A -> result S) (s : S) (l : list A)
  : result S :=
  match l with
  | [] => Ok s
  | a :: l' => s' ← f s a; foldM f s' l'
  end.

(** ** JSON values and Python dicts *)

Inductive json :=
  | JNull
  | JBool (b : bool)
  | JNum (n : Z)
  | JStr (s : string)
  | JList (l : list json)
  | JDict (d : list (string * json)).

Definition dict := list (string * json).

Fixpoint dict_get (k : string) (d : dict) : option json :=
  match d with
  | [] => None
  | (k', v) :: d' => if bool_decide (k' = k) then Some v else dict_get k d'
  end.

Definition dict_mem (k : string) (d : dict) : bool :=
  match dict_get k d with Some _ => true | None => false end.

(** [d[k] = v]: an existing key keeps its position. *)
Fixpoint dict_set (k : string) (v : json) (d : dict) : dict :=
  match d with
  | [] => [(k, v)]
  | (k', v') :: d' =>
      if bool_decide (k' = k) then (k, v) :: d' else (k', v') :: dict_set k v d'
  end.

(** [d.update(new)] *)
Definition dict_update (d new : dict) : dict :=
  foldl (fun acc kv => dict_set kv.1 kv.2 acc) d new.

(** Python truth value of a JSON value. *)
Definition truthy (j : json) : bool :=
  match j with
  | JNull => false
  | JBool b => b
  | JNum n => negb (Z.eqb n 0)
  | JStr s => negb (bool_decide (s = ""))
  | JList l => match l with [] => false | _ => true end
  | JDict d => match d with [] => false | _ => true end
  end.

(** [j[k]] for a string key [k]. *)
Definition getitem (j : json) (k : string) : result json :=
  match j with
  | JDict d =>
      match dict_get k d with
      | Some v => Ok v
      | None => raise KeyError k
      end
  | _ => raise TypeError "indices must be integers"
  end.

(** [d.get(k, dflt)] on a value already known to be a mapping. *)
Definition get_default (j : json) (k : string) (dflt : json) : result json :=
  match j with
  | JDict d => Ok (default dflt (dict_get k d))
  | _ => raise AttributeError "get"
  end.

Definition as_num (j : json) : result Z :=
  match j with
  | JNum n => Ok n
  | JBool b => Ok (if b then 1 else 0)
  | _ => raise TypeError "unsupported operand type(s)"
  end.

Definition as_str (j : json) : result string :=
  match j with
  | JStr s => Ok s
  | _ => raise TypeError "expected str"
  end.

(** [d.items()] *)
Definition items (j : json) : result dict :=
  match j with
  | JDict d => Ok d
  | _ => raise AttributeError "items"
  end.

(** ** Strings *)

Definition starts_with (pfx s : string) : bool := String.prefix pfx s.

Definition ends_with (sfx s : string) : bool :=
  String.prefix (String.rev sfx) (String.rev s).

Definition drop_prefix (pfx s : string) : string :=
  String.substring (String.length pfx) (String.length s - String.length pfx) s.

Fixpoint contains (sub s : string) : bool :=
  String.prefix sub s ||
  match s with
  | EmptyString => false
  | String _ s' => contains sub s'
  end.

(** ** Validation of step records *)

(** [dict_has_keys(d, keys_str)]: [d] is a mapping whose key set includes
    every token of [keys_str]; the tokens are given here as a list. *)
Definition dict_has_keys (d : json) (keys : list string) : bool :=
  match d with
  | JDict m => forallb (fun k => dict_mem k m) keys
  | _ => false
  end.

(** [is_valid_step_record(d)]; [d['step']] is read only when the first test
    passed, so it cannot raise. *)
Definition is_valid_step_record (d : json) : bool :=
  dict_has_keys d ["format"; "step"] &&
  match d with
  | JDict m =>
      match dict_get "step" m with
      | Some st => dict_has_keys st ["args"; "step_id"; "cmd_module"]
      | None => false
      end
  | _ => false
  end.

(** ** The provenance graph: a networkx DiGraph *)

(** A node is a step id (a string) or a FileNode named tuple
    [(realpath, file_hash, mtime)]; a string never equals a tuple. *)
Inductive node :=
  | SNode (step_id : string)
  | FNode (realpath file_hash : string) (mtime : Z).

#[global] Instance node_eq_dec : EqDecision node.
Proof. solve_decision. Defined.

Definition node_mtime (n : node) : Z :=
  match n with FNode _ _ m => m | SNode _ => 0 end.
Definition node_hash (n : node) : string :=
  match n with FNode _ h _ => h | SNode _ => "" end.
Definition node_realpath (n : node) : string :=
  match n with FNode p _ _ => p | SNode _ => "" end.

Record pgraph := PGraph {
  g_nodes : list (node * dict);          (* G.nodes, in insertion order *)
  g_edges : list (node * node * dict)    (* G.edges, in insertion order *)
}.

Definition empty_graph : pgraph := PGraph [] [].

Fixpoint node_attrs_in (l : list (node * dict)) (n : node) : option dict :=
  match l with
  | [] => None
  | (m, a) :: l' => if bool_decide (m = n) then Some a else node_attrs_in l' n
  end.

Definition node_attrs (G : pgraph) (n : node) : option dict :=
  node_attrs_in (g_nodes G) n.

(** [n in G] *)
Definition has_node (G : pgraph) (n : node) : bool :=
  match node_attrs G n with Some _ => true | None => false end.

Fixpoint upd_node (n : node) (attr : dict) (l : list (node * dict))
  : list (node * dict) :=
  match l with
  | [] => [(n, dict_update [] attr)]
  | (m, a) :: l' =>
      if bool_decide (m = n) then (m, dict_update a attr) :: l'
      else (m, a) :: upd_node n attr l'
  end.

(** [G.add_node(n, **attr)]: a new node is appended, the attributes of an
    existing one are updated. *)
Definition add_node (n : node) (attr : dict) (G : pgraph) : pgraph :=
  PGraph (upd_node n attr (g_nodes G)) (g_edges G).

Definition edge_is (u v : node) (e : node * node * dict) : bool :=
  bool_decide (e.1.1 = u) && bool_decide (e.1.2 = v).

Fixpoint edge_attrs_in (l : list (node * node * dict)) (u v : node)
  : option dict :=
  match l with
  | [] => None
  | e :: l' => if edge_is u v e then Some e.2 else edge_attrs_in l' u v
  end.

(** [G.edges[u, v]] *)
Definition edge_attrs (G : pgraph) (u v : node) : option dict :=
  edge_attrs_in (g_edges G) u v.

Definition has_edge (G : pgraph) (u v : node) : bool :=
  match edge_attrs G u v with Some _ => true | None => false end.

Fixpoint upd_edge (u v : node) (attr : dict) (l : list (node * node * dict))
  : list (node * node * dict) :=
  match l with
  | [] => [(u, v, dict_update [] attr)]
  | e :: l' =>
      if edge_is u v e then (u, v, dict_update e.2 attr) :: l'
      else e :: upd_edge u v attr l'
  end.

(** [G.add_edge(u, v, **attr)]: both ends are added as bare nodes when
    absent; the attributes of an existing edge are updated. *)
Definition ensure_node (n : node) (G : pgraph) : pgraph :=
  if has_node G n then G else add_node n [] G.

Definition add_edge (u v : node) (attr : dict) (G : pgraph) : pgraph :=
  let G2 := ensure_node v (ensure_node u G) in
  PGraph (g_nodes G2) (upd_edge u v attr (g_edges G2)).

(** [G[u][v][k] = x] on an edge of the graph. *)
Definition set_edge_attr (u v : node) (k : string) (x : json) (G : pgraph)
  : pgraph :=
  PGraph (g_nodes G) (upd_edge u v [(k, x)] (g_edges G)).

(** [G.remove_edge(u, v)] on an edge of the graph. *)
Definition remove_edge (u v : node) (G : pgraph) : pgraph :=
  PGraph (g_nodes G) (filter (fun e => edge_is u v e = false) (g_edges G)).

(** [G.succ[u]] and [G.pred[v]], as lists in insertion order. *)
Definition succ_in (es : list (node * node * dict)) (u : node) : list node :=
  omap (fun e => if bool_decide (e.1.1 = u) then Some e.1.2 else None) es.
Definition pred_in (es : list (node * node * dict)) (v : node) : list node :=
  omap (fun e => if bool_decide (e.1.2 = v) then Some e.1.1 else None) es.
Definition succ (G : pgraph) (u : node) : list node := succ_in (g_edges G) u.
Definition pred (G : pgraph) (v : node) : list node := pred_in (g_edges G) v.

Definition in_degree (G : pgraph) (v : node) : nat := length (pred G v).

Definition json_is_str (j : json) (s : string) : bool :=
  match j with JStr s' => bool_decide (s' = s) | _ => false end.

Definition node_kind_is (G : pgraph) (n : node) (kind : string) : bool :=
  match node_attrs G n with
  | Some a =>
      match dict_get "node_kind" a with
      | Some k => json_is_str k kind
      | None => false
      end
  | None => false
  end.

(** [is_fnode], [is_snode]: every node that this program adds carries a
    [node_kind]; a node without one is neither. *)
Definition is_fnode (G : pgraph) (n : node) : bool := node_kind_is G n "file".
Definition is_snode (G : pgraph) (n : node) : bool := node_kind_is G n "step".

Definition file_nodes (G : pgraph) : list node :=
  filter (fun n => is_fnode G n = true) (g_nodes G).*1.
Definition step_nodes (G : pgraph) : list node :=
  filter (fun n => is_snode G n = true) (g_nodes G).*1.

(** [networkx.algorithms.dag.ancestors(G, n)]: the nodes with a path to [n],
    by as many rounds of predecessor closure as the graph has nodes. *)
Definition add_new (acc : list node) (ns : list node) : list node :=
  foldl (fun acc n => if bool_decide (n ∈ acc) then acc else acc ++ [n]) acc ns.

Fixpoint close_pred (fuel : nat) (G : pgraph) (acc : list node) : list node :=
  match fuel with
  | O => acc
  | S k => close_pred k G (add_new acc (mjoin (map (pred G) acc)))
  end.

Definition ancestors (G : pgraph) (n : node) : list node :=
  close_pred (length (g_nodes G)) G (add_new [] (pred G n)).

(** [is_directed_acyclic_graph]: strip nodes without incoming edges, round
    after round; the graph is acyclic when nothing is left. *)
Fixpoint strip_sources (fuel : nat) (ns : list node)
  (es : list (node * node * dict)) : list node :=
  match fuel with
  | O => ns
  | S k =>
      let keep := filter (fun n => existsb (fun e => bool_decide (e.1.2 = n)) es = true) ns in
      strip_sources k keep
        (filter (fun e => bool_decide (e.1.1 ∈ keep) = true) es)
  end.

Definition is_directed_acyclic_graph (G : pgraph) : bool :=
  match strip_sources (length (g_nodes G)) (g_nodes G).*1 (g_edges G) with
  | [] => true
  | _ => false
  end.

(** ** Indices and the repair heuristic *)

(** A [defaultdict(set)] keyed by strings; a set is a duplicate-free list. *)
Definition index := list (string * list node).

Fixpoint idx_get (k : string) (idx : index) : list node :=
  match idx with
  | [] => []
  | (k', ns) :: idx' => if bool_decide (k' = k) then ns else idx_get k idx'
  end.

(** [idx[k].add(n)] *)
Fixpoint idx_add (k : string) (n : node) (idx : index) : index :=
  match idx with
  | [] => [(k, [n])]
  | (k', ns) :: idx' =>
      if bool_decide (k' = k)
      then (k', if bool_decide (n ∈ ns) then ns else ns ++ [n]) :: idx'
      else (k', ns) :: idx_add k n idx'
  end.

(** Stable sort by a key, ascending ([sorted(l, key=...)]) and descending
    ([sorted(l, key=..., reverse=True)]). *)
Fixpoint insert_asc {A} (key : A -> Z) (x : A) (l : list A) : list A :=
  match l with
  | [] => [x]
  | y :: l' => if key x <=? key y then x :: l else y :: insert_asc key x l'
  end.
Definition sorted_asc {A} (key : A -> Z) (l : list A) : list A :=
  foldr (insert_asc key) [] l.

Fixpoint insert_desc {A} (key : A -> Z) (x : A) (l : list A) : list A :=
  match l with
  | [] => [x]
  | y :: l' => if key y <=? key x then x :: l else y :: insert_desc key x l'
  end.
Definition sorted_desc {A} (key : A -> Z) (l : list A) : list A :=
  foldr (insert_desc key) [] l.

(** The orders of the two sorts. *)
Definition asc {A} (key : A -> Z) (x y : A) : Prop := key x <= key y.
Definition desc {A} (key : A -> Z) (x y : A) : Prop := key y <= key x.

(** [G.nodes[s]['run_info']['beg_time']] *)
Definition beg_time_of (G : pgraph) (s : node) : result Z :=
  match node_attrs G s with
  | None => raise KeyError "node"
  | Some a =>
      ri ← getitem (JDict a) "run_info";
      bt ← getitem ri "beg_time";
      as_num bt
  end.

Section Filesystem.

(** [os.path.isfile] and [os.path.samefile] at the time of the call. *)
Variable isfile : string -> bool.
Variable samefile : string -> string -> bool.

Definition same_underlying_file (f1 f2 : node) : bool :=
  negb (bool_decide (node_realpath f1 = node_realpath f2)) &&
  isfile (node_realpath f1) && isfile (node_realpath f2) &&
  samefile (node_realpath f1) (node_realpath f2).

(** [_compute_hash_and_realpath_indices] *)
Definition compute_hash_and_realpath_indices (G : pgraph) : index * index :=
  let hash2files :=
    foldl (fun idx f => idx_add (node_hash f) f idx) [] (file_nodes G) in
  let realpath2files :=
    foldl (fun idx f => idx_add (node_realpath f) f idx) [] (file_nodes G) in
  let realpath2files :=
    foldl (fun idx hfs =>
      if (1 <? length hfs.2)%nat then
        foldl (fun idx f1 =>
          foldl (fun idx f2 =>
            if same_underlying_file f1 f2
            then idx_add (node_realpath f2) f1
                   (idx_add (node_realpath f1) f2 idx)
            else idx) idx hfs.2) idx hfs.2
      else idx) realpath2files hash2files in
  (hash2files, realpath2files).

(** Two nodes are at the same place when their realpaths are equal or name
    the same underlying file. *)
Definition same_path_class (f c : node) : Prop :=
  node_realpath c = node_realpath f \/
  same_underlying_file f c = true \/ same_underlying_file c f = true.

(** What one turn of the innermost loop of
    [_compute_hash_and_realpath_indices] adds to [realpath2files]: [n] under
    the key [k]. *)
Definition linked (f1 f2 : node) (k : string) (n : node) : Prop :=
  same_underlying_file f1 f2 = true /\
  ((k = node_realpath f2 /\ n = f1) \/ (k = node_realpath f1 /\ n = f2)).

(** [hash2files[f.file_hash] & realpath2files[f.realpath]] *)
Definition same_hash_and_path (idx : index * index) (f : node) : list node :=
  filter (fun f2 => f2 ∈ idx_get (node_realpath f) idx.2)
         (idx_get (node_hash f) idx.1).

(** The list [f2s] of [_reconstruct_missing_connections], before sorting. *)
Definition candidates (idx : index * index) (f : node) : list node :=
  filter (fun f2 => f2 ≠ f ∧ node_mtime f2 < node_mtime f)
         (same_hash_and_path idx f).

(** [self.add_edge(f2, s, **self.edges[f, s]); self.remove_edge(f, s)] *)
Definition rewire (f f2 s : node) (a : dict) (G : pgraph) : pgraph :=
  remove_edge f s (add_edge f2 s a G).

(** One turn of the loop over the consumers [s] of the orphan [f]. *)
Definition reconnect_consumer (f2s : list node) (f : node) (G : pgraph)
  (s : node) : result pgraph :=
  beg ← beg_time_of G s;
  let f2s_bef := filter (fun f2 => node_mtime f2 < beg) f2s in
  match last f2s_bef with
  | Some f2 =>
      if bool_decide (f2 ≠ f) && bool_decide (node_hash f2 = node_hash f)
         && bool_decide (node_mtime f2 < node_mtime f)
      then
        match edge_attrs G f s with
        | Some a => Ok (rewire f f2 s a G)
        | None => raise KeyError "edge"
        end
      else raise AssertionError ""
  | None => Ok G
  end.

(** One turn of the loop over the file nodes. *)
Definition reconnect_file (idx : index * index) (G : pgraph) (f : node)
  : result pgraph :=
  if is_fnode G f && bool_decide (pred G f = []) then
    let f2s := candidates idx f in
    if bool_decide (f2s = []) then Ok G
    else foldM (reconnect_consumer (sorted_asc node_mtime f2s) f) G (succ G f)
  else Ok G.

(** The turns of the loop for the file nodes [l], from the graph [G], with
    the indices of the graph [G0] the pass started on. *)
Definition repair_turns (G0 G : pgraph) (l : list node) : result pgraph :=
  foldM (reconnect_file (compute_hash_and_realpath_indices G0)) G l.

(** [_reconstruct_missing_connections] *)
Definition reconstruct_missing_connections (G : pgraph) : result pgraph :=
  repair_turns G G (file_nodes G).


(** [_reconstruct_fnode_maker]: [None] is Python's None. *)
Definition reconstruct_fnode_maker (G : pgraph) (fnode : node)
  : result (option node) :=
  let idx := compute_hash_and_realpath_indices G in
  let f2s := filter (fun f2 => f2 ≠ fnode) (same_hash_and_path idx fnode) in
  match last (sorted_asc node_mtime f2s) with
  | Some f2 =>
      if bool_decide (f2 ≠ fnode)
         && bool_decide (node_hash f2 = node_hash fnode)
      then Ok (Some f2)
      else raise AssertionError ""
  | None => Ok None
  end.

End Filesystem.

(** ** Loading the graph from the metadata directory *)

(** What [json.loads] makes of a file of the store. *)
Inductive file_content :=
  | Parsed (j : json)
  | Garbage.

(** The directory: file names with their contents, in [os.listdir] order. *)
Definition store := list (string * file_content).

(** [dict(x)] for the JSON values it accepts: a mapping, a list of
    two-element lists with string keys, or an empty string. *)
Definition py_dict (j : json) : result dict :=
  match j with
  | JDict d => Ok d
  | JList l =>
      foldM (fun acc kv =>
               match kv with
               | JList [JStr k; v] => Ok (dict_set k v acc)
               | JList [_; _] => raise TypeError "expected str"
               | JList _ => raise ValueError "dictionary update sequence"
               | _ => raise TypeError "cannot convert dictionary update sequence"
               end) [] l
  | JStr "" => Ok []
  | JStr _ => raise ValueError "dictionary update sequence"
  | _ => raise TypeError "object is not iterable"
  end.

(** [FileArg.is_from_dict(val)] *)
Definition is_from_dict (val : json) : result bool :=
  match val with
  | JDict d =>
      if dict_mem "__FileArg__" d then
        match dict_get "files" d with
        | Some (JList _) => Ok true
        | Some _ => Ok false
        | None => raise KeyError "files"
        end
      else Ok false
  | _ => Ok false
  end.

(** [gather_files(val)]: the file arguments denoted by an argument value,
    flattened. *)
Fixpoint gather_files (val : json) : result (list json) :=
  match val with
  | JDict _ => b ← is_from_dict val; Ok (if b : bool then [val] else [])
  | JList l =>
      (fix go (l : list json) : result (list json) :=
         match l with
         | [] => Ok []
         | v :: l' => a ← gather_files v; b ← go l'; Ok (a ++ b)
         end) l
  | _ => Ok []
  end.

Definition as_list (j : json) : result (list json) :=
  match j with
  | JList l => Ok l
  | _ => raise TypeError "expected list"
  end.

(** The keys an entry must have to become a file node: the tokens of
    ['hash fname realpath size']. *)
Definition file_entry_keys : list string := ["hash"; "fname"; "realpath"; "size"].

(** The body of [for f in files['files']]. *)
Definition add_file_entry (step_id arg : string) (files : json)
  (metadata_from_cmd_line : dict) (G : pgraph) (f : json) : result pgraph :=
  if dict_has_keys f file_entry_keys then
    rp ← getitem f "realpath";
    h ← getitem f "hash";
    mt ← getitem f "mtime";
    rp ← as_str rp;
    h ← as_str h;
    mt ← as_num mt;
    let file_node := FNode rp h mt in
    fd ← items f;
    if dict_mem "node_kind" fd
    then raise TypeError "got multiple values for keyword argument"
    else
      let G := add_node file_node (("node_kind", JStr "file") :: fd) G in
      mode ← getitem files "mode";
      let e := if json_is_str mode "r" then (file_node, SNode step_id)
               else (SNode step_id, file_node) in
      let G := add_edge e.1 e.2 [("arg", JStr arg)] G in
      let pfx := String.append "file." (String.append arg ".") in
      Ok (foldl (fun G kv =>
                   if starts_with pfx kv.1
                   then set_edge_attr e.1 e.2 (drop_prefix pfx kv.1) kv.2 G
                   else G) G metadata_from_cmd_line)
  else Ok G.

(** The part of the loop body of [load] after the filters: the step node,
    then the file nodes and edges of its arguments. *)
Definition add_step_record (step_record_fname : string) (G : pgraph)
  (step_record : json) : result pgraph :=
  step ← getitem step_record "step";
  step_id ← getitem step "step_id" ≫= as_str;
  mdcl ← get_default step "metadata_from_cmd_line" (JDict []) ≫= py_dict;
  stepd ← items step;
  let stepd := dict_set "metadata_from_cmd_line" (JDict mdcl) stepd in
  cmd_name ← getitem (JDict stepd) "cmd_name";
  let stepd :=
    dict_set "step_name" (default cmd_name (dict_get "step_name" mdcl)) stepd in
  if dict_mem "node_kind" stepd || dict_mem "step_record_fname" stepd
  then raise TypeError "got multiple values for keyword argument"
  else
    let G := add_node (SNode step_id)
               (("node_kind", JStr "step")
                :: ("step_record_fname", JStr step_record_fname) :: stepd) G in
    args ← getitem (JDict stepd) "args" ≫= items;
    foldM (fun G av =>
             fl ← gather_files av.2;
             foldM (fun G files =>
                      fs ← getitem files "files" ≫= as_list;
                      foldM (add_file_entry step_id av.1 files mdcl) G fs)
                   G fl)
          G args.

(** [step['run_info'][k]] *)
Definition run_info_field (step : json) (k : string) : result json :=
  ri ← getitem step "run_info"; getitem ri k.

Section Load.

Variable isfile : string -> bool.
Variable samefile : string -> string -> bool.
(** [time.time()]; one load is short against the day-sized age filter, so
    the clock is read as one instant. *)
Variable now : Z.
Variable max_age_days : Z.

(** The graph under construction and the warnings logged so far. *)
Definition load_state : Type := pgraph * list string.

(** One turn of the loop over the directory listing. *)
Definition load_file (st : load_state) (entry : string * file_content)
  : result load_state :=
  let '(step_record_fname, content) := entry in
  if negb (ends_with ".json" step_record_fname) then Ok st else
  step_record ← match content with
                | Parsed j => Ok j
                | Garbage => raise ValueError "Expecting value"
                end;
  if negb (is_valid_step_record step_record)
  then Ok (st.1, st.2 ++ [String.append "not valid step: " step_record_fname])
  else
    step ← getitem step_record "step";
    exc ← run_info_field step "exception";
    if truthy exc then Ok st else
    enc ← get_default step "enclosing_steps" (JStr "");
    if truthy enc then Ok st else
    beg ← run_info_field step "beg_time" ≫= as_num;
    if max_age_days * (60 * 60 * 24) <? now - beg then Ok st else
    G ← add_step_record step_record_fname st.1 step_record;
    Ok (G, st.2).

(** The graph of the records alone, before the checks and the repair. *)
Definition build_graph (S : store) : result load_state :=
  foldM load_file (empty_graph, []) S.

Definition unknown_origin_files (G : pgraph) : list string :=
  omap (fun f => if bool_decide (in_degree G f = 0%nat)
                    && isfile (node_realpath f)
                 then Some (node_realpath f) else None) (file_nodes G).

(** [ProvenanceGraph.load] on an empty graph. *)
Definition load (S : store) : result load_state :=
  st ← build_graph S;
  let '(G, log) := st in
  if negb (forallb (fun f => (in_degree G f <=? 1)%nat) (file_nodes G))
  then raise AssertionError ""
  else
    G ← reconstruct_missing_connections isfile samefile G;
    if negb (is_directed_acyclic_graph G) then raise AssertionError ""
    else
      let log :=
        log ++ omap (fun f => if (1 <? in_degree G f)%nat
                              then Some "indegree" else None) (file_nodes G) in
      Ok (G, log ++ [String.append "UNKNOWN_ORIGIN:"
                       (String.concat "," (unknown_origin_files G))]).

End Load.

(** ** Recording of metadata *)

Definition VIRAL_NGS_METADATA_FORMAT : string := "1.0.0".

(** The process state that the recorder reads and writes: [os.environ], the
    directory named by VIRAL_NGS_METADATA_PATH, and the warnings logged. *)
Record world := World {
  w_env : gmap string string;
  w_store : store;
  w_log : list string
}.

Definition set_env (k v : string) (w : world) : world :=
  World (<[k := v]> (w_env w)) (w_store w) (w_log w).
Definition log_warning (m : string) (w : world) : world :=
  World (w_env w) (w_store w) (w_log w ++ [m]).

(** [metadata_fs.settext(name, text)] *)
Fixpoint settext (name : string) (c : file_content) (S : store) : store :=
  match S with
  | [] => [(name, c)]
  | (n, c') :: S' =>
      if bool_decide (n = name) then (n, c) :: S' else (n, c') :: settext name c S'
  end.

(** [is_metadata_tracking_enabled()] *)
Definition is_metadata_tracking_enabled (w : world) : bool :=
  bool_decide (is_Some (w_env w !! "VIRAL_NGS_METADATA_PATH")).

(** [metadata_dir()]: [os.environ['VIRAL_NGS_METADATA_PATH']] *)
Definition metadata_dir (w : world) : result string :=
  match w_env w !! "VIRAL_NGS_METADATA_PATH" with
  | Some d => Ok d
  | None => raise KeyError "VIRAL_NGS_METADATA_PATH"
  end.

(** A [FileArg] object: the argument value, the mode and
    [compute_fnames(val)]. *)
Record FileArg := mkFileArg {
  fa_val : string;
  fa_mode : string;
  fa_fnames : list string
}.

(** The value of a parsed command-line argument. *)
Inductive argval :=
  | APlain (v : json)
  | AFile (fa : FileArg)
  | AList (l : list argval).

Record stat_result := mkStat {
  st_size : Z; st_mtime : Z; st_ctime : Z; st_uid : Z; st_ino : Z; st_dev : Z
}.

Fixpoint mapM {A B} (f : A -> result B) (l : list A) : result (list B) :=
  match l with
  | [] => Ok []
  | a :: l' => b ← f a; bs ← mapM f l'; Ok (b :: bs)
  end.

(** [replace_file_args] of [reuse_cached_step] on the arguments of a stored
    record. *)
Fixpoint replace_file_args (val : json) : result json :=
  match val with
  | JDict _ =>
      b ← is_from_dict val;
      if b : bool then
        mode ← getitem val "mode";
        if json_is_str mode "w" then Ok (JStr "_out_file_arg")
        else
          fs ← getitem val "files" ≫= as_list;
          hs ← mapM (fun f => getitem f "hash") fs;
          Ok (JList hs)
      else Ok val
  | JList l =>
      (fix go (l : list json) : result (list json) :=
         match l with
         | [] => Ok []
         | v :: l' => a ← replace_file_args v; b ← go l'; Ok (a :: b)
         end) l ≫= (fun l' => Ok (JList l'))
  | _ => Ok val
  end.

(** The body of the loop of [reuse_cached_step] over the directory. The
    comparison of the arguments is printed only, so nothing of it is kept. *)
Definition reuse_check_file (cmd_module cmd_name : string)
  (entry : string * file_content) : result unit :=
  let '(step_record_fname, content) := entry in
  if ends_with ".json" step_record_fname && contains cmd_name step_record_fname
  then
    step_record ← match content with
                  | Parsed j => Ok j
                  | Garbage => raise ValueError "Expecting value"
                  end;
    if negb (is_valid_step_record step_record) then Ok tt else
    step ← getitem step_record "step";
    exc ← run_info_field step "exception";
    if truthy exc then Ok tt else
    enc ← get_default step "enclosing_steps" (JStr "");
    if truthy enc then Ok tt else
    m ← getitem step "cmd_module";
    if negb (json_is_str m cmd_module) then Ok tt else
    n ← getitem step "cmd_name";
    if negb (json_is_str n cmd_name) then Ok tt else
    args ← getitem step "args" ≫= items;
    _ ← mapM (fun av => replace_file_args av.2) args;
    Ok tt
  else Ok tt.

(** [reuse_cached_step(cmd_module, cmd_name, args)] *)
Definition reuse_cached_step (cmd_module cmd_name : string) (w : world)
  : result unit :=
  if bool_decide (is_Some (w_env w !! "VIRAL_NGS_DATA_CACHE")) then
    _ ← metadata_dir w;
    _ ← mapM (reuse_check_file cmd_module cmd_name) (w_store w);
    Ok tt
  else Ok tt.

Section Recorder.

(** The collaborators of the recorder. *)
Variable hasher : string -> string.          (* Hasher.__call__: never raises *)
Variable os_realpath : string -> string.
Variable os_abspath : string -> string.
Variable os_stat : string -> option stat_result.   (* None: os.stat raises *)
Variable getpwuid : Z -> option string.            (* None: KeyError *)
Variable crc32_hex : json -> string.  (* checksum of the serialized record *)
Variable version_info run_env argv : json.

(** [file2dict] of [FileArg.gather_file_info] *)
Definition file2dict (mode : string) (out_files_exist : bool)
  (file_arg : string) : dict :=
  let file_info :=
    [("fname", JStr file_arg); ("realpath", JStr (os_realpath file_arg));
     ("abspath", JStr (os_abspath file_arg))] in
  if bool_decide (mode = "r") || out_files_exist then
    let file_info := dict_update file_info [("hash", JStr (hasher file_arg))] in
    match os_stat file_arg with
    | Some st =>
        let file_info :=
          dict_update file_info
            [("size", JNum (st_size st)); ("mtime", JNum (st_mtime st));
             ("ctime", JNum (st_ctime st))] in
        match getpwuid (st_uid st) with
        | Some owner =>
            dict_update
              (dict_update file_info [("owner", JStr owner)])
              [("inode", JNum (st_ino st)); ("device", JNum (st_dev st))]
        | None => file_info
        end
    | None => file_info
    end
  else file_info.

(** [FileArg.gather_file_info(hasher, out_files_exist)] *)
Definition gather_file_info (fa : FileArg) (out_files_exist : bool) : json :=
  JDict [("__FileArg__", JBool true); ("val", JStr (fa_val fa));
         ("mode", JStr (fa_mode fa));
         ("files", JList (map (fun f => JDict (file2dict (fa_mode fa) out_files_exist f))
                              (fa_fnames fa)))].

(** What [json.dumps(..., default=write_obj)] makes of an argument. *)
Fixpoint write_obj (out_files_exist : bool) (x : argval) : json :=
  match x with
  | APlain v => v
  | AFile fa => gather_file_info fa out_files_exist
  | AList l => JList (map (write_obj out_files_exist) l)
  end.

(** One call of the wrapper: the parsed arguments and what the clock, the
    id generator and the caller's module supply. *)
Record invocation := mkInvocation {
  inv_args : list (string * argval);  (* vars(args), without 'metadata' *)
  inv_metadata : dict;                (* the --metadata pairs *)
  inv_cmd_module : string;
  inv_cmd_name : string;              (* args_dict.get('command', cmd_main.__name__) *)
  inv_beg_time : Z;
  inv_end_time : Z;
  inv_new_run_id : string;            (* create_run_id(beg_time), for run_id *)
  inv_step_run_id : string            (* create_run_id(beg_time), for step_id *)
}.

Definition step_id_of (inv : invocation) : string :=
  String.concat "__" [inv_step_run_id inv; inv_cmd_module inv; inv_cmd_name inv].

Definition metadata_value_pfx : string := "VIRAL_NGS_METADATA_VALUE_".

(** [metadata_from_cmd_line]: the VIRAL_NGS_METADATA_VALUE_ variables, then
    the --metadata pairs. *)
Definition metadata_from_cmd_line (inv : invocation) (env : gmap string string)
  : dict :=
  dict_update
    (omap (fun kv => if starts_with metadata_value_pfx kv.1
                     then Some (drop_prefix metadata_value_pfx kv.1, JStr kv.2)
                     else None) (map_to_list env))
    (inv_metadata inv).

Definition json_of_option_string (o : option string) : json :=
  match o with Some s => JStr s | None => JNull end.

(** The record [step_data] built after the command returned. *)
Definition step_data (inv : invocation) (mdcl : dict) (run_id : string)
  (save_steps_running : string) (cmd_exception_str : option string)
  (out_files_exist : bool) (cmd_result : json) : json :=
  let metadata_from_cmd_return :=
    match cmd_result with
    | JDict d => if dict_mem "__metadata__" d then cmd_result else JDict []
    | _ => JDict []
    end in
  let args_dict := filter (fun av => av.1 ≠ "func_main") (inv_args inv) in
  JDict [("__viral_ngs_metadata__", JBool true);
         ("format", JStr VIRAL_NGS_METADATA_FORMAT);
         ("step", JDict [
            ("step_id", JStr (step_id_of inv)); ("run_id", JStr run_id);
            ("cmd_module", JStr (inv_cmd_module inv));
            ("cmd_name", JStr (inv_cmd_name inv));
            ("version_info", version_info);
            ("run_env", run_env);
            ("run_info", JDict [
               ("beg_time", JNum (inv_beg_time inv));
               ("end_time", JNum (inv_end_time inv));
               ("duration", JNum (inv_end_time inv - inv_beg_time inv));
               ("exception", json_of_option_string cmd_exception_str);
               ("argv", argv)]);
            ("args", JDict (map (fun av => (av.1, write_obj out_files_exist av.2))
                                args_dict));
            ("metadata_from_cmd_line", JDict mdcl);
            ("metadata_from_cmd_return", metadata_from_cmd_return);
            ("enclosing_steps", JStr save_steps_running)])].

Definition STEPS_RUNNING : string := "VIRAL_NGS_METADATA_STEPS_RUNNING".

(** [os.environ.get('VIRAL_NGS_METADATA_STEPS_RUNNING', '')] *)
Definition steps_running (w : world) : string :=
  default "" (w_env w !! STEPS_RUNNING).

(** [os.environ['VIRAL_NGS_METADATA_STEPS_RUNNING'] =
      ((save_steps_running+':') if save_steps_running else '') + step_id] *)
Definition push_step (step_id : string) (w : world) : world :=
  set_env STEPS_RUNNING
    (String.append
       (if bool_decide (steps_running w = "") then ""
        else String.append (steps_running w) ":") step_id) w.

(** How the command ended, as the [try] statement sees it: [cmd_result],
    [cmd_exception] (set by [except Exception]) and the exception that
    [except Exception] does not catch and that stays in flight. *)
Definition classify (r : result json) : json * option exn * option exn :=
  match r with
  | Ok v => (v, None, None)
  | Raise e =>
      if is_Exception (exn_cls e) then (JNull, Some e, None)
      else (JNull, None, Some e)
  end.

(** [traceback.format_exc()] for the exception being handled. *)
Definition format_exc (e : exn) : string := exn_msg e.

(** Where the recording may fail, inside the inner [try]: while the record
    is built and serialized, before the file is touched; inside [settext],
    which may leave nothing, a part of the text or all of it behind; or
    once the file is written (closing the file system, the last log
    line). *)
Inductive fault :=
  | FailBeforeWrite (e : exn)
  | FailInWrite (left_behind : option file_content) (e : exn)
  | FailAfterWrite (e : exn).

Definition fault_exn (f : fault) : exn :=
  match f with
  | FailBeforeWrite e | FailInWrite _ e | FailAfterWrite e => e
  end.

(** The body of the inner [try] of the [finally] clause: the process state
    it leaves and the exception, if any, that leaves it. [fault] is the
    failure, if any, of a collaborator while the record is built,
    serialized and written. *)
Definition record_metadata (inv : invocation) (mdcl : dict) (run_id save : string)
  (fault : option fault) (cmd_result : json) (cmd_exception : option exn)
  (w : world) : world * option exn :=
  if is_metadata_tracking_enabled w
     && negb (match cmd_exception with
              | Some e => is_KeyboardInterrupt (exn_cls e)
              | None => false
              end)
  then
    let rec := step_data inv mdcl run_id save
                 (format_exc <$> cmd_exception)
                 (bool_decide (cmd_exception = None)) cmd_result in
    let json_fname :=
      String.concat "" [step_id_of inv; ".crc32_"; crc32_hex rec; ".json"] in
    let written c :=
      World (w_env w) (settext json_fname c (w_store w)) (w_log w) in
    match fault with
    | Some (FailBeforeWrite e) => (w, Some e)
    | Some (FailInWrite None e) => (w, Some e)
    | Some (FailInWrite (Some c) e) => (written c, Some e)
    | Some (FailAfterWrite e) => (written (Parsed rec), Some e)
    | None => (written (Parsed rec), None)
    end
  else (w, None).

(** [_run_cmd_with_tracking(args)]: the outcome seen by the caller and the
    process state left behind. [cmd_main] is the wrapped command applied to
    its arguments. *)
Definition run_cmd_with_tracking (inv : invocation)
  (cmd_main : world -> result json * world) (fault : option fault) (w : world)
  : result json * world :=
  let mdcl := metadata_from_cmd_line inv (w_env w) in
  let run_id := default (inv_new_run_id inv) (w_env w !! "VIRAL_NGS_METADATA_RUN_ID") in
  let step_id := step_id_of inv in
  let save_steps_running := steps_running w in
  let w := push_step step_id w in
  match reuse_cached_step (inv_cmd_module inv) (inv_cmd_name inv) w with
  | Raise e => (Raise e, w)
  | Ok _ =>
      let '(r, w) := cmd_main w in
      let '(cmd_result, cmd_exception, in_flight) := classify r in
      (* finally: *)
      let w := set_env STEPS_RUNNING save_steps_running w in
      let '(w, recording_exception) :=
        record_metadata inv mdcl run_id save_steps_running fault
          cmd_result cmd_exception w in
      match recording_exception with
      | Some e =>
          if is_Exception (exn_cls e) then
            let w := log_warning "Error recording metadata" w in
            match in_flight, cmd_exception with
            | Some e0, _ => (Raise e0, w)
            | None, Some e1 =>
                (Raise e1, log_warning "Command failed with exception" w)
            | None, None => (Ok JNull, w)
            end
          else (Raise e, w)
      | None =>
          match in_flight, cmd_exception with
          | Some e0, _ => (Raise e0, w)
          | None, Some e1 =>
              (Raise e1, log_warning "Command failed with exception" w)
          | None, None => (Ok JNull, w)
          end
      end
  end.

End Recorder.

(** ** Queries on a loaded graph *)

Section Provenance.

Variable isfile : string -> bool.
Variable samefile : string -> string -> bool.
Variable hasher : string -> string.
Variable os_realpath : string -> string.
Variable os_stat : string -> option stat_result.

(** [print_provenance(fname)]: the [step_record_fname] lines it prints for
    the ancestors of the file, on the copy [G] of the graph. *)
Definition print_provenance (G : pgraph) (fname : string)
  : result (list json) :=
  st ← match os_stat fname with
       | Some st => Ok st
       | None => raise OSError fname
       end;
  let f_node := FNode (os_realpath fname) (hasher fname) (st_mtime st) in
  let G := if has_node G f_node then G
           else add_node f_node [("node_kind", JStr "file")] G in
  f_node ← (if (in_degree G f_node <? 1)%nat
            then reconstruct_fnode_maker isfile samefile G f_node
            else Ok (Some f_node));
  match f_node with
  | None => raise AssertionError ""
  | Some f_node =>
      if negb (has_node G f_node) then raise AssertionError "" else
      if negb (bool_decide (in_degree G f_node = 1%nat))
      then raise AssertionError (String.append "No provenance info for file " fname)
      else
        mapM (fun n => match node_attrs G n with
                       | Some a => getitem (JDict a) "step_record_fname"
                       | None => raise KeyError "node"
                       end)
             (filter (fun n => is_snode G n = true) (ancestors G f_node))
  end.

End Provenance.

(** [fnmatch.fnmatch(s, pat)] for patterns made of literal characters and
    [*], as the two patterns below are. *)
Fixpoint fnmatch_pat (pat : string) : string -> bool :=
  match pat with
  | EmptyString => fun s => bool_decide (s = "")
  | String c pat' =>
      if bool_decide (c = "*"%char) then
        fix star (s : string) : bool :=
          fnmatch_pat pat' s ||
          match s with
          | EmptyString => false
          | String _ s' => star s'
          end
      else
        fun s =>
          match s with
          | EmptyString => false
          | String d s' => bool_decide (c = d) && fnmatch_pat pat' s'
          end
  end.
Definition fnmatch (s pat : string) : bool := fnmatch_pat pat s.

(** [class Comp] *)
Record Comp := mkComp {
  nodes : list node;
  main_inputs : list node;
  main_outputs : list node
}.

(** [G.nodes[s]['step_name']] *)
Definition step_name_of (G : pgraph) (s : node) : result json :=
  match node_attrs G s with
  | Some a => getitem (JDict a) "step_name"
  | None => raise KeyError "node"
  end.

Fixpoint filterM {A} (p : A -> result bool) (l : list A) : result (list A) :=
  match l with
  | [] => Ok []
  | a :: l' =>
      b ← p a; r ← filterM p l'; Ok (if b : bool then a :: r else r)
  end.

(** The body of the loop of [extract_comps_assembly] over the end nodes. *)
Definition extract_comp_for (G : pgraph) (beg_nodes : list node)
  (extracted_comps : list Comp) (end_node : node) : result (list Comp) :=
  let ancs := add_new (ancestors G end_node) [end_node] in
  let beg := filter (fun f => f ∈ ancs) beg_nodes in
  if bool_decide (beg = []) then Ok extracted_comps else
  if negb (bool_decide (length beg = 1%nat)) then raise AssertionError "" else
  final_assembly_metrics ←
    filterM (fun s => n ← step_name_of G s; Ok (json_is_str n "assembly_metrics"))
            (succ G end_node);
  if bool_decide (final_assembly_metrics = []) then Ok extracted_comps else
  keyed ← mapM (fun s => b ← beg_time_of G s; Ok (s, b)) final_assembly_metrics;
  match sorted_desc snd keyed with
  | (s0, _) :: _ =>
      Ok (extracted_comps ++ [mkComp (add_new ancs [s0]) beg [end_node]])
  | [] => Ok extracted_comps
  end.

(** [extract_comps_assembly(G)] *)
Definition extract_comps_assembly (G : pgraph) : result (list Comp) :=
  let beg_nodes :=
    filter (fun f => fnmatch (node_realpath f) "*/data/00_raw/*.bam" = true)
           (file_nodes G) in
  let end_nodes :=
    filter (fun f => fnmatch (node_realpath f) "*/data/02_assembly/*.fasta" = true)
           (file_nodes G) in
  foldM (extract_comp_for G (remove_dups beg_nodes)) [] end_nodes.

(** ** Vocabulary of the properties *)

(** Edge keys are unique, as the keys of [G.edges] are, and so are the keys
    of every attribute dict. *)
Definition edges_wf (es : list (node * node * dict)) : Prop :=
  NoDup es.*1 /\ Forall (fun e => NoDup e.2.*1) es.

Definition graph_wf (G : pgraph) : Prop := edges_wf (g_edges G).

(** What the repair pass keeps of the graph [G0] it started on: the file
    nodes, and an upper bound on every in-degree. *)
Definition repair_inv (G0 G : pgraph) : Prop :=
  file_nodes G = file_nodes G0 /\
  forall n, (in_degree G n <= in_degree G0 n)%nat.




(** [s] is a step named assembly_metrics. *)
Definition is_metrics_step (G : pgraph) (s : node) : Prop :=
  step_name_of G s = Ok (JStr "assembly_metrics").

(** The closure of [extract_comps_assembly]: the ancestors and the node. *)
Definition closure (G : pgraph) (end_node : node) : list node :=
  add_new (ancestors G end_node) [end_node].

(** The file nodes [extract_comps_assembly] starts from, as a set, and the
    ones it ends at. *)
Definition beg_nodes_of (G : pgraph) : list node :=
  remove_dups
    (filter (fun f => fnmatch (node_realpath f) "*/data/00_raw/*.bam" = true)
            (file_nodes G)).
Definition end_nodes_of (G : pgraph) : list node :=
  filter (fun f => fnmatch (node_realpath f) "*/data/02_assembly/*.fasta" = true)
         (file_nodes G).

(** The nodes matching the input pattern in the closure of an output node. *)
Definition inputs_in_closure (G : pgraph) (end_node : node) : list node :=
  filter (fun f => f ∈ closure G end_node) (beg_nodes_of G).

(** What the extractor makes of the output node [end_node]: no Comp when
    its closure holds no input node, or holds one and no step reading the
    node is a metrics step; one Comp when the closure holds exactly one
    input node and some metrics step reads the node. *)
Definition comps_of_output (G : pgraph) (end_node : node) (cs : list Comp)
  : Prop :=
  (inputs_in_closure G end_node = [] /\ cs = []) \/
  exists b,
    inputs_in_closure G end_node = [b] /\
    (((forall s, s ∈ succ G end_node -> ~ is_metrics_step G s) /\ cs = []) \/
     exists s0 t0,
       s0 ∈ succ G end_node /\ is_metrics_step G s0 /\
       beg_time_of G s0 = Ok t0 /\
       (forall s t, s ∈ succ G end_node -> is_metrics_step G s ->
                    beg_time_of G s = Ok t -> t <= t0) /\
       cs = [mkComp (add_new (closure G end_node) [s0]) [b] [end_node]]).

(** ** Vocabulary of the further properties *)

(** The warning that [load] logs for an entry of the directory, if any. *)
Definition invalid_warning (entry : string * file_content) : option string :=
  match entry.2 with
  | Parsed j =>
      if ends_with ".json" entry.1 && negb (is_valid_step_record j)
      then Some (String.append "not valid step: " entry.1)
      else None
  | Garbage => None
  end.

(** The name of the file that holds the record [rec] of an invocation:
    ['{}.crc32_{}.json'.format(step_id, crc32)]. *)
Definition record_file_name (crc32_hex : json -> string) (inv : invocation)
  (rec : json) : string :=
  String.concat "" [step_id_of inv; ".crc32_"; crc32_hex rec; ".json"].

(** What the record of a run says of the outcome [r] of the command:
    [cmd_exception_str], set by [except Exception] only. *)
Definition recorded_exception (r : result json) : json :=
  match r with
  | Raise e => if is_Exception (exn_cls e) then JStr (format_exc e) else JNull
  | Ok _ => JNull
  end.

(** The [FileArg] objects of an argument value, flattened. *)
Fixpoint file_args_of (x : argval) : list FileArg :=
  match x with
  | APlain _ => []
  | AFile fa => [fa]
  | AList l => mjoin (map file_args_of l)
  end.

(** The plain values inside an argument are scalars (not containers). *)
Fixpoint plain_scalars (x : argval) : Prop :=
  match x with
  | APlain (JDict _) | APlain (JList _) => False
  | APlain _ => True
  | AFile _ => True
  | AList l => foldr (fun y P => plain_scalars y /\ P) True l
  end.

(** A node is a FileNode tuple, not a step id. *)
Definition is_file_tuple (n : node) : bool :=
  match n with FNode _ _ _ => true | SNode _ => false end.

(** An edge joins a FileNode tuple and a step id. *)
Definition joins_file_and_step (e : node * node * dict) : bool :=
  xorb (is_file_tuple e.1.1) (is_file_tuple e.1.2).

(** What [load] keeps true of the graph while it builds and repairs it:
    every edge joins a file and a step and carries the attribute [arg];
    only FileNode tuples are of kind file; both ends of an edge are nodes. *)
Definition graph_ok (G : pgraph) : Prop :=
  Forall (fun e => joins_file_and_step e = true /\ dict_mem "arg" e.2 = true)
         (g_edges G) /\
  (forall n, is_fnode G n = true -> is_file_tuple n = true) /\
  (forall e, e ∈ g_edges G -> has_node G e.1.1 = true /\ has_node G e.1.2 = true).

(** The two kinds of file that [extract_comps_assembly] looks for. *)
Definition raw_input (n : node) : Prop :=
  fnmatch (node_realpath n) "*/data/00_raw/*.bam" = true.
Definition assembly_output (n : node) : Prop :=
  fnmatch (node_realpath n) "*/data/02_assembly/*.fasta" = true.

Fixpoint last_char (s : string) : option ascii :=
  match s with
  | EmptyString => None
  | String c s' =>
      match last_char s' with Some d => Some d | None => Some c end
  end.

(** ** The cache of data files *)

(** [for f in x]: the elements of a list, the keys of a mapping, the
    characters of a string. *)
Definition py_iter (j : json) : result (list json) :=
  match j with
  | JList l => Ok l
  | JDict d => Ok (map (fun kv => JStr kv.1) d)
  | JStr s => Ok (map (fun c => JStr (String c "")) (String.list_ascii_of_string s))
  | _ => raise TypeError "object is not iterable"
  end.

(** [k in x] for a string [k]. *)
Definition py_in (k : string) (j : json) : result bool :=
  match j with
  | JDict d => Ok (dict_mem k d)
  | JList l => Ok (existsb (fun x => json_is_str x k) l)
  | JStr s => Ok (contains k s)
  | _ => raise TypeError "argument is not iterable"
  end.

Section Cache.

(** The file system as the cache sees it: [os.path.isfile],
    [shutil.copyfile(src, dst)], [os.path.join]. *)
Variable FS : Type.
Variable os_isfile : FS -> string -> bool.
Variable copyfile : string -> string -> FS -> result FS.
Variable path_join : string -> string -> string.

(** [FileCache(cache_dir).save_file(fname, file_hash)] *)
Definition save_file (cache_dir fname file_hash : string) (fs : FS) : result FS :=
  if negb (os_isfile fs (path_join cache_dir file_hash))
  then copyfile fname (path_join cache_dir file_hash) fs
  else Ok fs.

(** [FileCache(cache_dir).has_file_with_hash(file_hash)] *)
Definition has_file_with_hash (cache_dir file_hash : string) (fs : FS) : bool :=
  os_isfile fs (path_join cache_dir file_hash).

(** [FileCache(cache_dir).fetch_file(file_hash, dest_fname)] *)
Definition fetch_file (cache_dir file_hash dest_fname : string) (fs : FS)
  : result FS :=
  copyfile (path_join cache_dir file_hash) dest_fname fs.

(** One turn of the loop of [cache_results]. *)
Definition cache_file (cache_dir : string) (fs : FS) (f : json) : result FS :=
  has ← py_in "hash" f;
  if has : bool then
    abspath ← getitem f "abspath";
    h ← getitem f "hash";
    file_hash ← as_str h;
    fname ← as_str abspath;
    save_file cache_dir fname file_hash fs
  else Ok fs.

(** [cache_results(file_info)] *)
Definition cache_results (env : gmap string string) (file_info : json) (fs : FS)
  : result FS :=
  match env !! "VIRAL_NGS_DATA_CACHE" with
  | None => Ok fs
  | Some cache_dir =>
      mode ← getitem file_info "mode";
      if json_is_str mode "r" then Ok fs else
      files ← getitem file_info "files" ≫= py_iter;
      foldM (cache_file cache_dir) fs files
  end.

End Cache.

Arguments save_file {FS}.
Arguments has_file_with_hash {FS}.
Arguments fetch_file {FS}.
Arguments cache_file {FS}.
Arguments cache_results {FS}.

(** ** Masking of secrets *)

(** [s.index(c)] for a character [c]: None is Python's ValueError. *)
Fixpoint str_index (c : ascii) (s : string) : option nat :=
  match s with
  | EmptyString => None
  | String x s' =>
      if bool_decide (x = c) then Some O else S <$> str_index c s'
  end.

(** [s[n:]] *)
Fixpoint str_from (n : nat) (s : string) : string :=
  match n, s with
  | O, _ => s
  | S n', String _ s' => str_from n' s'
  | S _, EmptyString => EmptyString
  end.

(** [_mask_secret_info(fs_url)] *)
Definition mask_secret_info (fs_url : string) : result string :=
  if starts_with "s3://" fs_url && contains "@" fs_url then
    match str_index "@" fs_url with
    | Some i => Ok (String.append "s3://" (str_from (i + 1) fs_url))
    | None => raise ValueError "substring not found"
    end
  else Ok fs_url.

(** ** Grouping of Comps *)

From Stdlib Require OrderedTypeEx.

(** [operator.attrgetter('file_hash')] on a node: a step id is a string and
    has no such attribute. *)
Definition file_hash_of (n : node) : result string :=
  match n with
  | FNode _ h _ => Ok h
  | SNode _ => raise AttributeError "file_hash"
  end.

(** [comp_main_inputs_contents(comp)] *)
Definition comp_main_inputs_contents (c : Comp) : result (list string) :=
  mapM file_hash_of (main_inputs c).

(** The order of tuples of strings: [k1 <= k2]. *)
Definition tuple_le (k1 k2 : list string) : bool :=
  match List.list_compare String.compare k1 k2 with
  | Gt => false
  | _ => true
  end.

Definition key_le {A} (x y : list string * A) : Prop := tuple_le x.1 y.1 = true.

(** [sorted(l, key=...)] on elements paired with their keys; stable. *)
Fixpoint insert_by_key {A} (x : list string * A) (l : list (list string * A))
  : list (list string * A) :=
  match l with
  | [] => [x]
  | y :: l' => if tuple_le x.1 y.1 then x :: l else y :: insert_by_key x l'
  end.
Definition sorted_by_key {A} (l : list (list string * A))
  : list (list string * A) :=
  foldr insert_by_key [] l.

(** [itertools.groupby(l, key=...)]: the runs of consecutive elements with
    equal keys. *)
Fixpoint groupby {A} (l : list (list string * A))
  : list (list (list string * A)) :=
  match l with
  | [] => []
  | x :: l' =>
      match groupby l' with
      | (y :: g) :: gs =>
          if bool_decide (x.1 = y.1) then (x :: y :: g) :: gs
          else [x] :: (y :: g) :: gs
      | _ => [[x]]
      end
  end.

(** [group_comps_by_main_input(comps)] *)
Definition group_comps_by_main_input (comps : list Comp)
  : result (list (list Comp)) :=
  keyed ← mapM (fun c => k ← comp_main_inputs_contents c; Ok (k, c)) comps;
  Ok (map (map snd) (groupby (sorted_by_key keyed))).

(** ** Sample records and stores *)

(** A per-file entry as [file2dict] writes it when [os.stat] succeeded. *)
Definition file_entry (rp h : string) (mt : Z) : json :=
  JDict [("fname", JStr rp); ("realpath", JStr rp); ("abspath", JStr rp);
         ("hash", JStr h); ("size", JNum 1); ("mtime", JNum mt)].

Definition file_arg (mode : string) (fs : list json) : json :=
  JDict [("__FileArg__", JBool true); ("val", JStr ""); ("mode", JStr mode);
         ("files", JList fs)].

(** A record of a step that succeeded, outside any other step. *)
Definition step_record (sid cmd_name : string) (beg : Z) (args : dict) : json :=
  JDict [("format", JStr "1.0.0");
         ("step", JDict [("step_id", JStr sid); ("cmd_module", JStr "m");
                         ("cmd_name", JStr cmd_name);
                         ("run_info", JDict [("beg_time", JNum beg);
                                             ("exception", JNull)]);
                         ("args", JDict args)])].

Definition no_file (_ : string) : bool := false.
Definition no_samefile (_ _ : string) : bool := false.

(** Step A writes f1; B reads f1 and writes f2; C reads f2. *)
Definition chain_store : store :=
  [("A.json", Parsed (step_record "A" "a" 5
      [("out", file_arg "w" [file_entry "/f1" "h1" 10])]));
   ("B.json", Parsed (step_record "B" "b" 15
      [("in", file_arg "r" [file_entry "/f1" "h1" 10]);
       ("out", file_arg "w" [file_entry "/f2" "h2" 20])]));
   ("C.json", Parsed (step_record "C" "c" 25
      [("in", file_arg "r" [file_entry "/f2" "h2" 20])]))].

Definition chain_loaded : load_state :=
  Eval vm_compute in
    match load no_file no_samefile 100 10000 chain_store with
    | Ok st => st
    | Raise _ => (empty_graph, [])
    end.

(** Two steps both claim to have written the same state of one file. *)
Definition dup_store : store :=
  [("A.json", Parsed (step_record "A" "a" 5
      [("out", file_arg "w" [file_entry "/f1" "h1" 10])]));
   ("B.json", Parsed (step_record "B" "b" 6
      [("out", file_arg "w" [file_entry "/f1" "h1" 10])]))].

Definition dup_built : load_state :=
  Eval vm_compute in
    match build_graph 100 10000 dup_store with
    | Ok st => st
    | Raise _ => (empty_graph, [])
    end.

(** A record with the four required keys and nothing else. *)
Definition bare_record : json :=
  JDict [("format", JStr "1.0.0");
         ("step", JDict [("args", JDict []); ("step_id", JStr "s");
                         ("cmd_module", JStr "m")])].

(** A record without [cmd_module]. *)
Definition invalid_record : json :=
  JDict [("format", JStr "1.0.0");
         ("step", JDict [("args", JDict []); ("step_id", JStr "s")])].

(** Sample collaborators of the recorder. *)
Definition sample_hasher (f : string) : string := String.append "sha1_" f.
Definition same_path (f : string) : string := f.
Definition stat_fails (_ : string) : option stat_result := None.
Definition stat_at (mt : Z) (_ : string) : option stat_result :=
  Some (mkStat 1 mt mt 0 0 0).
Definition sample_getpwuid (_ : Z) : option string := Some "user".
Definition sample_crc (_ : json) : string := "00000000".

Definition tracking_world : world :=
  World {["VIRAL_NGS_METADATA_PATH" := "/md"]} [] [].

(** A command with one input file. *)
Definition sample_invocation : invocation :=
  mkInvocation [("inBam", AFile (mkFileArg "/in.bam" "r" ["/in.bam"]))]
               [] "read_utils" "sort_bam" 1000 1010 "run1" "run2".

Definition cmd_returns (v : json) (w : world) : result json * world := (Ok v, w).
Definition cmd_raises (c : exn_class) (w : world) : result json * world :=
  (Raise (Exn c "Traceback"), w).

(** The store after a successful run whose input file could not be
    stat'ed when the record was written. *)
Definition stat_failed_store : store :=
  Eval vm_compute in
    w_store (run_cmd_with_tracking sample_hasher same_path same_path stat_fails
               sample_getpwuid sample_crc JNull JNull JNull
               sample_invocation (cmd_returns JNull) None tracking_world).2.

(** The artifact cache is switched on, metadata tracking is not. *)
Definition cache_only_world : world :=
  World {["VIRAL_NGS_DATA_CACHE" := "/cache"]} [] [].

(** A command that leaves a trace of having run and returns 7. *)
Definition cmd_marks (w : world) : result json * world :=
  (Ok (JNum 7), set_env "COMMAND_RAN" "1" w).

Definition sample_run (cmd_main : world -> result json * world)
  (fault : option fault) (w : world) : result json * world :=
  run_cmd_with_tracking sample_hasher same_path same_path (stat_at 900)
    sample_getpwuid sample_crc JNull JNull JNull
    sample_invocation cmd_main fault w.

(** [step['run_info']['exception']] of the records of a store. *)
Definition recorded_exceptions (S : store) : list (result json) :=
  map (fun e => match e.2 with
                | Parsed j => getitem j "step" ≫= fun st => run_info_field st "exception"
                | Garbage => raise ValueError "Expecting value"
                end) S.

(** Step A wrote [/f1] with mtime 20; the file now on disk has the same
    content and mtime 10. *)
Definition later_store : store :=
  [("A.json", Parsed (step_record "A" "a" 5
      [("out", file_arg "w" [file_entry "/f1" "h1" 20])]))].

Definition later_graph : pgraph :=
  Eval vm_compute in
    match load no_file no_samefile 100 10000 later_store with
    | Ok st => st.1
    | Raise _ => empty_graph
    end.

Definition hash_h1 (_ : string) : string := "h1".

(** An assembly from one raw input, with no metrics step run on it. *)
Definition assembly_store : store :=
  [("A.json", Parsed (step_record "A" "assemble" 5
      [("in", file_arg "r" [file_entry "/s/data/00_raw/x.bam" "h1" 1]);
       ("out", file_arg "w" [file_entry "/s/data/02_assembly/x.fasta" "h2" 20])]))].

Definition assembly_graph : pgraph :=
  Eval vm_compute in
    match load no_file no_samefile 100 10000 assembly_store with
    | Ok st => st.1
    | Raise _ => empty_graph
    end.

(** The same assembly with two metrics steps run on its output. *)
Definition metrics_store : store :=
  assembly_store ++
  [("M1.json", Parsed (step_record "M1" "assembly_metrics" 30
      [("in", file_arg "r" [file_entry "/s/data/02_assembly/x.fasta" "h2" 20])]));
   ("M2.json", Parsed (step_record "M2" "assembly_metrics" 40
      [("in", file_arg "r" [file_entry "/s/data/02_assembly/x.fasta" "h2" 20])]))].

Definition metrics_graph : pgraph :=
  Eval vm_compute in
    match load no_file no_samefile 100 10000 metrics_store with
    | Ok st => st.1
    | Raise _ => empty_graph
    end.

(** The record that wrote [/f1] at mtime 20 is missing; an earlier run
    wrote the same content to the same path at mtime 10; step C, started
    at 25, read the file. *)
Definition repair_store : store :=
  [("A.json", Parsed (step_record "A" "a" 5
      [("out", file_arg "w" [file_entry "/f1" "h1" 10])]));
   ("C.json", Parsed (step_record "C" "c" 25
      [("in", file_arg "r" [file_entry "/f1" "h1" 20])]))].

Definition repair_built : load_state :=
  Eval vm_compute in
    match build_graph 100 10000 repair_store with
    | Ok st => st
    | Raise _ => (empty_graph, [])
    end.

Definition repair_loaded : load_state :=
  Eval vm_compute in
    match load no_file no_samefile 100 10000 repair_store with
    | Ok st => st
    | Raise _ => (empty_graph, [])
    end.




(** ** Further sample records *)

(** A record with a given exception text and nesting stack. *)
Definition step_record_with (sid cmd_name : string) (beg : Z) (exc enc : json)
  (args : dict) : json :=
  JDict [("format", JStr "1.0.0");
         ("step", JDict [("step_id", JStr sid); ("cmd_module", JStr "m");
                         ("cmd_name", JStr cmd_name);
                         ("run_info", JDict [("beg_time", JNum beg);
                                             ("exception", exc)]);
                         ("enclosing_steps", enc);
                         ("args", JDict args)])].

Definition step_of (r : json) : json :=
  match getitem r "step" with Ok s => s | Raise _ => JNull end.

(** Step B failed after it had declared the output [/f2]. *)
Definition failed_record : json :=
  step_record_with "B" "b" 15 (JStr "Traceback: ValueError") (JStr "")
    [("out", file_arg "w" [file_entry "/f2" "h2" 20])].

(** Step B ran inside step A. *)
Definition nested_record : json :=
  step_record_with "B" "b" 15 JNull (JStr "A")
    [("out", file_arg "w" [file_entry "/f2" "h2" 20])].

Definition one_step_store : store :=
  [("A.json", Parsed (step_record "A" "a" 5
      [("out", file_arg "w" [file_entry "/f1" "h1" 10])]))].

(** A file system that holds regular files only, as the set of their
    paths. *)
Definition flat_isfile (fs : list string) (p : string) : bool := bool_decide (p ∈ fs).
Definition flat_copyfile (src dst : string) (fs : list string) : result (list string) :=
  if bool_decide (src ∈ fs) then Ok (dst :: fs) else raise OSError src.
Definition flat_join (d f : string) : string :=
  String.append d (String.append "/" f).
Definition cache_env : gmap string string := {[ "VIRAL_NGS_DATA_CACHE" := "/cache" ]}.
Definition out_arg : FileArg := mkFileArg "out.fa" "w" ["out.fa"].

(** Three Comps, two of them on the same input contents. *)
Definition comp_on (h : string) (out : string) : Comp :=
  mkComp [FNode "/in" h 1; FNode out "o" 2] [FNode "/in" h 1] [FNode out "o" 2].
Definition three_comps : list Comp :=
  [comp_on "hb" "/o1"; comp_on "ha" "/o2"; comp_on "hb" "/o3"].

(** * Properties *)

(** ** The result monad *)

Lemma bind_Ok {A B} (m : result A) (f : A -> result B) (b : B) :
  m ≫= f = Ok b -> exists a, m = Ok a /\ f a = Ok b.
Proof. destruct m as [a|e]; simpl; intros H; [eauto | discriminate]. Qed.

Lemma Ok_bind {A B} (a : A) (f : A -> result B) : Ok a ≫= f = f a.
Proof. reflexivity. Qed.

Ltac inv_bind H :=
  let a := fresh "x" in
  let Ha := fresh "Hx" in
  apply bind_Ok in H; destruct H as (a & Ha & H).

(** An invariant of the state of a loop holds after the loop. *)
Lemma foldM_inv {A S} (P : S -> Prop) (f : S -> A -> result S) l :
  (forall s a s', P s -> f s a = Ok s' -> P s') ->
  forall s s', P s -> foldM f s l = Ok s' -> P s'.
Proof.
  intros Hstep. induction l as [|a l IH]; simpl; intros s s' Hs H.
  - congruence.
  - inv_bind H. eauto.
Qed.


(** ** Edges and degrees *)

Lemma pred_in_app es1 es2 v : pred_in (es1 ++ es2) v = pred_in es1 v ++ pred_in es2 v.
Proof. apply omap_app. Qed.

Lemma edge_is_true u v e : edge_is u v e = true <-> e.1.1 = u /\ e.1.2 = v.
Proof.
  unfold edge_is. rewrite andb_true_iff, !bool_decide_eq_true. tauto.
Qed.

Lemma pred_in_upd_edge_le u v a es n :
  (length (pred_in (upd_edge u v a es) n) <= length (pred_in es n) + 1)%nat.
Proof.
  induction es as [|e es IH]; simpl.
  - repeat case_bool_decide; simpl; lia.
  - destruct (edge_is u v e) eqn:E; simpl.
    + apply edge_is_true in E. destruct E as [_ E].
      repeat case_bool_decide; simpl; try lia; congruence.
    + case_bool_decide; simpl; lia.
Qed.

Lemma pred_in_upd_edge_ne u v a es n :
  n <> v -> pred_in (upd_edge u v a es) n = pred_in es n.
Proof.
  intros Hn. induction es as [|e es IH]; simpl.
  - rewrite bool_decide_eq_false_2 by congruence. done.
  - destruct (edge_is u v e) eqn:E; simpl.
    + apply edge_is_true in E. destruct E as [_ E].
      rewrite !bool_decide_eq_false_2 by congruence. done.
    + rewrite IH. done.
Qed.

Lemma pred_in_remove_le u v es n :
  (length (pred_in (filter (fun e => edge_is u v e = false) es) n)
   <= length (pred_in es n))%nat.
Proof.
  induction es as [|e es IH]; simpl; [lia|].
  rewrite filter_cons. case_decide; simpl; repeat case_bool_decide; simpl; lia.
Qed.

Lemma pred_in_remove_lt u v es a :
  edge_attrs_in es u v = Some a ->
  (length (pred_in (filter (fun e => edge_is u v e = false) es) v)
   < length (pred_in es v))%nat.
Proof.
  induction es as [|e es IH]; simpl; [discriminate|].
  rewrite filter_cons. destruct (edge_is u v e) eqn:E; intros H.
  - apply edge_is_true in E. destruct E as [_ E].
    rewrite decide_False by congruence.
    rewrite bool_decide_eq_true_2 by done. simpl.
    pose proof (pred_in_remove_le u v es v). lia.
  - rewrite decide_True by done. simpl.
    specialize (IH H). case_bool_decide; simpl; lia.
Qed.

Lemma edge_attrs_in_upd_edge_ne u v a es u' v' :
  (u, v) <> (u', v') ->
  edge_attrs_in (upd_edge u v a es) u' v' = edge_attrs_in es u' v'.
Proof.
  intros Hne. induction es as [|e es IH]; simpl.
  - destruct (edge_is u' v' (u, v, dict_update [] a)) eqn:E; [|done].
    apply edge_is_true in E. simpl in E. destruct E; congruence.
  - destruct (edge_is u v e) eqn:E; simpl.
    + apply edge_is_true in E. destruct E as [E1 E2].
      destruct (edge_is u' v' (u, v, _)) eqn:E'.
      { apply edge_is_true in E'. simpl in E'. destruct E'; congruence. }
      destruct (edge_is u' v' e) eqn:E''; [|done].
      apply edge_is_true in E''. destruct E''; congruence.
    + destruct (edge_is u' v' e); [done|apply IH].
Qed.

(** ** Nodes and their kinds *)

Lemma node_attrs_in_upd_node_ne n a l m :
  m <> n -> node_attrs_in (upd_node n a l) m = node_attrs_in l m.
Proof.
  intros Hne. induction l as [|[k b] l IH]; simpl.
  - rewrite bool_decide_eq_false_2 by congruence. done.
  - case_bool_decide as E; simpl.
    + subst k. rewrite bool_decide_eq_false_2 by congruence. done.
    + case_bool_decide; [done|apply IH].
Qed.

Lemma node_attrs_in_upd_node_eq n a l :
  node_attrs_in (upd_node n a l) n
  = Some (dict_update (default [] (node_attrs_in l n)) a).
Proof.
  induction l as [|[k b] l IH]; simpl.
  - rewrite bool_decide_eq_true_2 by done. done.
  - case_bool_decide as E; simpl.
    + rewrite bool_decide_eq_true_2 by done. done.
    + rewrite bool_decide_eq_false_2 by done. apply IH.
Qed.

Lemma upd_node_fst n a l :
  (upd_node n a l).*1
  = match node_attrs_in l n with Some _ => l.*1 | None => l.*1 ++ [n] end.
Proof.
  induction l as [|[k b] l IH]; [done|].
  cbn [upd_node node_attrs_in].
  case_bool_decide as E; [done|].
  rewrite !fmap_cons, IH. by destruct (node_attrs_in l n).
Qed.

(** A bare node, as [add_edge] would create, is no file node, and leaves the
    kinds of the other nodes alone. *)
Lemma is_fnode_add_bare n G m :
  has_node G n = false -> is_fnode (add_node n [] G) m = is_fnode G m.
Proof.
  unfold has_node, is_fnode, node_kind_is, node_attrs, add_node. simpl.
  destruct (node_attrs_in (g_nodes G) n) eqn:E; [discriminate|]. intros _.
  destruct (decide (m = n)) as [->|Hne].
  - by rewrite node_attrs_in_upd_node_eq, E.
  - by rewrite node_attrs_in_upd_node_ne.
Qed.

Lemma file_nodes_add_bare n G :
  has_node G n = false -> file_nodes (add_node n [] G) = file_nodes G.
Proof.
  intros Hn. unfold file_nodes.
  rewrite (list_filter_iff _ (fun m => is_fnode G m = true)).
  2:{ intros m. by rewrite is_fnode_add_bare. }
  simpl. rewrite upd_node_fst.
  unfold has_node, node_attrs in Hn.
  destruct (node_attrs_in (g_nodes G) n) eqn:E; [discriminate|].
  rewrite filter_app, filter_cons_False, filter_nil, app_nil_r; [done|].
  unfold is_fnode, node_kind_is, node_attrs. by rewrite E.
Qed.

Lemma file_nodes_ensure n G : file_nodes (ensure_node n G) = file_nodes G.
Proof.
  unfold ensure_node. destruct (has_node G n) eqn:E; [done|].
  by apply file_nodes_add_bare.
Qed.

Lemma is_fnode_ensure n G m : is_fnode (ensure_node n G) m = is_fnode G m.
Proof.
  unfold ensure_node. destruct (has_node G n) eqn:E; [done|].
  by apply is_fnode_add_bare.
Qed.

Lemma file_nodes_edges_irrel ns es es' :
  file_nodes (PGraph ns es) = file_nodes (PGraph ns es').
Proof. reflexivity. Qed.

Lemma file_nodes_add_edge u v a G : file_nodes (add_edge u v a G) = file_nodes G.
Proof.
  rewrite <- (file_nodes_ensure u G), <- (file_nodes_ensure v (ensure_node u G)).
  reflexivity.
Qed.

Lemma g_edges_ensure n G : g_edges (ensure_node n G) = g_edges G.
Proof. unfold ensure_node. by destruct (has_node G n). Qed.

Lemma g_edges_add_edge u v a G :
  g_edges (add_edge u v a G) = upd_edge u v a (g_edges G).
Proof. unfold add_edge. cbn [g_edges]. by rewrite !g_edges_ensure. Qed.

Lemma file_nodes_remove_edge u v G : file_nodes (remove_edge u v G) = file_nodes G.
Proof. reflexivity. Qed.


(** Moving the source of an edge never raises an in-degree. *)
Lemma in_degree_rewire f f2 s a G n :
  f2 <> f -> edge_attrs G f s = Some a ->
  (in_degree (remove_edge f s (add_edge f2 s a G)) n <= in_degree G n)%nat.
Proof.
  intros Hne He. unfold in_degree, pred, remove_edge. cbn [g_edges].
  rewrite g_edges_add_edge.
  destruct (decide (n = s)) as [->|Hn].
  - assert (He' : edge_attrs_in (upd_edge f2 s a (g_edges G)) f s = Some a).
    { rewrite edge_attrs_in_upd_edge_ne by congruence. done. }
    pose proof (pred_in_remove_lt _ _ _ _ He').
    pose proof (pred_in_upd_edge_le f2 s a (g_edges G) s). lia.
  - etrans; [apply pred_in_remove_le|].
    by rewrite pred_in_upd_edge_ne.
Qed.

(** ** The repair pass keeps the file nodes and raises no in-degree *)

Lemma repair_inv_refl G : repair_inv G G.
Proof. split; [done|]. intros; lia. Qed.

Lemma repair_inv_trans G0 G1 G2 :
  repair_inv G0 G1 -> repair_inv G1 G2 -> repair_inv G0 G2.
Proof.
  intros [H1 H2] [H3 H4]. split; [congruence|].
  intros n. specialize (H2 n). specialize (H4 n). lia.
Qed.

Section RepairInvariant.

Variable isfile : string -> bool.
Variable samefile : string -> string -> bool.

Lemma reconnect_consumer_inv f2s f G s G' :
  reconnect_consumer f2s f G s = Ok G' -> repair_inv G G'.
Proof.
  unfold reconnect_consumer. intros H. inv_bind H.
  destruct (last _) as [f2|]; [|injection H as <-; apply repair_inv_refl].
  destruct (bool_decide (f2 <> f)) eqn:E1; [|discriminate].
  apply bool_decide_eq_true in E1.
  destruct (_ && _); [|discriminate].
  destruct (edge_attrs G f s) as [a|] eqn:E2; [|discriminate].
  injection H as <-. unfold rewire. split.
  - by rewrite file_nodes_remove_edge, file_nodes_add_edge.
  - intros n. by apply in_degree_rewire.
Qed.

Lemma reconnect_file_inv idx G f G' :
  reconnect_file idx G f = Ok G' -> repair_inv G G'.
Proof.
  unfold reconnect_file. intros H.
  destruct (_ && _); [|injection H as <-; apply repair_inv_refl].
  destruct (bool_decide _); [injection H as <-; apply repair_inv_refl|].
  revert H. apply (foldM_inv (repair_inv G)); [|apply repair_inv_refl].
  intros G1 s G2 H1 H2. eapply repair_inv_trans; [exact H1|].
  eapply reconnect_consumer_inv; eauto.
Qed.

Lemma reconstruct_missing_connections_inv G G' :
  reconstruct_missing_connections isfile samefile G = Ok G' -> repair_inv G G'.
Proof.
  unfold reconstruct_missing_connections, repair_turns.
  apply (foldM_inv (repair_inv G)); [|apply repair_inv_refl].
  intros G1 s G2 H1 H2. eapply repair_inv_trans; [exact H1|].
  eapply reconnect_file_inv; eauto.
Qed.

End RepairInvariant.

(** ** In-degree of file nodes after [load] *)

Lemma load_Ok_inv isfile samefile now max_age S G log :
  load isfile samefile now max_age S = Ok (G, log) ->
  exists G0 log0,
    build_graph now max_age S = Ok (G0, log0) /\
    forallb (fun f => (in_degree G0 f <=? 1)%nat) (file_nodes G0) = true /\
    reconstruct_missing_connections isfile samefile G0 = Ok G /\
    is_directed_acyclic_graph G = true.
Proof.
  unfold load. intros H. inv_bind H. destruct x as [G0 log0].
  exists G0, log0. split; [done|].
  destruct (forallb _ _) eqn:E1; simpl in H; [|discriminate].
  inv_bind H.
  destruct (is_directed_acyclic_graph x) eqn:E2; simpl in H; [|discriminate].
  injection H as <- _. auto.
Qed.

(** C3. When [load] completes, repair pass included, every file node of the
    resulting graph has in-degree at most 1. *)
Theorem load_in_degree_le_1 isfile samefile now max_age S G log :
  load isfile samefile now max_age S = Ok (G, log) ->
  forall f, f ∈ file_nodes G -> (in_degree G f <= 1)%nat.
Proof.
  intros H f Hf.
  destruct (load_Ok_inv _ _ _ _ _ _ _ H) as (G0 & log0 & _ & Hdeg & Hrep & _).
  destruct (reconstruct_missing_connections_inv _ _ _ _ Hrep) as [Hfn Hle].
  rewrite Hfn in Hf.
  rewrite forallb_forall in Hdeg.
  apply list_elem_of_In, Hdeg, Nat.leb_le in Hf.
  specialize (Hle f). lia.
Qed.


Lemma load_in_degree_le_1_witness :
  load no_file no_samefile 100 10000 chain_store = Ok chain_loaded /\
  FNode "/f2" "h2" 20 ∈ file_nodes chain_loaded.1 /\
  (in_degree chain_loaded.1 (FNode "/f2" "h2" 20) <= 1)%nat.
Proof.
  assert (H1 : load no_file no_samefile 100 10000 chain_store
               = Ok (chain_loaded.1, chain_loaded.2)) by (vm_compute; reflexivity).
  assert (H2 : FNode "/f2" "h2" 20 ∈ file_nodes chain_loaded.1).
  { apply (bool_decide_unpack _). vm_compute. exact I. }
  split; [exact H1|]. split; [exact H2|].
  exact (load_in_degree_le_1 _ _ _ _ _ _ _ H1 _ H2).
Defined.



(** The chain of the specification: A writes f1, B reads f1 and writes f2,
    C reads f2. *)
Example chain_ancestors :
  let f1 := FNode "/f1" "h1" 10 in
  let f2 := FNode "/f2" "h2" 20 in
  ancestors chain_loaded.1 f2 = [SNode "B"; f1; SNode "A"] /\
  ancestors chain_loaded.1 f1 = [SNode "A"] /\
  length (g_nodes chain_loaded.1) = 5%nat /\
  length (g_edges chain_loaded.1) = 4%nat.
Proof. vm_compute. repeat split; reflexivity. Qed.

(** ** Validation of records during [load] *)

Section LoadRecords.

Variable now max_age_days : Z.

(** A record that fails the structural check is skipped with a warning. *)
Lemma load_file_invalid_skipped st fname step_record :
  ends_with ".json" fname = true ->
  is_valid_step_record step_record = false ->
  load_file now max_age_days st (fname, Parsed step_record)
  = Ok (st.1, st.2 ++ [String.append "not valid step: " fname]).
Proof.
  intros H1 H2. unfold load_file. rewrite H1. cbn [negb].
  rewrite Ok_bind, H2. reflexivity.
Qed.

(** A record that passes the check but has no [run_info] stops the loop:
    [step_record['step']['run_info']] is a plain subscript. *)
Lemma load_file_without_run_info st fname top step :
  ends_with ".json" fname = true ->
  is_valid_step_record (JDict top) = true ->
  dict_get "step" top = Some (JDict step) ->
  dict_get "run_info" step = None ->
  load_file now max_age_days st (fname, Parsed (JDict top))
  = Raise (Exn KeyError "run_info").
Proof.
  intros H1 H2 H3 H4. unfold load_file. rewrite H1. cbn [negb].
  rewrite Ok_bind, H2. cbn [negb getitem]. rewrite H3, Ok_bind.
  unfold run_info_field. cbn [getitem]. rewrite H4. reflexivity.
Qed.

End LoadRecords.

(** C7, at the failing input. [bare_record] has the required key set
    {format, step.args, step.step_id, step.cmd_module} and lacks only
    [run_info] (and the other optional fields); [load] does not supply a
    default for it and does not skip the record either, it raises
    KeyError. A record without [cmd_module] is skipped with a warning. *)
Theorem load_record_without_run_info_raises :
  is_valid_step_record bare_record = true /\
  load no_file no_samefile 2000 10000 [("s.json", Parsed bare_record)]
  = Raise (Exn KeyError "run_info") /\
  is_valid_step_record invalid_record = false /\
  load no_file no_samefile 2000 10000 [("s.json", Parsed invalid_record)]
  = Ok (empty_graph, ["not valid step: s.json"; "UNKNOWN_ORIGIN:"]).
Proof. vm_compute. repeat split; reflexivity. Qed.

(** ** File entries without [size] *)

Lemma dict_get_set_ne k k' v d :
  k <> k' -> dict_get k' (dict_set k v d) = dict_get k' d.
Proof.
  intros Hne. induction d as [|[k0 v0] d IH]; simpl.
  - by rewrite bool_decide_eq_false_2.
  - case_bool_decide as E; simpl.
    + subst k0. by rewrite !bool_decide_eq_false_2.
    + case_bool_decide; [done|apply IH].
Qed.

Lemma dict_get_set_eq k v d : dict_get k (dict_set k v d) = Some v.
Proof.
  induction d as [|[k0 v0] d IH]; simpl.
  - by rewrite bool_decide_eq_true_2.
  - case_bool_decide as E; simpl.
    + by rewrite bool_decide_eq_true_2.
    + by rewrite bool_decide_eq_false_2.
Qed.

(** C10. In [load], a per-file entry of a surviving record adds a file node
    and an edge only if it has the keys hash, fname, realpath and size: an
    entry without one of them leaves the graph as it is. An entry written
    when [os.stat] failed has neither size nor mtime, so it is left out
    without any error; and [stat_failed_store], the record of a successful
    step with one input file, loads to the step node alone, with no edge. *)
Theorem load_omits_entry_without_stat :
  (forall step_id arg files mdcl G f,
     dict_has_keys f file_entry_keys = false ->
     add_file_entry step_id arg files mdcl G f = Ok G) /\
  (forall hasher os_realpath os_abspath os_stat getpwuid mode out_files_exist file,
     os_stat file = None ->
     let f := file2dict hasher os_realpath os_abspath os_stat getpwuid
                mode out_files_exist file in
     dict_mem "size" f = false /\ dict_mem "mtime" f = false /\
     forall step_id arg files mdcl G,
       add_file_entry step_id arg files mdcl G (JDict f) = Ok G) /\
  (exists G log rec,
     stat_failed_store = [("run2__read_utils__sort_bam.crc32_00000000.json", Parsed rec)] /\
     (getitem rec "step" ≫= fun st => run_info_field st "exception") = Ok JNull /\
     load no_file no_samefile 2000 10000 stat_failed_store = Ok (G, log) /\
     step_nodes G = [SNode "run2__read_utils__sort_bam"] /\
     file_nodes G = [] /\ g_edges G = [] /\ log = ["UNKNOWN_ORIGIN:"]).
Proof.
  split; [|split].
  - intros step_id arg files mdcl G f H. unfold add_file_entry.
    by rewrite H.
  - intros hasher os_realpath os_abspath os_stat getpwuid mode oe file Hstat f.
    assert (Hs : dict_mem "size" f = false /\ dict_mem "mtime" f = false).
    { subst f. unfold file2dict. rewrite Hstat.
      destruct (_ || _); split; reflexivity. }
    split; [apply Hs|]. split; [apply Hs|].
    intros step_id arg files mdcl G. unfold add_file_entry.
    assert (Hk : dict_has_keys (JDict f) file_entry_keys = false).
    { unfold file_entry_keys. cbn [dict_has_keys forallb]. rewrite (proj1 Hs).
      by rewrite !andb_false_r. }
    by rewrite Hk.
  - eexists _, _, _. vm_compute. repeat split; reflexivity.
Qed.

Lemma load_omits_entry_without_stat_witness :
  dict_has_keys (JDict [("fname", JStr "/in.bam")]) file_entry_keys = false /\
  add_file_entry "s" "inBam" (file_arg "r" []) [] empty_graph
    (JDict [("fname", JStr "/in.bam")]) = Ok empty_graph /\
  stat_fails "/in.bam" = None /\
  add_file_entry "s" "inBam" (file_arg "r" []) [] empty_graph
    (JDict (file2dict sample_hasher same_path same_path stat_fails
              sample_getpwuid "r" true "/in.bam")) = Ok empty_graph.
Proof.
  assert (H1 : dict_has_keys (JDict [("fname", JStr "/in.bam")]) file_entry_keys = false)
    by reflexivity.
  assert (H2 : stat_fails "/in.bam" = None) by reflexivity.
  split; [exact H1|]. split.
  - exact (proj1 load_omits_entry_without_stat "s" "inBam" (file_arg "r" []) []
             empty_graph _ H1).
  - split; [exact H2|].
    exact (proj2 (proj2 (proj1 (proj2 load_omits_entry_without_stat)
             sample_hasher same_path same_path stat_fails sample_getpwuid
             "r" true "/in.bam" H2)) "s" "inBam" (file_arg "r" []) [] empty_graph).
Defined.

(** ** The recorder *)

Section RecorderFacts.

Variable hasher : string -> string.
Variable os_realpath os_abspath : string -> string.
Variable os_stat : string -> option stat_result.
Variable getpwuid : Z -> option string.
Variable crc32_hex : json -> string.
Variable version_info run_env argv : json.

Abbreviation run := (run_cmd_with_tracking hasher os_realpath os_abspath os_stat
                   getpwuid crc32_hex version_info run_env argv).
Abbreviation record := (record_metadata hasher os_realpath os_abspath os_stat
                      getpwuid crc32_hex version_info run_env argv).

(** The state in which the reuse index is consulted: the step id is pushed. *)
Abbreviation pushed inv w := (push_step (step_id_of inv) w).

Lemma settext_elem name c S : (name, c) ∈ settext name c S.
Proof.
  induction S as [|[n c'] S IH]; simpl.
  - left.
  - case_bool_decide; [subst n; left | right; apply IH].
Qed.

Lemma steps_running_set_env v w : steps_running (set_env STEPS_RUNNING v w) = v.
Proof. unfold steps_running, set_env. simpl. by rewrite lookup_insert_eq. Qed.

Lemma steps_running_log m w : steps_running (log_warning m w) = steps_running w.
Proof. reflexivity. Qed.

Lemma record_metadata_env inv mdcl run_id save fault r e w :
  w_env (record inv mdcl run_id save fault r e w).1 = w_env w.
Proof.
  unfold record_metadata. destruct (_ && _); [|reflexivity].
  destruct fault as [[e1|[c|] e1|e1]|]; reflexivity.
Qed.

Lemma env_log_warning m w : w_env (log_warning m w) = w_env w.
Proof. reflexivity. Qed.

(** Once the reuse check has returned, the variable holds the value read on
    entry whatever the command and the recording do. *)
Lemma run_sets_steps_running inv cmd_main fault w :
  reuse_cached_step (inv_cmd_module inv) (inv_cmd_name inv) (pushed inv w) = Ok tt ->
  w_env (run inv cmd_main fault w).2 !! STEPS_RUNNING = Some (steps_running w).
Proof.
  intros Hreuse. unfold run_cmd_with_tracking.
  rewrite Hreuse. destruct (cmd_main (pushed inv w)) as [r w1].
  destruct (classify r) as [[cmd_result cmd_exception] in_flight].
  pose proof (record_metadata_env inv (metadata_from_cmd_line inv (w_env w))
    (default (inv_new_run_id inv) (w_env w !! "VIRAL_NGS_METADATA_RUN_ID"))
    (steps_running w) fault cmd_result cmd_exception
    (set_env STEPS_RUNNING (steps_running w) w1)) as Henv.
  destruct (record _ _ _ _ _ _ _ _) as [w2 [e|]]; cbn [fst] in Henv.
  - destruct (is_Exception (exn_cls e));
      [destruct in_flight, cmd_exception|];
      cbn [snd]; rewrite ?env_log_warning, Henv;
      apply lookup_insert_eq.
  - destruct in_flight, cmd_exception;
      cbn [snd]; rewrite ?env_log_warning, Henv;
      apply lookup_insert_eq.
Qed.

(** An error of class Exception while the record is built or written does
    not change what the caller sees. *)
Lemma recording_fault_harmless inv cmd_main f w :
  is_Exception (exn_cls (fault_exn f)) = true ->
  (run inv cmd_main (Some f) w).1 = (run inv cmd_main None w).1.
Proof.
  intros He. unfold run_cmd_with_tracking.
  destruct (reuse_cached_step _ _ _); [|reflexivity].
  destruct (cmd_main _) as [r w1].
  destruct (classify r) as [[cmd_result cmd_exception] in_flight].
  unfold record_metadata. destruct (_ && _).
  - destruct f as [e|[c|] e|e]; cbn [fault_exn] in He; rewrite He;
      destruct in_flight, cmd_exception; reflexivity.
  - destruct in_flight, cmd_exception; reflexivity.
Qed.

(** A command that fails with an error of class Exception leaves a record
    with the exception text, when tracking is on and nothing fails while
    the record is written. *)
Lemma failed_command_recorded inv cmd_main e w w1 :
  reuse_cached_step (inv_cmd_module inv) (inv_cmd_name inv) (pushed inv w) = Ok tt ->
  cmd_main (pushed inv w) = (Raise e, w1) ->
  is_Exception (exn_cls e) = true ->
  is_Some (w_env w1 !! "VIRAL_NGS_METADATA_PATH") ->
  exists fname rec,
    (fname, Parsed rec) ∈ w_store (run inv cmd_main None w).2 /\
    (getitem rec "step" ≫= fun st => run_info_field st "exception")
    = Ok (JStr (format_exc e)).
Proof.
  intros Hreuse Hcmd He Hon. unfold run_cmd_with_tracking.
  rewrite Hreuse, Hcmd. unfold classify. rewrite He.
  unfold record_metadata.
  assert (Hen : is_metadata_tracking_enabled
                  (set_env STEPS_RUNNING (steps_running w) w1) = true).
  { unfold is_metadata_tracking_enabled, set_env. simpl.
    apply bool_decide_eq_true. by rewrite lookup_insert_ne. }
  rewrite Hen.
  assert (Hki : is_KeyboardInterrupt (exn_cls e) = false)
    by (destruct (exn_cls e); done).
  rewrite Hki. cbn [negb andb fmap option_fmap option_map].
  eexists _, _. split.
  - cbn [snd w_store]. apply settext_elem.
  - reflexivity.
Qed.

End RecorderFacts.

(** C2, at the failing input. With the artifact cache switched on and no
    VIRAL_NGS_METADATA_PATH, the reuse check raises KeyError outside any
    [try]: the caller gets that error, the command is never invoked and no
    warning is logged. And where the command does run and returns 7, the
    wrapper returns None. *)
Theorem reuse_check_error_reaches_caller :
  let r := sample_run cmd_marks None cache_only_world in
  r.1 = Raise (Exn KeyError "VIRAL_NGS_METADATA_PATH") /\
  w_env r.2 !! "COMMAND_RAN" = None /\
  w_log r.2 = [] /\
  cmd_marks tracking_world
  = (Ok (JNum 7), set_env "COMMAND_RAN" "1" tracking_world) /\
  (sample_run cmd_marks None tracking_world).1 = Ok JNull.
Proof. vm_compute. repeat split; reflexivity. Qed.

(** C9, at the failing input. On the same input the step id pushed on the
    stack of running steps is still there when the wrapper is left. *)
Theorem steps_running_not_restored :
  let r := sample_run cmd_marks None cache_only_world in
  steps_running cache_only_world = "" /\
  r.1 = Raise (Exn KeyError "VIRAL_NGS_METADATA_PATH") /\
  steps_running r.2 = "run2__read_utils__sort_bam".
Proof. vm_compute. repeat split; reflexivity. Qed.

(** C6, at the failing input. KeyboardInterrupt is not an Exception, so
    [except Exception] leaves [cmd_exception] at None and the test that
    should skip the recording never fires: the interrupted run is recorded,
    as a run without exception. A ValueError is recorded with its text. *)
Theorem keyboard_interrupt_is_recorded :
  let r := sample_run (cmd_raises KeyboardInterrupt) None tracking_world in
  r.1 = Raise (Exn KeyboardInterrupt "Traceback") /\
  map fst (w_store r.2) = ["run2__read_utils__sort_bam.crc32_00000000.json"] /\
  recorded_exceptions (w_store r.2) = [Ok JNull] /\
  recorded_exceptions
    (w_store (sample_run (cmd_raises ValueError) None tracking_world).2)
  = [Ok (JStr "Traceback")].
Proof. vm_compute. repeat split; reflexivity. Qed.

(** ** Sorting *)

Section Sorting.

Context {A : Type} (key : A -> Z).

Lemma elem_of_insert_asc x l y : y ∈ insert_asc key x l <-> y = x \/ y ∈ l.
Proof.
  induction l as [|z l IH]; simpl.
  - rewrite list_elem_of_singleton, elem_of_nil. tauto.
  - destruct (key x <=? key z).
    + rewrite !elem_of_cons. tauto.
    + rewrite !elem_of_cons, IH. tauto.
Qed.

Lemma elem_of_sorted_asc l y : y ∈ sorted_asc key l <-> y ∈ l.
Proof.
  induction l as [|z l IH]; simpl; [done|].
  rewrite elem_of_insert_asc, elem_of_cons, IH. tauto.
Qed.

Lemma insert_asc_sorted x l :
  StronglySorted (asc key) l -> StronglySorted (asc key) (insert_asc key x l).
Proof.
  induction l as [|z l IH]; simpl; intros Hs.
  - repeat constructor.
  - apply StronglySorted_cons in Hs as [Hz Hl].
    destruct (key x <=? key z) eqn:E.
    + apply Z.leb_le in E. constructor; [by constructor|].
      constructor; [done|].
      eapply Forall_impl; [exact Hz|]. unfold asc. intros; lia.
    + apply Z.leb_gt in E. constructor; [auto|].
      apply Forall_forall. intros y Hy.
      apply elem_of_insert_asc in Hy as [->|Hy].
      * unfold asc; lia.
      * rewrite Forall_forall in Hz. by apply Hz.
Qed.

Lemma sorted_asc_sorted l : StronglySorted (asc key) (sorted_asc key l).
Proof.
  induction l as [|z l IH]; simpl; [constructor|].
  by apply insert_asc_sorted.
Qed.


(** The last element of an ascending list is a greatest one. *)
Lemma last_sorted_max l x :
  StronglySorted (asc key) l -> last l = Some x ->
  x ∈ l /\ forall y, y ∈ l -> key y <= key x.
Proof.
  intros Hs Hl. apply last_Some in Hl as [l' ->]. split.
  - apply elem_of_app. right. left.
  - intros y Hy. apply elem_of_app in Hy as [Hy|Hy].
    + eapply (StronglySorted_app_1_elem_of (asc key)); [exact Hs|exact Hy|left].
    + apply list_elem_of_singleton in Hy as ->. lia.
Qed.

Lemma elem_of_insert_desc x l y : y ∈ insert_desc key x l <-> y = x \/ y ∈ l.
Proof.
  induction l as [|z l IH]; simpl.
  - rewrite list_elem_of_singleton, elem_of_nil. tauto.
  - destruct (key z <=? key x).
    + rewrite !elem_of_cons. tauto.
    + rewrite !elem_of_cons, IH. tauto.
Qed.

Lemma elem_of_sorted_desc l y : y ∈ sorted_desc key l <-> y ∈ l.
Proof.
  induction l as [|z l IH]; simpl; [done|].
  rewrite elem_of_insert_desc, elem_of_cons, IH. tauto.
Qed.

Lemma insert_desc_sorted x l :
  StronglySorted (desc key) l -> StronglySorted (desc key) (insert_desc key x l).
Proof.
  induction l as [|z l IH]; simpl; intros Hs.
  - repeat constructor.
  - apply StronglySorted_cons in Hs as [Hz Hl].
    destruct (key z <=? key x) eqn:E.
    + apply Z.leb_le in E. constructor; [by constructor|].
      constructor; [done|].
      eapply Forall_impl; [exact Hz|]. unfold desc. intros; lia.
    + apply Z.leb_gt in E. constructor; [auto|].
      apply Forall_forall. intros y Hy.
      apply elem_of_insert_desc in Hy as [->|Hy].
      * unfold desc; lia.
      * rewrite Forall_forall in Hz. by apply Hz.
Qed.

(** The first element of a descending sort is a greatest one. *)
Lemma head_sorted_desc_max l x r :
  sorted_desc key l = x :: r ->
  x ∈ l /\ forall y, y ∈ l -> key y <= key x.
Proof.
  intros E.
  assert (Hs : StronglySorted (desc key) (sorted_desc key l)).
  { clear. induction l as [|z l IH]; simpl; [constructor|].
    by apply insert_desc_sorted. }
  split.
  - apply elem_of_sorted_desc. rewrite E. left.
  - intros y Hy. apply elem_of_sorted_desc in Hy. rewrite E in Hy, Hs.
    apply StronglySorted_cons in Hs as [Hx _].
    apply elem_of_cons in Hy as [->|Hy]; [lia|].
    rewrite Forall_forall in Hx. by apply Hx.
Qed.

End Sorting.

(** ** The point query *)

(** C4, at the failing input. The file on disk has the identity
    (/f1, h1, 10); the graph holds (/f1, h1, 20), written by step A. The
    point query takes that node as the substitute although its mtime is
    later, not earlier, and prints A's record; the load-time heuristic has
    no candidate for the same file. *)
Theorem point_query_accepts_later_mtime :
  let f := FNode "/f1" "h1" 10 in
  let f2 := FNode "/f1" "h1" 20 in
  let G := add_node f [("node_kind", JStr "file")] later_graph in
  has_node later_graph f = false /\
  reconstruct_fnode_maker no_file no_samefile G f = Ok (Some f2) /\
  node_mtime f < node_mtime f2 /\
  candidates (compute_hash_and_realpath_indices no_file no_samefile G) f = [] /\
  print_provenance no_file no_samefile hash_h1 same_path (stat_at 10)
    later_graph "/f1" = Ok [JStr "A.json"].
Proof. vm_compute. repeat split; reflexivity. Qed.

(** ** Extraction of Comps *)

Lemma filterM_Ok {A} (p : A -> result bool) l r :
  filterM p l = Ok r ->
  (forall a, a ∈ l -> exists b, p a = Ok b) /\
  (forall a, a ∈ r <-> a ∈ l /\ p a = Ok true).
Proof.
  revert r. induction l as [|a l IH]; simpl; intros r H.
  - injection H as <-. split; intros a; rewrite ?elem_of_nil; tauto.
  - inv_bind H. inv_bind H. injection H as <-.
    destruct (IH _ Hx0) as [IH1 IH2]. split.
    + intros a' Ha. apply elem_of_cons in Ha as [->|Ha]; eauto.
    + intros a'. destruct x.
      * rewrite !elem_of_cons, IH2. split; [|tauto].
        intros [->|[? ?]]; auto.
      * rewrite elem_of_cons, IH2. split; [tauto|].
        intros [[->|?] Hp]; [congruence|tauto].
Qed.

Lemma mapM_Ok {A B} (f : A -> result B) l r :
  mapM f l = Ok r -> Forall2 (fun a b => f a = Ok b) l r.
Proof.
  revert r. induction l as [|a l IH]; simpl; intros r H.
  - injection H as <-. constructor.
  - inv_bind H. inv_bind H. injection H as <-. constructor; auto.
Qed.

Lemma mapM_keyed_elem {A} (f : A -> result Z) l r :
  mapM (fun s => b ← f s; Ok (s, b)) l = Ok r ->
  (forall s t, (s, t) ∈ r -> s ∈ l /\ f s = Ok t) /\
  (forall s, s ∈ l -> exists t, (s, t) ∈ r).
Proof.
  intros H. apply mapM_Ok in H.
  induction H as [|a [s' t'] l r Ha H IH].
  - split; intros ?; rewrite ?elem_of_nil; try tauto. intros ?. by rewrite elem_of_nil.
  - inv_bind Ha. injection Ha as <- <-. destruct IH as [IH1 IH2]. split.
    + intros s t Hst. apply elem_of_cons in Hst as [E|Hst].
      * injection E as -> ->. split; [left|done].
      * destruct (IH1 _ _ Hst). split; [by right|done].
    + intros s Hs. apply elem_of_cons in Hs as [->|Hs].
      * exists x. left.
      * destruct (IH2 _ Hs) as [t Ht]. exists t. by right.
Qed.

Lemma json_is_str_true j s : json_is_str j s = true <-> j = JStr s.
Proof.
  destruct j; simpl; try (split; [discriminate|congruence]).
  rewrite bool_decide_eq_true. split; congruence.
Qed.

(** One turn of the extractor: what it adds for the output node. *)
Lemma extract_comp_for_cases G comps end_node comps' :
  extract_comp_for G (beg_nodes_of G) comps end_node = Ok comps' ->
  exists cs, comps' = comps ++ cs /\ comps_of_output G end_node cs.
Proof.
  unfold extract_comp_for, comps_of_output, inputs_in_closure.
  fold (closure G end_node). intros H. cbv zeta in H.
  set (beg := filter (fun f => f ∈ closure G end_node) (beg_nodes_of G)) in *.
  case_bool_decide as Hbeg.
  { injection H as <-. exists []. rewrite app_nil_r. split; [done|]. by left. }
  case_bool_decide as Hlen; cbn [negb] in H; [|discriminate].
  destruct beg as [|b [|b' beg']] eqn:Eb; try done. clear Hbeg Hlen.
  inv_bind H. rename x into fam.
  apply filterM_Ok in Hx as [Hall Hfam].
  assert (Hmet : forall s, s ∈ fam <-> s ∈ succ G end_node /\ is_metrics_step G s).
  { intros s. rewrite Hfam. unfold is_metrics_step. split.
    - intros [Hs Hn]. split; [done|]. inv_bind Hn. injection Hn as Hn.
      apply json_is_str_true in Hn. by subst.
    - intros [Hs Hn]. split; [done|]. rewrite Hn. reflexivity. }
  case_bool_decide as Hfam0.
  { injection H as <-. exists []. rewrite app_nil_r. split; [done|].
    right. exists b. split; [done|]. left. split; [|done].
    intros s Hs Hn. assert (Hin : s ∈ fam) by (apply Hmet; auto).
    rewrite Hfam0 in Hin. by apply elem_of_nil in Hin. }
  inv_bind H. rename x into keyed.
  apply mapM_keyed_elem in Hx as [Hk1 Hk2].
  destruct (sorted_desc snd keyed) as [|[s0 t0] rest] eqn:Hsort.
  { exfalso. destruct fam as [|s fam]; [done|].
    destruct (Hk2 s) as [t Ht]; [left|].
    apply (elem_of_sorted_desc snd) in Ht. rewrite Hsort in Ht.
    by apply elem_of_nil in Ht. }
  injection H as <-. eexists. split; [reflexivity|].
  right. exists b. split; [done|]. right.
  apply head_sorted_desc_max in Hsort as [Hin Hmax].
  destruct (Hk1 _ _ Hin) as [Hs0 Ht0]. apply Hmet in Hs0 as [Hs0 Hn0].
  exists s0, t0. repeat split; auto.
  intros s t Hs Hn Ht.
  assert (Hin' : s ∈ fam) by (apply Hmet; auto).
  destruct (Hk2 _ Hin') as [t' Ht']. pose proof (Hmax _ Ht') as Hle.
  destruct (Hk1 _ _ Ht') as [_ Ht'']. simpl in Hle. congruence.
Qed.

(** The loop over the output nodes: each turn appends what it makes of its
    node. *)
Lemma extract_comps_fold G l :
  forall comps comps',
    foldM (extract_comp_for G (beg_nodes_of G)) comps l = Ok comps' ->
    exists per, comps' = comps ++ mjoin per /\ Forall2 (comps_of_output G) l per.
Proof.
  induction l as [|e l IH]; intros comps comps' H.
  - injection H as <-. exists []. rewrite app_nil_r. split; [done|constructor].
  - cbn [foldM] in H. inv_bind H.
    apply extract_comp_for_cases in Hx as (cs & -> & Hcs).
    apply IH in H as (per & -> & Hper).
    exists (cs :: per). split; [|by constructor].
    by rewrite <- app_assoc.
Qed.

(** C8 as amended. [extract_comps_assembly] returns, in the order of the
    file nodes that match the output pattern, what it makes of each of
    them: a Comp is formed for such a node if and only if its closure (the
    node and its ancestors) holds exactly one file node matching the input
    pattern and some step that reads the node directly is a metrics step;
    the Comp then has that input as its main input, the node as its main
    output, and as nodes the closure plus a metrics step reading the node
    with the latest start time. A node whose closure holds no input node,
    or that no metrics step reads, gets no Comp; and when the extractor
    returns, no closure holds more than one input node. *)
Theorem extract_comps_assembly_spec G comps :
  extract_comps_assembly G = Ok comps ->
  (exists per,
     comps = mjoin per /\
     Forall2 (comps_of_output G) (end_nodes_of G) per) /\
  (forall e, e ∈ end_nodes_of G -> (length (inputs_in_closure G e) <= 1)%nat).
Proof.
  intros H.
  assert (Hper : exists per, comps = mjoin per /\
                   Forall2 (comps_of_output G) (end_nodes_of G) per).
  { apply extract_comps_fold in H as (per & -> & Hper). by exists per. }
  split; [exact Hper|].
  destruct Hper as (per & _ & Hper). intros e He.
  apply list_elem_of_lookup in He as [i Hi].
  destruct (Forall2_lookup_l _ _ _ _ _ Hper Hi) as (cs & _ & Hcs).
  destruct Hcs as [[-> _]|(b & -> & _)]; cbn; lia.
Qed.

(** More than one input node in the closure stops the extraction. *)
Lemma extract_comp_for_two_inputs G beg_nodes comps end_node b1 b2 rest :
  filter (fun f => f ∈ closure G end_node) beg_nodes = b1 :: b2 :: rest ->
  extract_comp_for G beg_nodes comps end_node = Raise (Exn AssertionError "").
Proof.
  intros H. unfold extract_comp_for. fold (closure G end_node). rewrite H.
  reflexivity.
Qed.

(** C8, the claim as stated fails. The closure of the assembly output of
    [assembly_graph] holds exactly one input node, and no Comp is formed,
    because no metrics step reads the output. *)
Lemma extract_without_metrics_counterexample :
  let out := FNode "/s/data/02_assembly/x.fasta" "h2" 20 in
  let raw := FNode "/s/data/00_raw/x.bam" "h1" 1 in
  filter (fun f => fnmatch (node_realpath f) "*/data/02_assembly/*.fasta" = true)
         (file_nodes assembly_graph) = [out] /\
  filter (fun f => fnmatch (node_realpath f) "*/data/00_raw/*.bam" = true)
         (closure assembly_graph out) = [raw] /\
  succ assembly_graph out = [] /\
  extract_comps_assembly assembly_graph = Ok [].
Proof. vm_compute. repeat split; reflexivity. Qed.

Lemma extract_comps_assembly_spec_witness :
  let G := metrics_graph in
  let out := FNode "/s/data/02_assembly/x.fasta" "h2" 20 in
  let raw := FNode "/s/data/00_raw/x.bam" "h1" 1 in
  let comps := [mkComp [SNode "A"; raw; out; SNode "M2"] [raw] [out]] in
  extract_comps_assembly G = Ok comps /\
  (exists per,
     comps = mjoin per /\
     Forall2 (comps_of_output G) (end_nodes_of G) per) /\
  (forall e, e ∈ end_nodes_of G -> (length (inputs_in_closure G e) <= 1)%nat).
Proof.
  intros G out raw comps.
  assert (H : extract_comps_assembly G = Ok comps) by (vm_compute; reflexivity).
  split; [exact H|].
  exact (extract_comps_assembly_spec G comps H).
Defined.

(** ** The hash and realpath indices *)

Lemma elem_of_idx_add k' n' idx k n :
  n ∈ idx_get k (idx_add k' n' idx) <-> (k = k' /\ n = n') \/ n ∈ idx_get k idx.
Proof.
  induction idx as [|[k0 ns] idx IH]; simpl.
  - case_bool_decide; rewrite ?list_elem_of_singleton, ?elem_of_nil;
      intuition congruence.
  - case_bool_decide as E0; simpl.
    + subst k0. case_bool_decide as E1.
      * subst k'. case_bool_decide as E2.
        -- intuition (subst; auto).
        -- rewrite elem_of_app, list_elem_of_singleton. intuition (subst; auto).
      * intuition congruence.
    + case_bool_decide as E1; [intuition congruence|]. rewrite IH. tauto.
Qed.

(** Membership after a loop whose turns only add entries. *)
Lemma elem_of_idx_foldl {X} (step : index -> X -> index)
  (Q : X -> string -> node -> Prop) :
  (forall idx x k n, n ∈ idx_get k (step idx x) <-> n ∈ idx_get k idx \/ Q x k n) ->
  forall l idx k n,
    n ∈ idx_get k (foldl step idx l)
    <-> n ∈ idx_get k idx \/ exists x, x ∈ l /\ Q x k n.
Proof.
  intros Hstep. induction l as [|x l IH]; simpl; intros idx k n.
  - split; [auto|]. intros [?|(x & Hx & _)]; [done|]. by apply elem_of_nil in Hx.
  - rewrite IH, Hstep. split.
    + intros [[?|?]|(y & ? & ?)]; [auto| |].
      * right. exists x. split; [left|done].
      * right. exists y. split; [by right|done].
    + intros [?|(y & Hy & ?)]; [auto|].
      apply elem_of_cons in Hy as [->|Hy]; [auto|]. right. eauto.
Qed.

Lemma elem_of_idx_by_key (kf : node -> string) l k n :
  n ∈ idx_get k (foldl (fun idx f => idx_add (kf f) f idx) [] l)
  <-> n ∈ l /\ kf n = k.
Proof.
  rewrite (elem_of_idx_foldl _ (fun f k n => k = kf f /\ n = f)).
  - simpl. rewrite elem_of_nil. split.
    + intros [[]|(x & Hx & -> & ->)]. auto.
    + intros [Hn <-]. right. exists n. auto.
  - intros. rewrite elem_of_idx_add. tauto.
Qed.

(** The entries of an index, as the loop over [hash2files.items()] sees
    them. *)
Lemma idx_entry_of_get k idx n :
  n ∈ idx_get k idx -> (k, idx_get k idx) ∈ idx.
Proof.
  induction idx as [|[k0 ns] idx IH]; simpl.
  - intros H. by apply elem_of_nil in H.
  - case_bool_decide as E; [subst k0; left|]. intros H. right. auto.
Qed.

Lemma idx_add_entry k' n' idx k ns n :
  (k, ns) ∈ idx_add k' n' idx -> n ∈ ns ->
  (k = k' /\ n = n') \/ exists ns0, (k, ns0) ∈ idx /\ n ∈ ns0.
Proof.
  induction idx as [|[k0 ns0] idx IH]; simpl.
  - rewrite list_elem_of_singleton. intros [= -> ->].
    rewrite list_elem_of_singleton. auto.
  - case_bool_decide as E.
    + subst k0. rewrite elem_of_cons. intros [[= -> ->]|Hin] Hn.
      * case_bool_decide.
        -- right. exists ns0. split; [left|done].
        -- apply elem_of_app in Hn as [Hn|Hn].
           ++ right. exists ns0. split; [left|done].
           ++ apply list_elem_of_singleton in Hn. auto.
      * right. exists ns. split; [by right|done].
    + rewrite elem_of_cons. intros [[= -> ->]|Hin] Hn.
      * right. exists ns0. split; [left|done].
      * destruct (IH Hin Hn) as [?|(ns1 & ? & ?)]; [auto|].
        right. exists ns1. split; [by right|done].
Qed.

Lemma idx_by_key_entry (kf : node -> string) l k ns n :
  (k, ns) ∈ foldl (fun idx f => idx_add (kf f) f idx) [] l -> n ∈ ns ->
  n ∈ l /\ kf n = k.
Proof.
  assert (Hgen : forall idx0,
    (k, ns) ∈ foldl (fun idx f => idx_add (kf f) f idx) idx0 l -> n ∈ ns ->
    (n ∈ l /\ kf n = k) \/ exists ns0, (k, ns0) ∈ idx0 /\ n ∈ ns0).
  { induction l as [|f l IH]; simpl; intros idx0 H Hn; [eauto|].
    destruct (IH _ H Hn) as [[? ?]|(ns0 & H0 & Hn0)].
    - left. split; [by right|done].
    - destruct (idx_add_entry _ _ _ _ _ _ H0 Hn0) as [[-> ->]|?]; [|auto].
      left. split; [left|done]. }
  intros H Hn. destruct (Hgen [] H Hn) as [?|(ns0 & H0 & _)]; [done|].
  by apply elem_of_nil in H0.
Qed.

Lemma two_elems_length {A} (l : list A) a b :
  a ∈ l -> b ∈ l -> a <> b -> (1 < length l)%nat.
Proof.
  destruct l as [|x [|y l]]; simpl; intros Ha Hb Hne; [| |lia].
  - by apply elem_of_nil in Ha.
  - apply list_elem_of_singleton in Ha, Hb. congruence.
Qed.

Section Indices.

Variable isfile : string -> bool.
Variable samefile : string -> string -> bool.

Abbreviation suf := (same_underlying_file isfile samefile).
Abbreviation indices := (compute_hash_and_realpath_indices isfile samefile).

Lemma suf_realpath a a' b b' :
  node_realpath a = node_realpath a' -> node_realpath b = node_realpath b' ->
  suf a b = suf a' b'.
Proof. unfold same_underlying_file. by intros -> ->. Qed.

Lemma suf_ne a b : suf a b = true -> a <> b.
Proof.
  unfold same_underlying_file. intros H ->.
  rewrite bool_decide_eq_true_2 in H by done. discriminate.
Qed.

Lemma elem_of_hash_index G k n :
  n ∈ idx_get k (indices G).1 <-> n ∈ file_nodes G /\ node_hash n = k.
Proof. apply elem_of_idx_by_key. Qed.

Lemma elem_of_realpath_index G k n :
  n ∈ idx_get k (indices G).2
  <-> (n ∈ file_nodes G /\ node_realpath n = k) \/
      exists hfs f1 f2,
        hfs ∈ (indices G).1 /\ (1 < length hfs.2)%nat /\
        f1 ∈ hfs.2 /\ f2 ∈ hfs.2 /\ linked isfile samefile f1 f2 k n.
Proof.
  unfold compute_hash_and_realpath_indices. cbn [fst snd].
  rewrite (elem_of_idx_foldl _
    (fun hfs k n => (1 < length hfs.2)%nat /\
       exists f1, f1 ∈ hfs.2 /\ exists f2, f2 ∈ hfs.2 /\ linked isfile samefile f1 f2 k n)).
  - rewrite elem_of_idx_by_key. split.
    + intros [?|(hfs & ? & ? & f1 & ? & f2 & ? & ?)]; [auto|].
      right. exists hfs, f1, f2. auto.
    + intros [?|(hfs & f1 & f2 & ? & ? & ? & ? & ?)]; [auto|].
      right. exists hfs. eauto 10.
  - intros idx hfs k' n'. destruct (1 <? length hfs.2)%nat eqn:E.
    + apply Nat.ltb_lt in E.
      rewrite (elem_of_idx_foldl _
        (fun f1 k n => exists f2, f2 ∈ hfs.2 /\ linked isfile samefile f1 f2 k n)).
      * split; [|tauto]. intros [?|?]; auto.
      * intros idx1 f1 k1 n1.
        rewrite (elem_of_idx_foldl _ (fun f2 k n => linked isfile samefile f1 f2 k n)); [done|].
        intros idx2 f2 k2 n2. unfold linked.
        destruct (suf f1 f2); [|intuition congruence].
        rewrite !elem_of_idx_add. tauto.
    + apply Nat.ltb_ge in E. split; [auto|]. intros [?|[? _]]; [done|lia].
Qed.

(** The nodes that share both the hash and the place of a file node. *)
Lemma elem_of_same_hash_and_path G f c :
  f ∈ file_nodes G ->
  c ∈ same_hash_and_path (indices G) f
  <-> c ∈ file_nodes G /\ node_hash c = node_hash f /\
      same_path_class isfile samefile f c.
Proof.
  intros Hf. unfold same_hash_and_path.
  rewrite list_elem_of_filter, elem_of_hash_index, elem_of_realpath_index.
  unfold same_path_class. split.
  - intros [Hp [Hc Hh]]. split; [done|]. split; [done|].
    destruct Hp as [[_ ?]|(hfs & f1 & f2 & _ & _ & _ & _ & Hs & Hl)]; [auto|].
    right. destruct Hl as [[Hk ->]|[Hk ->]].
    + right. rewrite <- Hs. by apply suf_realpath.
    + left. rewrite <- Hs. by apply suf_realpath.
  - intros (Hc & Hh & Hp). split; [|done].
    destruct Hp as [?|Hp]; [auto|]. right.
    assert (Hfb : f ∈ idx_get (node_hash f) (indices G).1)
      by (by apply elem_of_hash_index).
    assert (Hcb : c ∈ idx_get (node_hash f) (indices G).1)
      by (by apply elem_of_hash_index).
    exists (node_hash f, idx_get (node_hash f) (indices G).1).
    destruct Hp as [Hs|Hs].
    + exists f, c. cbn [snd]. split; [by eapply idx_entry_of_get|].
      split; [apply (two_elems_length _ f c); auto using suf_ne|].
      unfold linked. repeat split; auto.
    + exists c, f. cbn [snd]. split; [by eapply idx_entry_of_get|].
      split; [apply (two_elems_length _ c f); auto using suf_ne|].
      unfold linked. repeat split; auto.
Qed.

(** The candidate producers of an orphan. *)
Lemma elem_of_candidates G f c :
  f ∈ file_nodes G ->
  c ∈ candidates (indices G) f
  <-> c ∈ file_nodes G /\ node_hash c = node_hash f /\
      same_path_class isfile samefile f c /\
      c <> f /\ node_mtime c < node_mtime f.
Proof.
  intros Hf. unfold candidates.
  rewrite list_elem_of_filter, elem_of_same_hash_and_path by done. tauto.
Qed.

End Indices.

(** ** Well-formed edge lists *)




Lemma dict_get_update_notin k d a :
  k ∉ a.*1 -> dict_get k (dict_update d a) = dict_get k d.
Proof.
  unfold dict_update. revert d. induction a as [|[k0 v0] a IH]; simpl; [done|].
  intros d Hk. rewrite not_elem_of_cons in Hk. destruct Hk as [Hne Hk].
  rewrite IH by done. cbn [fst snd]. by apply dict_get_set_ne.
Qed.



Lemma edge_attrs_in_elem u v a es :
  edge_attrs_in es u v = Some a -> (u, v, a) ∈ es.
Proof.
  induction es as [|[[u0 v0] a0] es IH]; simpl; [done|].
  destruct (edge_is u v (u0, v0, a0)) eqn:E.
  - apply edge_is_true in E as [E1 E2]. simpl in E1, E2. subst.
    intros [= ->]. left.
  - intros H. right. auto.
Qed.





Lemma ensure_node_wf n G : graph_wf G -> graph_wf (ensure_node n G).
Proof. unfold graph_wf. by rewrite g_edges_ensure. Qed.





(** ** Graphs built by [load] are well formed *)

Lemma foldl_inv {A S} (P : S -> Prop) (f : S -> A -> S) l :
  (forall s a, P s -> P (f s a)) -> forall s, P s -> P (foldl f s l).
Proof. intros Hf. induction l as [|a l IH]; simpl; auto. Qed.





Section RepairWf.

Variable isfile : string -> bool.
Variable samefile : string -> string -> bool.



End RepairWf.

(** ** Edges after one rewiring *)

Lemma edge_attrs_in_upd_edge_eq u v a es :
  edge_attrs_in (upd_edge u v a es) u v
  = Some (dict_update (default [] (edge_attrs_in es u v)) a).
Proof.
  assert (Hself : forall d, edge_is u v (u, v, d) = true).
  { intros d. apply edge_is_true. done. }
  induction es as [|e es IH]; simpl.
  - by rewrite Hself.
  - destruct (edge_is u v e) eqn:E; simpl.
    + by rewrite Hself.
    + by rewrite E.
Qed.












(** ** The turn of one orphan in the repair pass *)






Section OrphanTurn.

Variable isfile : string -> bool.
Variable samefile : string -> string -> bool.

Abbreviation indices' := (compute_hash_and_realpath_indices isfile samefile).


End OrphanTurn.

(** The repair of the spec's test: the consumer of the orphan is
    reconnected to the earlier node, the edge keeps its attributes. *)
Example repair_reconnects_consumer :
  load no_file no_samefile 100 10000 repair_store = Ok repair_loaded /\
  g_edges repair_built.1
  = [(SNode "A", FNode "/f1" "h1" 10, [("arg", JStr "out")]);
     (FNode "/f1" "h1" 20, SNode "C", [("arg", JStr "in")])] /\
  g_edges repair_loaded.1
  = [(SNode "A", FNode "/f1" "h1" 10, [("arg", JStr "out")]);
     (FNode "/f1" "h1" 10, SNode "C", [("arg", JStr "in")])].
Proof. vm_compute. repeat split; reflexivity. Qed.



(** ** The shape of a loaded graph *)

Lemma dict_mem_set k k' v d :
  dict_mem k (dict_set k' v d) = bool_decide (k' = k) || dict_mem k d.
Proof.
  unfold dict_mem. destruct (decide (k' = k)) as [->|Hne].
  - by rewrite dict_get_set_eq, bool_decide_eq_true_2.
  - by rewrite dict_get_set_ne, bool_decide_eq_false_2.
Qed.

Lemma dict_mem_update k d a :
  dict_mem k d = true -> dict_mem k (dict_update d a) = true.
Proof.
  unfold dict_update. revert d. induction a as [|[k0 v0] a IH]; simpl; [done|].
  intros d Hd. apply IH. rewrite dict_mem_set, Hd. apply orb_true_r.
Qed.

Lemma dict_mem_update_new k v d a :
  dict_mem k (dict_update d ((k, v) :: a)) = true.
Proof.
  unfold dict_update. simpl. apply (dict_mem_update k _ a).
  rewrite dict_mem_set. by rewrite bool_decide_eq_true_2.
Qed.

Lemma dict_mem_false k d : dict_mem k d = false -> k ∉ d.*1.
Proof.
  unfold dict_mem. induction d as [|[k0 v0] d IH].
  - intros _. apply not_elem_of_nil.
  - cbn [dict_get]. case_bool_decide as E; [discriminate|]. intros H.
    rewrite fmap_cons. cbn [fst]. apply not_elem_of_cons. split; [congruence|auto].
Qed.

Lemma has_node_add_node n a G m :
  has_node G m = true -> has_node (add_node n a G) m = true.
Proof.
  unfold has_node, node_attrs, add_node. cbn [g_nodes].
  destruct (decide (m = n)) as [->|Hne].
  - by rewrite node_attrs_in_upd_node_eq.
  - by rewrite node_attrs_in_upd_node_ne.
Qed.

Lemma has_node_add_node_self n a G : has_node (add_node n a G) n = true.
Proof.
  unfold has_node, node_attrs, add_node. cbn [g_nodes].
  by rewrite node_attrs_in_upd_node_eq.
Qed.

Lemma has_node_ensure n G m :
  has_node G m = true -> has_node (ensure_node n G) m = true.
Proof.
  unfold ensure_node. destruct (has_node G n); [done|]. apply has_node_add_node.
Qed.

Lemma has_node_ensure_self n G : has_node (ensure_node n G) n = true.
Proof.
  unfold ensure_node. destruct (has_node G n) eqn:E; [done|].
  apply has_node_add_node_self.
Qed.

Lemma is_fnode_add_node_ne n a G m :
  m <> n -> is_fnode (add_node n a G) m = is_fnode G m.
Proof.
  intros Hne. unfold is_fnode, node_kind_is, node_attrs, add_node. cbn [g_nodes].
  by rewrite node_attrs_in_upd_node_ne.
Qed.

Lemma elem_of_upd_edge u v a es e :
  e ∈ upd_edge u v a es ->
  e ∈ es \/ (edge_attrs_in es u v = None /\ e = (u, v, dict_update [] a)) \/
  exists a0, (u, v, a0) ∈ es /\ e = (u, v, dict_update a0 a).
Proof.
  induction es as [|e0 es IH]; simpl.
  - rewrite list_elem_of_singleton. auto.
  - destruct (edge_is u v e0) eqn:E.
    + apply edge_is_true in E as [E1 E2]. destruct e0 as [[u0 v0] a0].
      simpl in *. subst. rewrite elem_of_cons. intros [->|He].
      * right. right. exists a0. split; [left|done].
      * left. by right.
    + rewrite elem_of_cons. intros [->|He]; [left; left|].
      destruct (IH He) as [?|[?|(a0 & ? & ?)]].
      * left. by right.
      * auto.
      * right. right. exists a0. split; [by right|done].
Qed.

(** Adding or updating an edge between a file and a step, with [arg] among
    the new attributes or on the edge already. *)
Lemma graph_ok_upd_edge ns es u v a :
  graph_ok (PGraph ns es) ->
  xorb (is_file_tuple u) (is_file_tuple v) = true ->
  has_node (PGraph ns es) u = true -> has_node (PGraph ns es) v = true ->
  (edge_attrs_in es u v = None -> dict_mem "arg" (dict_update [] a) = true) ->
  graph_ok (PGraph ns (upd_edge u v a es)).
Proof.
  intros (He & Hk & Hc) Hx Hu Hv Harg. split; [|split].
  - apply Forall_forall. intros e Hin. cbn [g_edges] in Hin.
    rewrite Forall_forall in He.
    apply elem_of_upd_edge in Hin as [Hin|[[Hnone ->]|(a0 & Hin & ->)]].
    + by apply He.
    + split; [done|auto].
    + split; [done|]. apply dict_mem_update. by apply (He _ Hin).
  - exact Hk.
  - intros e Hin. cbn [g_edges] in Hin.
    apply elem_of_upd_edge in Hin as [Hin|[[_ ->]|(a0 & Hin & ->)]].
    + exact (Hc _ Hin).
    + split; [exact Hu|exact Hv].
    + split; [exact Hu|exact Hv].
Qed.

Lemma graph_ok_ensure n G : graph_ok G -> graph_ok (ensure_node n G).
Proof.
  intros (He & Hk & Hc). split; [|split].
  - by rewrite g_edges_ensure.
  - intros m. rewrite is_fnode_ensure. apply Hk.
  - intros e. rewrite g_edges_ensure. intros Hin.
    destruct (Hc _ Hin). split; by apply has_node_ensure.
Qed.

Lemma graph_ok_add_edge u v a G :
  graph_ok G -> xorb (is_file_tuple u) (is_file_tuple v) = true ->
  dict_mem "arg" (dict_update [] a) = true ->
  graph_ok (add_edge u v a G).
Proof.
  intros Hok Hx Harg. unfold add_edge.
  pose proof (graph_ok_ensure v _ (graph_ok_ensure u _ Hok)) as Hok2.
  destruct (ensure_node v (ensure_node u G)) as [ns es] eqn:E.
  cbn [g_nodes g_edges]. apply graph_ok_upd_edge; [done|done| | |done].
  - rewrite <- E. apply has_node_ensure, has_node_ensure_self.
  - rewrite <- E. apply has_node_ensure_self.
Qed.

Lemma graph_ok_remove_edge u v G : graph_ok G -> graph_ok (remove_edge u v G).
Proof.
  intros (He & Hk & Hc). split; [|split].
  - apply Forall_forall. intros e Hin.
    apply list_elem_of_filter in Hin as [_ Hin].
    rewrite Forall_forall in He. by apply He.
  - exact Hk.
  - intros e Hin. apply list_elem_of_filter in Hin as [_ Hin]. by apply Hc.
Qed.

Lemma graph_ok_add_node n a G :
  graph_ok G ->
  (is_file_tuple n = false ->
   forall old, dict_get "node_kind" (dict_update old a) <> Some (JStr "file")) ->
  graph_ok (add_node n a G).
Proof.
  intros (He & Hk & Hc) Hkind. split; [exact He|]. split.
  - intros m Hm. destruct (decide (m = n)) as [->|Hne].
    + destruct (is_file_tuple n) eqn:E; [done|]. exfalso.
      unfold is_fnode, node_kind_is, node_attrs, add_node in Hm. cbn [g_nodes] in Hm.
      rewrite node_attrs_in_upd_node_eq in Hm.
      specialize (Hkind eq_refl (default [] (node_attrs_in (g_nodes G) n))).
      destruct (dict_get "node_kind" _) as [k|]; [|discriminate].
      apply json_is_str_true in Hm. congruence.
    + rewrite is_fnode_add_node_ne in Hm by done. by apply Hk.
  - intros e Hin. destruct (Hc _ Hin). split; by apply has_node_add_node.
Qed.

Lemma graph_ok_empty : graph_ok empty_graph.
Proof.
  split; [constructor|]. split; [done|]. intros e He. by apply elem_of_nil in He.
Qed.

Lemma graph_ok_set_edge_attr u v k x G :
  graph_ok G -> is_Some (edge_attrs G u v) ->
  graph_ok (set_edge_attr u v k x G) /\
  is_Some (edge_attrs (set_edge_attr u v k x G) u v).
Proof.
  intros Hok [a Ha]. split.
  - destruct G as [ns es]. unfold set_edge_attr. cbn [g_nodes g_edges].
    pose proof Hok as (He & _ & Hc).
    pose proof (edge_attrs_in_elem _ _ _ _ Ha) as Hin.
    rewrite Forall_forall in He. destruct (He _ Hin) as [Hx _].
    destruct (Hc _ Hin) as [Hu Hv].
    apply graph_ok_upd_edge; [done|exact Hx|exact Hu|exact Hv|].
    unfold edge_attrs in Ha. cbn [g_edges] in Ha. congruence.
  - unfold edge_attrs, set_edge_attr. cbn [g_edges].
    rewrite edge_attrs_in_upd_edge_eq. eauto.
Qed.

Lemma add_file_entry_ok step_id arg files mdcl G f G' :
  graph_ok G -> add_file_entry step_id arg files mdcl G f = Ok G' -> graph_ok G'.
Proof.
  intros Hok. unfold add_file_entry.
  destruct (dict_has_keys _ _); [|by intros [= <-]].
  intros H. do 7 (inv_bind H).
  destruct (dict_mem _ _); [discriminate|].
  inv_bind H. injection H as <-.
  set (fn := FNode x2 x3 x4).
  set (G1 := add_node fn (("node_kind", JStr "file") :: x5) G).
  set (e := if json_is_str x6 "r" then (fn, SNode step_id) else (SNode step_id, fn)).
  assert (Hxor : xorb (is_file_tuple e.1) (is_file_tuple e.2) = true)
    by (subst e; destruct (json_is_str x6 "r"); reflexivity).
  assert (Hok1 : graph_ok G1) by (apply graph_ok_add_node; [done|discriminate]).
  assert (Hok2 : graph_ok (add_edge e.1 e.2 [("arg", JStr arg)] G1))
    by (by apply graph_ok_add_edge).
  assert (Hex : is_Some (edge_attrs (add_edge e.1 e.2 [("arg", JStr arg)] G1) e.1 e.2)).
  { unfold edge_attrs. rewrite g_edges_add_edge, edge_attrs_in_upd_edge_eq. eauto. }
  apply (foldl_inv (fun G => graph_ok G /\ is_Some (edge_attrs G e.1 e.2))); [|done].
  intros G2 kv [Hok3 Hex3]. destruct (starts_with _ _); [|done].
  by apply graph_ok_set_edge_attr.
Qed.

Lemma add_step_record_ok fname G step_record G' :
  graph_ok G -> add_step_record fname G step_record = Ok G' -> graph_ok G'.
Proof.
  intros Hok. unfold add_step_record. intros H.
  do 5 (inv_bind H).
  destruct (_ || _) eqn:Hkeys; [discriminate|].
  apply orb_false_iff in Hkeys as [Hk1 Hk2].
  inv_bind H. revert H. apply foldM_inv.
  - intros G1 av G2 H1 H2. inv_bind H2. revert H2. apply foldM_inv; [|done].
    intros G3 files G4 H3 H4. inv_bind H4. revert H4. apply foldM_inv; [|done].
    intros G5 f G6 H5 H6. eapply add_file_entry_ok; eauto.
  - apply graph_ok_add_node; [done|]. intros _ old.
    unfold dict_update. cbn [foldl fst snd].
    match goal with
    | |- dict_get _ (foldl ?f ?d ?l) <> _ =>
        change (foldl f d l) with (dict_update d l)
    end.
    rewrite dict_get_update_notin by (by apply dict_mem_false).
    rewrite dict_get_set_ne by done. rewrite dict_get_set_eq. discriminate.
Qed.

Lemma load_file_ok now max_age st entry st' :
  graph_ok st.1 -> load_file now max_age st entry = Ok st' -> graph_ok st'.1.
Proof.
  intros Hok. unfold load_file. destruct entry as [fname content].
  destruct (negb _); [by intros [= <-]|].
  intros H. inv_bind H.
  destruct (negb _); [by injection H as <-|].
  inv_bind H. inv_bind H.
  destruct (truthy _); [by injection H as <-|].
  inv_bind H.
  destruct (truthy _); [by injection H as <-|].
  inv_bind H.
  destruct (_ <? _); [by injection H as <-|].
  inv_bind H. injection H as <-. simpl.
  eapply add_step_record_ok; eauto.
Qed.

Lemma build_graph_ok now max_age S G log :
  build_graph now max_age S = Ok (G, log) -> graph_ok G.
Proof.
  unfold build_graph. intros H. change G with (G, log).1.
  revert H. apply (foldM_inv (fun st => graph_ok st.1)).
  - intros st e st' H1 H2. eapply load_file_ok; eauto.
  - apply graph_ok_empty.
Qed.

Lemma dict_mem_update_in k d a :
  dict_mem k a = true -> dict_mem k (dict_update d a) = true.
Proof.
  unfold dict_update. revert d. induction a as [|[k0 v0] a IH]; [done|].
  intros d. unfold dict_mem at 1. cbn [dict_get foldl fst snd].
  case_bool_decide as E.
  - subst k0. intros _. apply (dict_mem_update k _ a).
    rewrite dict_mem_set. by rewrite bool_decide_eq_true_2.
  - intros H. by apply IH.
Qed.

Lemma is_fnode_rewire f f2 s a G n : is_fnode (rewire f f2 s a G) n = is_fnode G n.
Proof.
  transitivity (is_fnode (ensure_node s (ensure_node f2 G)) n); [done|].
  by rewrite !is_fnode_ensure.
Qed.

Section RepairShape.

Variable isfile : string -> bool.
Variable samefile : string -> string -> bool.

Lemma reconnect_consumer_ok f2s f G s G' :
  graph_ok G -> is_fnode G f = true ->
  (forall c, c ∈ f2s -> is_file_tuple c = true) ->
  reconnect_consumer f2s f G s = Ok G' ->
  graph_ok G' /\ is_fnode G' f = true.
Proof.
  intros Hok Hf Hc. unfold reconnect_consumer. intros H. inv_bind H.
  destruct (last _) as [f2|] eqn:Hlast; [|by injection H as <-].
  destruct (_ && _); [|discriminate].
  destruct (edge_attrs G f s) as [a|] eqn:Ha; [|discriminate].
  injection H as <-. split; [|by rewrite is_fnode_rewire].
  pose proof Hok as (He & Hk & _).
  pose proof (edge_attrs_in_elem _ _ _ _ Ha) as Hin.
  rewrite Forall_forall in He. destruct (He _ Hin) as [Hxor Harg].
  unfold joins_file_and_step in Hxor. cbn [fst snd] in Hxor, Harg.
  rewrite (Hk _ Hf) in Hxor.
  apply last_Some_elem_of, list_elem_of_filter in Hlast as [_ Hlast].
  apply graph_ok_remove_edge, graph_ok_add_edge; [done| |].
  - by rewrite (Hc _ Hlast).
  - by apply dict_mem_update_in.
Qed.

Lemma reconnect_file_ok G0 G f G' :
  (forall n, n ∈ file_nodes G0 -> is_file_tuple n = true) ->
  graph_ok G ->
  reconnect_file (compute_hash_and_realpath_indices isfile samefile G0) G f = Ok G' ->
  graph_ok G'.
Proof.
  intros Hfn Hok. unfold reconnect_file.
  destruct (is_fnode G f) eqn:Hf; cbn [andb]; [|by intros [= <-]].
  destruct (bool_decide (pred G f = [])); [|by intros [= <-]].
  destruct (bool_decide _); [by intros [= <-]|].
  intros H.
  assert (Hres : graph_ok G' /\ is_fnode G' f = true); [|apply Hres].
  revert H. apply (foldM_inv (fun G => graph_ok G /\ is_fnode G f = true)); [|done].
  intros G1 s G2 [Hok1 Hf1] Hstep.
  eapply reconnect_consumer_ok; [exact Hok1|exact Hf1| |exact Hstep].
  intros c Hc. apply elem_of_sorted_asc in Hc.
  unfold candidates, same_hash_and_path in Hc.
  apply list_elem_of_filter in Hc as [_ Hc].
  apply list_elem_of_filter in Hc as [_ Hc].
  apply elem_of_hash_index in Hc as [Hc _]. by apply Hfn.
Qed.

Lemma reconstruct_missing_connections_ok G G' :
  graph_ok G ->
  reconstruct_missing_connections isfile samefile G = Ok G' -> graph_ok G'.
Proof.
  intros Hok. unfold reconstruct_missing_connections, repair_turns.
  apply foldM_inv; [|done].
  intros G1 f G2 H1 H2. eapply reconnect_file_ok; [|exact H1|exact H2].
  intros n Hn. destruct Hok as (_ & Hk & _). apply Hk.
  unfold file_nodes in Hn. by apply list_elem_of_filter in Hn as [? _].
Qed.

Lemma load_ok now max_age S G log :
  load isfile samefile now max_age S = Ok (G, log) -> graph_ok G.
Proof.
  intros H.
  destruct (load_Ok_inv _ _ _ _ _ _ _ H) as (G0 & log0 & Hb & _ & Hrep & _).
  eapply reconstruct_missing_connections_ok; [|exact Hrep].
  eapply build_graph_ok; eauto.
Qed.

(** X15. A loaded graph is bipartite: every edge joins a FileNode tuple and
    a step id, both of them nodes of the graph, and the nodes of kind
    'file' are FileNode tuples. The repair pass keeps it so. *)
Theorem loaded_graph_is_bipartite now max_age S G log :
  load isfile samefile now max_age S = Ok (G, log) ->
  (forall u v a, (u, v, a) ∈ g_edges G ->
     is_file_tuple u = negb (is_file_tuple v) /\
     has_node G u = true /\ has_node G v = true) /\
  (forall n, n ∈ file_nodes G -> is_file_tuple n = true).
Proof.
  intros H. apply load_ok in H as (He & Hk & Hc). split.
  - intros u v a Hin. rewrite Forall_forall in He.
    destruct (He _ Hin) as [Hx _]. destruct (Hc _ Hin) as [Hu Hv].
    unfold joins_file_and_step in Hx. cbn [fst snd] in *.
    split; [|done]. by destruct (is_file_tuple u), (is_file_tuple v).
  - intros n Hn. apply Hk. unfold file_nodes in Hn.
    by apply list_elem_of_filter in Hn as [? _].
Qed.

(** X16. Every edge of a loaded graph carries the attribute [arg], the
    name of the command argument it comes from, through any metadata
    override and any rewiring by the repair pass. *)
Theorem loaded_edges_carry_arg now max_age S G log u v a :
  load isfile samefile now max_age S = Ok (G, log) ->
  edge_attrs G u v = Some a ->
  dict_mem "arg" a = true.
Proof.
  intros H Ha. apply load_ok in H as (He & _ & _).
  apply edge_attrs_in_elem in Ha. rewrite Forall_forall in He.
  by destruct (He _ Ha).
Qed.

End RepairShape.

Lemma loaded_graph_is_bipartite_witness :
  load no_file no_samefile 100 10000 repair_store = Ok repair_loaded /\
  (forall u v a, (u, v, a) ∈ g_edges repair_loaded.1 ->
     is_file_tuple u = negb (is_file_tuple v) /\
     has_node repair_loaded.1 u = true /\ has_node repair_loaded.1 v = true) /\
  (forall n, n ∈ file_nodes repair_loaded.1 -> is_file_tuple n = true).
Proof.
  assert (H1 : load no_file no_samefile 100 10000 repair_store
               = Ok (repair_loaded.1, repair_loaded.2)) by (vm_compute; reflexivity).
  split; [exact H1|].
  exact (loaded_graph_is_bipartite no_file no_samefile 100 10000 repair_store _ _ H1).
Defined.

Lemma loaded_edges_carry_arg_witness :
  load no_file no_samefile 100 10000 repair_store = Ok repair_loaded /\
  edge_attrs repair_loaded.1 (FNode "/f1" "h1" 10) (SNode "C")
  = Some [("arg", JStr "in")] /\
  dict_mem "arg" [("arg", JStr "in")] = true.
Proof.
  assert (H1 : load no_file no_samefile 100 10000 repair_store
               = Ok (repair_loaded.1, repair_loaded.2)) by (vm_compute; reflexivity).
  assert (H2 : edge_attrs repair_loaded.1 (FNode "/f1" "h1" 10) (SNode "C")
               = Some [("arg", JStr "in")]) by (vm_compute; reflexivity).
  split; [exact H1|]. split; [exact H2|].
  exact (loaded_edges_carry_arg no_file no_samefile 100 10000 repair_store _ _ _ _ _ H1 H2).
Defined.

(** ** The repair pass, turn by turn *)

Lemma elem_of_file_nodes G n :
  n ∈ file_nodes G <-> is_fnode G n = true /\ n ∈ (g_nodes G).*1.
Proof. unfold file_nodes. by rewrite list_elem_of_filter. Qed.








Section RepairTurns.

Variable isfile : string -> bool.
Variable samefile : string -> string -> bool.




End RepairTurns.



(** * Further properties *)

(** ** The wrapper *)

Section WrapperFacts.

Variable hasher : string -> string.
Variable os_realpath os_abspath : string -> string.
Variable os_stat : string -> option stat_result.
Variable getpwuid : Z -> option string.
Variable crc32_hex : json -> string.
Variable version_info run_env argv : json.

Abbreviation run' := (run_cmd_with_tracking hasher os_realpath os_abspath os_stat
                        getpwuid crc32_hex version_info run_env argv).
Abbreviation record' := (record_metadata hasher os_realpath os_abspath os_stat
                           getpwuid crc32_hex version_info run_env argv).
Abbreviation step_data' := (step_data hasher os_realpath os_abspath os_stat
                              getpwuid version_info run_env argv).

(** X1. Whatever the command returns, the wrapper returns None: when it
    returns at all, its value is None. *)
Theorem wrapper_returns_none inv cmd_main fault w v :
  (run_cmd_with_tracking hasher os_realpath os_abspath os_stat
     getpwuid crc32_hex version_info run_env argv
     inv cmd_main fault w).1 = Ok v ->
  v = JNull.
Proof.
  unfold run_cmd_with_tracking.
  destruct (reuse_cached_step _ _ _); [|discriminate].
  destruct (cmd_main _) as [r w1].
  destruct (classify r) as [[cmd_result cmd_exception] in_flight].
  destruct (record' _ _ _ _ _ _ _ _) as [w2 [e|]].
  - destruct (is_Exception (exn_cls e)); [|discriminate].
    destruct in_flight, cmd_exception; simpl; congruence.
  - destruct in_flight, cmd_exception; simpl; congruence.
Qed.


(** X2. An error of class Exception raised at any point of the recording
    (while the record is built, inside the write, after the write) changes
    nothing for the caller: the outcome is the one of a run whose recording
    went through, and the warning 'Error recording metadata' is logged. The
    metadata directory is as the command left it when the error came before
    the write; it holds what [settext] left behind when the error came in
    the write; it holds the whole record when the error came after it. *)
Theorem recording_error_is_contained inv cmd_main f w r w1 :
  reuse_cached_step (inv_cmd_module inv) (inv_cmd_name inv)
    (push_step (step_id_of inv) w) = Ok tt ->
  cmd_main (push_step (step_id_of inv) w) = (r, w1) ->
  is_Some (w_env w1 !! "VIRAL_NGS_METADATA_PATH") ->
  is_Exception (exn_cls (fault_exn f)) = true ->
  (run' inv cmd_main (Some f) w).1 = (run' inv cmd_main None w).1 /\
  "Error recording metadata" ∈ w_log (run' inv cmd_main (Some f) w).2 /\
  match f with
  | FailBeforeWrite _ | FailInWrite None _ =>
      w_store (run' inv cmd_main (Some f) w).2 = w_store w1
  | FailInWrite (Some c) _ =>
      exists rec,
        w_store (run' inv cmd_main (Some f) w).2
        = settext (record_file_name crc32_hex inv rec) c (w_store w1)
  | FailAfterWrite _ =>
      w_store (run' inv cmd_main (Some f) w).2
      = w_store (run' inv cmd_main None w).2
  end.
Proof.
  intros Hreuse Hcmd Hon He. unfold run_cmd_with_tracking.
  rewrite Hreuse, Hcmd.
  assert (Hen : is_metadata_tracking_enabled
                  (set_env STEPS_RUNNING (steps_running w) w1) = true).
  { unfold is_metadata_tracking_enabled, set_env. simpl.
    apply bool_decide_eq_true. by rewrite lookup_insert_ne. }
  assert (Hki : forall cmd_result cmd_exception in_flight,
            classify r = (cmd_result, cmd_exception, in_flight) ->
            match cmd_exception with
            | Some e => is_KeyboardInterrupt (exn_cls e)
            | None => false
            end = false).
  { unfold classify. intros ? ? ? Hc. destruct r as [v|e]; [by injection Hc as <- <- <-|].
    destruct (is_Exception (exn_cls e)) eqn:Ee; injection Hc as <- <- <-; [|done].
    by destruct (exn_cls e). }
  destruct (classify r) as [[cmd_result cmd_exception] in_flight] eqn:Hc.
  specialize (Hki _ _ _ eq_refl).
  unfold record_metadata. rewrite Hen, Hki. cbn [negb andb].
  assert (Hlog : forall (m : string) l, m ∈ l ++ [m]).
  { intros m l. apply elem_of_app. right. left. }
  assert (Hlog2 : forall (m m' : string) l, m ∈ (l ++ [m]) ++ [m']).
  { intros m m' l. apply elem_of_app. left. apply Hlog. }
  destruct f as [e|[c|] e|e]; cbn [fault_exn] in He; rewrite He;
    destruct in_flight, cmd_exception; cbn [fst snd w_log w_store log_warning];
    (split; [reflexivity|]); (split; [first [apply Hlog|apply Hlog2]|]);
    first [reflexivity | eexists; reflexivity].
Qed.


(** X3. Once the reuse check has returned, the wrapper leaves
    VIRAL_NGS_METADATA_STEPS_RUNNING set to the value that
    [os.environ.get(..., '')] gave on entry, whatever the command and the
    recording do: success, any exception of the command (KeyboardInterrupt
    and SystemExit included), any failure of the recording. A variable
    that was set has its value back; a variable that was not set is left
    set to the empty string. *)
Theorem steps_running_restored inv cmd_main fault w :
  reuse_cached_step (inv_cmd_module inv) (inv_cmd_name inv)
    (push_step (step_id_of inv) w) = Ok tt ->
  w_env (run' inv cmd_main fault w).2 !! STEPS_RUNNING
  = Some (steps_running w) /\
  (forall v, w_env w !! STEPS_RUNNING = Some v ->
             w_env (run' inv cmd_main fault w).2 !! STEPS_RUNNING = Some v) /\
  (w_env w !! STEPS_RUNNING = None ->
   w_env (run' inv cmd_main fault w).2 !! STEPS_RUNNING = Some "").
Proof.
  intros Hreuse.
  pose proof (run_sets_steps_running hasher os_realpath os_abspath os_stat
                getpwuid crc32_hex version_info run_env argv
                inv cmd_main fault w Hreuse) as H.
  split; [exact H|]. unfold steps_running in H.
  split; [intros v Hv|intros Hv]; rewrite H, Hv; reflexivity.
Qed.


(** X4. With metadata tracking switched off when the command has ended,
    the wrapper writes no record: the store is the one the command left. *)
Theorem no_record_without_tracking inv cmd_main fault w r w1 :
  reuse_cached_step (inv_cmd_module inv) (inv_cmd_name inv)
    (push_step (step_id_of inv) w) = Ok tt ->
  cmd_main (push_step (step_id_of inv) w) = (r, w1) ->
  w_env w1 !! "VIRAL_NGS_METADATA_PATH" = None ->
  w_store (run' inv cmd_main fault w).2 = w_store w1.
Proof.
  intros Hreuse Hcmd Hoff. unfold run_cmd_with_tracking.
  rewrite Hreuse, Hcmd.
  destruct (classify r) as [[cmd_result cmd_exception] in_flight].
  unfold record_metadata.
  assert (Hen : is_metadata_tracking_enabled
                  (set_env STEPS_RUNNING (steps_running w) w1) = false).
  { unfold is_metadata_tracking_enabled, set_env. simpl.
    apply bool_decide_eq_false. rewrite lookup_insert_ne by done.
    rewrite Hoff. by intros [? ?]. }
  rewrite Hen. cbn [andb].
  destruct in_flight, cmd_exception; reflexivity.
Qed.


End WrapperFacts.

Lemma wrapper_returns_none_witness :
  (sample_run cmd_marks None tracking_world).1 = Ok JNull /\ JNull = JNull.
Proof.
  assert (H : (sample_run cmd_marks None tracking_world).1 = Ok JNull)
    by (vm_compute; reflexivity).
  split; [exact H|].
  exact (wrapper_returns_none sample_hasher same_path same_path (stat_at 900)
           sample_getpwuid sample_crc JNull JNull JNull sample_invocation
           cmd_marks None tracking_world JNull H).
Defined.

Lemma recording_error_is_contained_witness :
  let f := FailInWrite (Some Garbage) (Exn OSError "disk full") in
  reuse_cached_step "read_utils" "sort_bam"
    (push_step (step_id_of sample_invocation) tracking_world) = Ok tt /\
  is_Exception (exn_cls (fault_exn f)) = true /\
  (sample_run (cmd_raises ValueError) (Some f) tracking_world).1
  = (sample_run (cmd_raises ValueError) None tracking_world).1 /\
  "Error recording metadata"
    ∈ w_log (sample_run (cmd_raises ValueError) (Some f) tracking_world).2 /\
  exists rec,
    w_store (sample_run (cmd_raises ValueError) (Some f) tracking_world).2
    = settext (record_file_name sample_crc sample_invocation rec) Garbage [].
Proof.
  intros f.
  assert (H1 : reuse_cached_step (inv_cmd_module sample_invocation)
                 (inv_cmd_name sample_invocation)
                 (push_step (step_id_of sample_invocation) tracking_world) = Ok tt)
    by reflexivity.
  assert (H2 : cmd_raises ValueError (push_step (step_id_of sample_invocation) tracking_world)
               = (Raise (Exn ValueError "Traceback"),
                  push_step (step_id_of sample_invocation) tracking_world))
    by reflexivity.
  assert (H3 : is_Some (w_env (push_step (step_id_of sample_invocation) tracking_world)
                          !! "VIRAL_NGS_METADATA_PATH"))
    by (vm_compute; eexists; reflexivity).
  assert (H4 : is_Exception (exn_cls (fault_exn f)) = true) by reflexivity.
  split; [exact H1|]. split; [exact H4|].
  exact (recording_error_is_contained sample_hasher same_path same_path (stat_at 900)
           sample_getpwuid sample_crc JNull JNull JNull sample_invocation
           (cmd_raises ValueError) f tracking_world _ _ H1 H2 H3 H4).
Defined.

Lemma steps_running_restored_witness :
  let r := sample_run (cmd_raises KeyboardInterrupt)
             (Some (FailAfterWrite (Exn SystemExit ""))) tracking_world in
  reuse_cached_step "read_utils" "sort_bam"
    (push_step (step_id_of sample_invocation) tracking_world) = Ok tt /\
  w_env r.2 !! STEPS_RUNNING = Some (steps_running tracking_world) /\
  (forall v, w_env tracking_world !! STEPS_RUNNING = Some v ->
             w_env r.2 !! STEPS_RUNNING = Some v) /\
  (w_env tracking_world !! STEPS_RUNNING = None ->
   w_env r.2 !! STEPS_RUNNING = Some "").
Proof.
  intros r.
  assert (H1 : reuse_cached_step (inv_cmd_module sample_invocation)
                 (inv_cmd_name sample_invocation)
                 (push_step (step_id_of sample_invocation) tracking_world) = Ok tt)
    by reflexivity.
  split; [exact H1|].
  exact (steps_running_restored sample_hasher same_path same_path (stat_at 900)
           sample_getpwuid sample_crc JNull JNull JNull sample_invocation
           (cmd_raises KeyboardInterrupt)
           (Some (FailAfterWrite (Exn SystemExit ""))) tracking_world H1).
Defined.

Lemma no_record_without_tracking_witness :
  let w := World ∅ [] [] in
  reuse_cached_step "read_utils" "sort_bam"
    (push_step (step_id_of sample_invocation) w) = Ok tt /\
  w_env (cmd_marks (push_step (step_id_of sample_invocation) w)).2
    !! "VIRAL_NGS_METADATA_PATH" = None /\
  w_store (sample_run cmd_marks None w).2 = [].
Proof.
  intros w.
  assert (H1 : reuse_cached_step (inv_cmd_module sample_invocation)
                 (inv_cmd_name sample_invocation)
                 (push_step (step_id_of sample_invocation) w) = Ok tt)
    by reflexivity.
  assert (H2 : cmd_marks (push_step (step_id_of sample_invocation) w)
               = (Ok (JNum 7),
                  set_env "COMMAND_RAN" "1" (push_step (step_id_of sample_invocation) w)))
    by reflexivity.
  assert (H3 : w_env (set_env "COMMAND_RAN" "1"
                        (push_step (step_id_of sample_invocation) w))
               !! "VIRAL_NGS_METADATA_PATH" = None)
    by (vm_compute; reflexivity).
  split; [exact H1|]. split; [exact H3|].
  exact (no_record_without_tracking sample_hasher same_path same_path (stat_at 900)
           sample_getpwuid sample_crc JNull JNull JNull sample_invocation
           cmd_marks None w _ _ H1 H2 H3).
Defined.

(** ** Strings *)

Lemma string_app_assoc (a b c : string) : (a +:+ b) +:+ c = a +:+ (b +:+ c).
Proof.
  induction a as [|x a IH]; [done|].
  change (String x ((a +:+ b) +:+ c) = String x (a +:+ (b +:+ c))).
  by rewrite IH.
Qed.

Lemma string_app_nil_r (a : string) : a +:+ "" = a.
Proof.
  induction a as [|x a IH]; [done|].
  change (String x (a +:+ "") = String x a). by rewrite IH.
Qed.

Lemma rev_app_app (a acc : string) :
  String.rev_app a acc = String.rev_app a "" +:+ acc.
Proof.
  revert acc. induction a as [|x a IH]; intros acc; [done|].
  cbn [String.rev_app]. rewrite (IH (String x acc)), (IH (String x "")).
  by rewrite string_app_assoc.
Qed.

Lemma rev_app_append (a b acc : string) :
  String.rev_app (a +:+ b) acc = String.rev_app b (String.rev_app a acc).
Proof.
  revert acc. induction a as [|x a IH]; intros acc; [done|].
  change (String.rev_app (a +:+ b) (String x acc)
          = String.rev_app b (String.rev_app a (String x acc))).
  apply IH.
Qed.

Lemma prefix_append (p q : string) : String.prefix p (p +:+ q) = true.
Proof.
  induction p as [|x p IH]; [by destruct q|].
  change (String.prefix (String x p) (String x (p +:+ q)) = true).
  cbn [String.prefix]. by destruct (ascii_dec x x).
Qed.

(** A name built by appending a suffix ends with it. *)
Lemma ends_with_append (s sfx : string) : ends_with sfx (s +:+ sfx) = true.
Proof.
  unfold ends_with, String.rev.
  rewrite rev_app_append, (rev_app_app sfx (String.rev_app s "")).
  apply prefix_append.
Qed.

(** ** The filters of [load] *)

Lemma foldM_skip {A S} (f : S -> A -> result S) l1 a l2 s :
  (forall s', f s' a = Ok s') ->
  foldM f s (l1 ++ a :: l2) = foldM f s (l1 ++ l2).
Proof.
  intros Hskip. revert s. induction l1 as [|b l1 IH]; simpl; intros s.
  - by rewrite Hskip.
  - destruct (f s b); simpl; [apply IH|done].
Qed.

Lemma foldM_raise {A S} (f : S -> A -> result S) l1 a l2 s s1 e :
  foldM f s l1 = Ok s1 -> f s1 a = Raise e ->
  foldM f s (l1 ++ a :: l2) = Raise e.
Proof.
  revert s. induction l1 as [|b l1 IH]; simpl; intros s H Ha.
  - injection H as ->. by rewrite Ha.
  - inv_bind H. rewrite Hx. simpl. eauto.
Qed.

Section LoadFilters.

Variable isfile : string -> bool.
Variable samefile : string -> string -> bool.
Variable now max_age_days : Z.

Abbreviation load' := (load isfile samefile now max_age_days).

(** An entry that every turn of the loop passes over does not show in the
    result of [load]. *)
Lemma load_without_skipped e S1 S2 :
  (forall st, load_file now max_age_days st e = Ok st) ->
  load' (S1 ++ e :: S2) = load' (S1 ++ S2).
Proof.
  intros Hskip. unfold load, build_graph. by rewrite foldM_skip.
Qed.

(** The step of a valid record is a mapping. *)
Lemma valid_step_is_dict r step :
  is_valid_step_record r = true -> getitem r "step" = Ok step ->
  exists d, step = JDict d.
Proof.
  unfold is_valid_step_record, getitem. intros Hv Hs.
  apply andb_true_iff in Hv as [_ Hv].
  destruct r as [| | | | |m]; try discriminate.
  destruct (dict_get "step" m) as [st|]; [|discriminate].
  injection Hs as <-. destruct st; try discriminate. by eexists.
Qed.

(** X5. Failed-step exclusion: a record whose [run_info] carries an
    exception contributes nothing; the load is the load of the store
    without it. *)
Theorem load_excludes_failed_step fname r step exc S1 S2 :
  is_valid_step_record r = true ->
  getitem r "step" = Ok step ->
  run_info_field step "exception" = Ok exc ->
  truthy exc = true ->
  load' (S1 ++ (fname, Parsed r) :: S2) = load' (S1 ++ S2).
Proof.
  intros Hv Hs He Ht. apply load_without_skipped. intros st.
  unfold load_file. destruct (negb (ends_with ".json" fname)); [done|].
  rewrite Ok_bind, Hv. cbn [negb]. rewrite Hs, Ok_bind, He, Ok_bind, Ht. done.
Qed.

(** X6. A valid record whose [run_info] has a readable [exception] field
    and whose [enclosing_steps] is non-empty, as written by a command that
    ran inside another command, contributes nothing: the load is the load
    of the store without it. (The exception field is read first; a record
    without it stops the load with KeyError.) *)
Theorem load_excludes_nested_step fname r step exc enc S1 S2 :
  is_valid_step_record r = true ->
  getitem r "step" = Ok step ->
  run_info_field step "exception" = Ok exc ->
  get_default step "enclosing_steps" (JStr "") = Ok enc ->
  truthy enc = true ->
  load' (S1 ++ (fname, Parsed r) :: S2) = load' (S1 ++ S2).
Proof.
  intros Hv Hs He Hn Ht. apply load_without_skipped. intros st.
  unfold load_file. destruct (negb (ends_with ".json" fname)); [done|].
  rewrite Ok_bind, Hv. cbn [negb]. rewrite Hs, Ok_bind, He, Ok_bind.
  destruct (truthy exc); [done|]. by rewrite Hn, Ok_bind, Ht.
Qed.

(** X7. A valid record whose [run_info] has a readable [exception] field
    and a numeric [beg_time] that lies more than [max_age_days] days before
    the time of the load contributes nothing: the load is the load of the
    store without it. (The exception field is read first; a record without
    it stops the load with KeyError.) *)
Theorem load_excludes_old_step fname r step exc bt beg S1 S2 :
  is_valid_step_record r = true ->
  getitem r "step" = Ok step ->
  run_info_field step "exception" = Ok exc ->
  run_info_field step "beg_time" = Ok bt ->
  as_num bt = Ok beg ->
  max_age_days * (60 * 60 * 24) < now - beg ->
  load' (S1 ++ (fname, Parsed r) :: S2) = load' (S1 ++ S2).
Proof.
  intros Hv Hs He Hb Hbn Hold. apply load_without_skipped. intros st.
  destruct (valid_step_is_dict _ _ Hv Hs) as [d ->].
  unfold load_file. destruct (negb (ends_with ".json" fname)); [done|].
  rewrite Ok_bind, Hv. cbn [negb]. rewrite Hs, Ok_bind, He, Ok_bind.
  destruct (truthy exc); [done|]. cbn [get_default]. rewrite Ok_bind.
  destruct (truthy _); [done|]. rewrite Hb, Ok_bind, Hbn, Ok_bind.
  apply Z.ltb_lt in Hold. by rewrite Hold.
Qed.

(** X8. A file whose name does not end in [.json] is never parsed: whatever
    it holds, it changes nothing. *)
Theorem load_ignores_other_files fname content S1 S2 :
  ends_with ".json" fname = false ->
  load' (S1 ++ (fname, content) :: S2) = load' (S1 ++ S2).
Proof.
  intros Hn. apply load_without_skipped. intros st.
  unfold load_file. by rewrite Hn.
Qed.

(** X9. A [.json] file that is not valid JSON is not skipped: when the
    loop reaches it, [load] fails with the ValueError of [json.loads],
    whatever the rest of the directory holds. *)
Theorem load_aborts_on_unparsable_file fname S1 S2 st :
  build_graph now max_age_days S1 = Ok st ->
  ends_with ".json" fname = true ->
  load' (S1 ++ (fname, Garbage) :: S2) = Raise (Exn ValueError "Expecting value").
Proof.
  intros Hb Hj. unfold load, build_graph.
  erewrite foldM_raise; [done|exact Hb|].
  unfold load_file. by rewrite Hj.
Qed.

Lemma load_file_log st e st' :
  load_file now max_age_days st e = Ok st' ->
  st'.2 = st.2 ++ from_option (fun m => [m]) [] (invalid_warning e).
Proof.
  unfold load_file, invalid_warning. destruct e as [fname content]. cbn [fst snd].
  destruct (ends_with ".json" fname); cbn [negb andb].
  2:{ intros [= <-]. destruct content; simpl; by rewrite app_nil_r. }
  destruct content as [j|]; [|discriminate]. rewrite Ok_bind.
  destruct (is_valid_step_record j); cbn [negb].
  2:{ by intros [= <-]. }
  simpl from_option. rewrite app_nil_r. intros H.
  inv_bind H. inv_bind H.
  destruct (truthy _); [by injection H as <-|].
  inv_bind H.
  destruct (truthy _); [by injection H as <-|].
  inv_bind H.
  destruct (_ <? _); [by injection H as <-|].
  inv_bind H. by injection H as <-.
Qed.

Lemma build_graph_log S G log :
  build_graph now max_age_days S = Ok (G, log) -> log = omap invalid_warning S.
Proof.
  unfold build_graph.
  assert (Hgen : forall st st', foldM (load_file now max_age_days) st S = Ok st' ->
                                st'.2 = st.2 ++ omap invalid_warning S).
  { induction S as [|e S IH]; simpl; intros st st' H.
    - injection H as <-. by rewrite app_nil_r.
    - inv_bind H. rewrite (IH _ _ H), (load_file_log _ _ _ Hx), <- app_assoc.
      f_equal. by destruct (invalid_warning e). }
  intros H. apply Hgen in H. exact H.
Qed.

Lemma load_Ok_log S G log :
  load' S = Ok (G, log) ->
  exists G0 log0,
    build_graph now max_age_days S = Ok (G0, log0) /\
    log = (log0 ++ omap (fun f => if (1 <? in_degree G f)%nat
                                  then Some "indegree" else None) (file_nodes G))
          ++ [String.append "UNKNOWN_ORIGIN:"
                (String.concat "," (unknown_origin_files isfile G))].
Proof.
  unfold load. intros H. inv_bind H. destruct x as [G0 log0].
  exists G0, log0. split; [done|].
  destruct (negb (forallb _ _)); [discriminate|].
  inv_bind H. destruct (negb _); [discriminate|].
  by injection H as <- <-.
Qed.

(** X10. What a completed [load] has logged: one warning for each [.json]
    entry that fails the structural check, in the order of the directory,
    then the one message that lists the files of unknown origin. The
    in-degree warning of the final loop is never logged. *)
Theorem load_log S G log :
  load' S = Ok (G, log) ->
  exists m, log = omap invalid_warning S ++ [m] /\
            starts_with "UNKNOWN_ORIGIN:" m = true.
Proof.
  intros H. eexists. split; [|apply prefix_append].
  destruct (load_Ok_inv _ _ _ _ _ _ _ H) as (G0 & log0 & Hb & Hdeg & Hrep & _).
  destruct (reconstruct_missing_connections_inv _ _ _ _ Hrep) as [Hfn Hle].
  destruct (load_Ok_log _ _ _ H) as (G0' & log0' & Hb' & ->).
  rewrite Hb in Hb'. injection Hb' as <- <-.
  apply build_graph_log in Hb. subst log0. f_equal.
  assert (Hnone : omap (fun f => if (1 <? in_degree G f)%nat
                                 then Some "indegree" else None) (file_nodes G) = []).
  { rewrite Hfn. rewrite forallb_forall in Hdeg.
    assert (Hall : forall f, f ∈ file_nodes G0 -> (1 <? in_degree G f)%nat = false).
    { intros f Hf. apply list_elem_of_In, Hdeg, Nat.leb_le in Hf.
      apply Nat.ltb_ge. specialize (Hle f). lia. }
    revert Hall. generalize (file_nodes G0). intros l Hl.
    induction l as [|f l IH]; [done|]. cbn [omap list_omap].
    rewrite Hl by left. apply IH. intros f' Hf'. apply Hl. by right. }
  by rewrite Hnone, app_nil_r.
Qed.

End LoadFilters.

Lemma load_excludes_failed_step_witness :
  is_valid_step_record failed_record = true /\
  getitem failed_record "step" = Ok (step_of failed_record) /\
  run_info_field (step_of failed_record) "exception"
  = Ok (JStr "Traceback: ValueError") /\
  truthy (JStr "Traceback: ValueError") = true /\
  load no_file no_samefile 100 10000
    (one_step_store ++ ("B.json", Parsed failed_record) :: [])
  = load no_file no_samefile 100 10000 (one_step_store ++ []).
Proof.
  assert (H1 : is_valid_step_record failed_record = true) by reflexivity.
  assert (H2 : getitem failed_record "step" = Ok (step_of failed_record))
    by reflexivity.
  assert (H3 : run_info_field (step_of failed_record) "exception"
               = Ok (JStr "Traceback: ValueError")) by reflexivity.
  assert (H4 : truthy (JStr "Traceback: ValueError") = true) by reflexivity.
  repeat (split; [assumption|]).
  exact (load_excludes_failed_step no_file no_samefile 100 10000 "B.json"
           failed_record _ _ one_step_store [] H1 H2 H3 H4).
Defined.

Lemma load_excludes_nested_step_witness :
  is_valid_step_record nested_record = true /\
  getitem nested_record "step" = Ok (step_of nested_record) /\
  run_info_field (step_of nested_record) "exception" = Ok JNull /\
  get_default (step_of nested_record) "enclosing_steps" (JStr "") = Ok (JStr "A") /\
  truthy (JStr "A") = true /\
  load no_file no_samefile 100 10000
    (one_step_store ++ ("B.json", Parsed nested_record) :: [])
  = load no_file no_samefile 100 10000 (one_step_store ++ []).
Proof.
  assert (H1 : is_valid_step_record nested_record = true) by reflexivity.
  assert (H2 : getitem nested_record "step" = Ok (step_of nested_record))
    by reflexivity.
  assert (H3 : run_info_field (step_of nested_record) "exception" = Ok JNull)
    by reflexivity.
  assert (H4 : get_default (step_of nested_record) "enclosing_steps" (JStr "")
               = Ok (JStr "A")) by reflexivity.
  assert (H5 : truthy (JStr "A") = true) by reflexivity.
  repeat (split; [assumption|]).
  exact (load_excludes_nested_step no_file no_samefile 100 10000 "B.json"
           nested_record _ _ _ one_step_store [] H1 H2 H3 H4 H5).
Defined.

Lemma load_excludes_old_step_witness :
  let r := step_record "B" "b" 15 [("out", file_arg "w" [file_entry "/f2" "h2" 20])] in
  is_valid_step_record r = true /\
  run_info_field (step_of r) "beg_time" = Ok (JNum 15) /\
  1 * (60 * 60 * 24) < 100000 - 15 /\
  load no_file no_samefile 100000 1 (one_step_store ++ ("B.json", Parsed r) :: [])
  = load no_file no_samefile 100000 1 (one_step_store ++ []).
Proof.
  intros r.
  assert (H1 : is_valid_step_record r = true) by reflexivity.
  assert (H2 : getitem r "step" = Ok (step_of r)) by reflexivity.
  assert (H3 : run_info_field (step_of r) "exception" = Ok JNull) by reflexivity.
  assert (H5 : run_info_field (step_of r) "beg_time" = Ok (JNum 15)) by reflexivity.
  assert (H6 : as_num (JNum 15) = Ok 15) by reflexivity.
  assert (H7 : 1 * (60 * 60 * 24) < 100000 - 15) by lia.
  split; [exact H1|]. split; [exact H5|]. split; [exact H7|].
  exact (load_excludes_old_step no_file no_samefile 100000 1 "B.json"
           r _ _ _ _ one_step_store [] H1 H2 H3 H5 H6 H7).
Defined.

Lemma load_ignores_other_files_witness :
  ends_with ".json" "README.txt" = false /\
  load no_file no_samefile 100 10000 (one_step_store ++ ("README.txt", Garbage) :: [])
  = load no_file no_samefile 100 10000 (one_step_store ++ []).
Proof.
  assert (H1 : ends_with ".json" "README.txt" = false) by reflexivity.
  split; [exact H1|].
  exact (load_ignores_other_files no_file no_samefile 100 10000 "README.txt"
           Garbage one_step_store [] H1).
Defined.

Lemma load_aborts_on_unparsable_file_witness :
  build_graph 100 10000 dup_store = Ok dup_built /\
  ends_with ".json" "bad.json" = true /\
  load no_file no_samefile 100 10000 (dup_store ++ ("bad.json", Garbage) :: chain_store)
  = Raise (Exn ValueError "Expecting value").
Proof.
  assert (H1 : build_graph 100 10000 dup_store = Ok dup_built)
    by (vm_compute; reflexivity).
  assert (H2 : ends_with ".json" "bad.json" = true) by reflexivity.
  split; [exact H1|]. split; [exact H2|].
  exact (load_aborts_on_unparsable_file no_file no_samefile 100 10000 "bad.json"
           dup_store chain_store dup_built H1 H2).
Defined.

Lemma load_log_witness :
  load no_file no_samefile 100 10000 chain_store = Ok chain_loaded /\
  exists m, chain_loaded.2 = omap invalid_warning chain_store ++ [m] /\
            starts_with "UNKNOWN_ORIGIN:" m = true.
Proof.
  assert (H1 : load no_file no_samefile 100 10000 chain_store
               = Ok (chain_loaded.1, chain_loaded.2)) by (vm_compute; reflexivity).
  split; [exact H1|].
  exact (load_log no_file no_samefile 100 10000 chain_store _ _ H1).
Defined.

(** ** From the recorder to the loader *)

Section RecorderToLoader.

Variable hasher : string -> string.
Variable os_realpath os_abspath : string -> string.
Variable os_stat : string -> option stat_result.
Variable getpwuid : Z -> option string.
Variable crc32_hex : json -> string.
Variable version_info run_env argv : json.

Abbreviation run'' := (run_cmd_with_tracking hasher os_realpath os_abspath os_stat
                         getpwuid crc32_hex version_info run_env argv).
Abbreviation step_data'' := (step_data hasher os_realpath os_abspath os_stat
                               getpwuid version_info run_env argv).

(** X11. With tracking on and nothing failing in the recording, every run
    that gets past the reuse check writes exactly one record, whatever the
    outcome of the command. Its file name ends in [.json]; the record
    passes [is_valid_step_record]; it carries the step id, the stack of
    running steps found on entry as [enclosing_steps], and as exception the
    traceback of an error of class Exception, null otherwise. *)
Theorem tracked_run_writes_one_record inv cmd_main w r w1 :
  reuse_cached_step (inv_cmd_module inv) (inv_cmd_name inv)
    (push_step (step_id_of inv) w) = Ok tt ->
  cmd_main (push_step (step_id_of inv) w) = (r, w1) ->
  is_Some (w_env w1 !! "VIRAL_NGS_METADATA_PATH") ->
  exists rec step,
    w_store (run'' inv cmd_main None w).2
    = settext (record_file_name crc32_hex inv rec) (Parsed rec) (w_store w1) /\
    ends_with ".json" (record_file_name crc32_hex inv rec) = true /\
    is_valid_step_record rec = true /\
    getitem rec "step" = Ok step /\
    getitem step "step_id" = Ok (JStr (step_id_of inv)) /\
    run_info_field step "exception" = Ok (recorded_exception r) /\
    get_default step "enclosing_steps" (JStr "") = Ok (JStr (steps_running w)).
Proof.
  intros Hreuse Hcmd Hon. unfold run_cmd_with_tracking.
  rewrite Hreuse, Hcmd.
  assert (Hen : is_metadata_tracking_enabled
                  (set_env STEPS_RUNNING (steps_running w) w1) = true).
  { unfold is_metadata_tracking_enabled, set_env. simpl.
    apply bool_decide_eq_true. by rewrite lookup_insert_ne. }
  assert (Hname : forall rec, ends_with ".json" (record_file_name crc32_hex inv rec) = true).
  { intros rec. unfold record_file_name. cbn [String.concat].
    rewrite <- !string_app_assoc. apply ends_with_append. }
  destruct r as [v|e]; cbn [classify].
  - unfold record_metadata. rewrite Hen. cbn [negb andb fmap option_fmap option_map].
    eexists _, _. split; [reflexivity|]. split; [apply Hname|].
    repeat split; reflexivity.
  - destruct (is_Exception (exn_cls e)) eqn:He.
    + assert (Hki : is_KeyboardInterrupt (exn_cls e) = false)
        by (destruct (exn_cls e); done).
      unfold record_metadata. rewrite Hen, Hki.
      cbn [negb andb fmap option_fmap option_map].
      eexists _, _. split; [reflexivity|]. split; [apply Hname|].
      cbn [recorded_exception]. rewrite He. repeat split; reflexivity.
    + unfold record_metadata. rewrite Hen.
      cbn [negb andb fmap option_fmap option_map].
      eexists _, _. split; [reflexivity|]. split; [apply Hname|].
      cbn [recorded_exception]. rewrite He. repeat split; reflexivity.
Qed.

Lemma step_data_fields inv mdcl run_id save exc oe res :
  exists step,
    is_valid_step_record (step_data'' inv mdcl run_id save exc oe res) = true /\
    getitem (step_data'' inv mdcl run_id save exc oe res) "step" = Ok step /\
    run_info_field step "exception" = Ok (json_of_option_string exc) /\
    get_default step "enclosing_steps" (JStr "") = Ok (JStr save).
Proof. eexists. repeat split; reflexivity. Qed.

(** X12. The record of a command that ran inside another command, or that
    failed with an error of class Exception, is left out by [load]: the
    graph is the one of the store without it. *)
Theorem load_excludes_recorded_nested_or_failed_run
  isfile samefile now max_age_days inv mdcl run_id save exc oe res fname S1 S2 :
  save <> "" \/ (exists t, exc = Some t /\ t <> "") ->
  load isfile samefile now max_age_days
    (S1 ++ (fname, Parsed (step_data'' inv mdcl run_id save exc oe res)) :: S2)
  = load isfile samefile now max_age_days (S1 ++ S2).
Proof.
  intros Hcase. apply load_without_skipped. intros st.
  destruct (step_data_fields inv mdcl run_id save exc oe res)
    as (step & Hv & Hs & He & Hn).
  unfold load_file. destruct (negb (ends_with ".json" fname)); [done|].
  rewrite Ok_bind, Hv. cbn [negb]. rewrite Hs, Ok_bind, He, Ok_bind.
  destruct Hcase as [Hsave|(t & -> & Ht)].
  - destruct (truthy (json_of_option_string exc)); [done|].
    rewrite Hn, Ok_bind. cbn [truthy]. by rewrite bool_decide_eq_false_2.
  - cbn [json_of_option_string truthy]. by rewrite bool_decide_eq_false_2.
Qed.

End RecorderToLoader.

Lemma tracked_run_writes_one_record_witness :
  let w := tracking_world in
  let pushed := push_step (step_id_of sample_invocation) w in
  reuse_cached_step "read_utils" "sort_bam" pushed = Ok tt /\
  is_Some (w_env pushed !! "VIRAL_NGS_METADATA_PATH") /\
  exists rec step,
    w_store (sample_run (cmd_raises KeyboardInterrupt) None w).2
    = settext (record_file_name sample_crc sample_invocation rec) (Parsed rec)
        (w_store pushed) /\
    ends_with ".json" (record_file_name sample_crc sample_invocation rec) = true /\
    is_valid_step_record rec = true /\
    getitem rec "step" = Ok step /\
    getitem step "step_id" = Ok (JStr (step_id_of sample_invocation)) /\
    run_info_field step "exception"
    = Ok (recorded_exception (Raise (Exn KeyboardInterrupt "Traceback"))) /\
    get_default step "enclosing_steps" (JStr "") = Ok (JStr (steps_running w)).
Proof.
  intros w pushed.
  assert (H1 : reuse_cached_step (inv_cmd_module sample_invocation)
                 (inv_cmd_name sample_invocation) pushed = Ok tt) by reflexivity.
  assert (H2 : cmd_raises KeyboardInterrupt pushed
               = (Raise (Exn KeyboardInterrupt "Traceback"), pushed)) by reflexivity.
  assert (H3 : is_Some (w_env pushed !! "VIRAL_NGS_METADATA_PATH")).
  { apply (bool_decide_unpack _). vm_compute. exact I. }
  split; [exact H1|]. split; [exact H3|].
  exact (tracked_run_writes_one_record sample_hasher same_path same_path (stat_at 900)
           sample_getpwuid sample_crc JNull JNull JNull sample_invocation
           (cmd_raises KeyboardInterrupt) w _ _ H1 H2 H3).
Defined.

Lemma load_excludes_recorded_nested_or_failed_run_witness :
  let rec := step_data sample_hasher same_path same_path (stat_at 900)
               sample_getpwuid JNull JNull JNull sample_invocation [] "run1"
               "outer_step" None true JNull in
  "outer_step" <> "" /\
  load no_file no_samefile 2000 10000 (one_step_store ++ ("r.json", Parsed rec) :: [])
  = load no_file no_samefile 2000 10000 (one_step_store ++ []).
Proof.
  intros rec.
  assert (H1 : "outer_step" <> "") by discriminate.
  split; [exact H1|].
  exact (load_excludes_recorded_nested_or_failed_run sample_hasher same_path same_path
           (stat_at 900) sample_getpwuid JNull JNull JNull no_file no_samefile
           2000 10000 sample_invocation [] "run1" "outer_step" None true JNull
           "r.json" one_step_store [] (or_introl H1)).
Defined.

(** ** File arguments, written and read back *)

Section FileArgs.

Variable hasher : string -> string.
Variable os_realpath os_abspath : string -> string.
Variable os_stat : string -> option stat_result.
Variable getpwuid : Z -> option string.

Abbreviation file2dict' := (file2dict hasher os_realpath os_abspath os_stat getpwuid).
Abbreviation gather_file_info' :=
  (gather_file_info hasher os_realpath os_abspath os_stat getpwuid).
Abbreviation write_obj' := (write_obj hasher os_realpath os_abspath os_stat getpwuid).

(** X13. A per-file entry written by the recorder has the four keys that
    [load] asks for exactly when the file was examined (an input, or an
    output of a command that did not fail) and [os.stat] succeeded; it then
    has an mtime as well, so [load] can always build its FileNode. *)
Theorem recorded_entry_keys mode out_files_exist file :
  dict_has_keys (JDict (file2dict' mode out_files_exist file)) file_entry_keys
  = (bool_decide (mode = "r") || out_files_exist)
    && bool_decide (is_Some (os_stat file)) /\
  (dict_has_keys (JDict (file2dict' mode out_files_exist file)) file_entry_keys = true ->
   dict_mem "mtime" (file2dict' mode out_files_exist file) = true).
Proof.
  unfold file2dict.
  destruct (bool_decide (mode = "r") || out_files_exist); cbn [andb].
  - destruct (os_stat file) as [st|].
    + rewrite bool_decide_eq_true_2 by eauto.
      destruct (getpwuid (st_uid st)); split; reflexivity.
    + rewrite bool_decide_eq_false_2 by (by intros [? ?]). split; [reflexivity|].
      discriminate.
  - split; [reflexivity|]. discriminate.
Qed.

(** X14. What the recorder writes for the file arguments of a command is
    what the loader finds: [gather_files] applied to a serialized argument
    returns the dicts of its FileArg objects, in order, through any
    nesting of lists. *)
Theorem gather_files_of_written_arg out_files_exist x :
  plain_scalars x ->
  gather_files (write_obj' out_files_exist x)
  = Ok (map (fun fa => gather_file_info' fa out_files_exist) (file_args_of x)).
Proof.
  revert x. fix IH 1. intros [v|fa|l] Hp.
  - destruct v; try reflexivity; destruct Hp.
  - reflexivity.
  - cbn [write_obj file_args_of gather_files].
    induction l as [|y l IHl]; [reflexivity|].
    destruct Hp as [Hy Hl]. cbn [map mjoin list_join].
    rewrite (IH y Hy), Ok_bind. rewrite (IHl Hl), Ok_bind.
    by rewrite map_app.
Qed.

End FileArgs.

Lemma gather_files_of_written_arg_witness :
  let x := AList [AFile (mkFileArg "/a.bam" "r" ["/a.bam"]); APlain (JStr "x");
                  AList [AFile (mkFileArg "/b" "w" ["/b.1"; "/b.2"])]] in
  plain_scalars x /\
  gather_files (write_obj sample_hasher same_path same_path stat_fails
                  sample_getpwuid true x)
  = Ok (map (fun fa => gather_file_info sample_hasher same_path same_path
                         stat_fails sample_getpwuid fa true)
            (file_args_of x)).
Proof.
  intros x.
  assert (H : plain_scalars x) by (simpl; tauto).
  split; [exact H|].
  exact (gather_files_of_written_arg sample_hasher same_path same_path stat_fails
           sample_getpwuid true x H).
Defined.

(** ** The point query *)

Lemma pred_in_no_target es v :
  (forall e, e ∈ es -> e.1.2 <> v) -> pred_in es v = [].
Proof.
  unfold pred_in. induction es as [|e es IH]; [done|]. intros H.
  cbn [omap list_omap]. rewrite bool_decide_eq_false_2 by (apply H; left).
  apply IH. intros e' He'. apply H. by right.
Qed.

Lemma file_nodes_add_node n a G m :
  m ∈ file_nodes (add_node n a G) -> m = n \/ m ∈ file_nodes G.
Proof.
  intros H. destruct (decide (m = n)) as [->|Hne]; [auto|]. right.
  apply elem_of_file_nodes in H as [Hk Hin]. apply elem_of_file_nodes.
  rewrite is_fnode_add_node_ne in Hk by done. split; [done|].
  unfold add_node in Hin. cbn [g_nodes] in Hin. rewrite upd_node_fst in Hin.
  destruct (node_attrs_in (g_nodes G) n); [done|].
  apply elem_of_app in Hin as [?|Hin]; [done|].
  by apply list_elem_of_singleton in Hin.
Qed.

Lemma file_nodes_add_file n G :
  has_node G n = false ->
  n ∈ file_nodes (add_node n [("node_kind", JStr "file")] G).
Proof.
  intros Hn. apply elem_of_file_nodes.
  unfold has_node, node_attrs in Hn.
  destruct (node_attrs_in (g_nodes G) n) eqn:E; [discriminate|]. split.
  - unfold is_fnode, node_kind_is, node_attrs, add_node. cbn [g_nodes].
    clear Hn. induction (g_nodes G) as [|[m b] l IH].
    + cbn. by rewrite !bool_decide_eq_true_2.
    + cbn [node_attrs_in upd_node] in *.
      case_bool_decide as Em; [discriminate|]. cbn [node_attrs_in].
      rewrite bool_decide_eq_false_2 by done. by apply IH.
  - unfold add_node. cbn [g_nodes]. rewrite upd_node_fst, E.
    apply elem_of_app. right. left.
Qed.

Section PointQuery.

Variable isfile : string -> bool.
Variable samefile : string -> string -> bool.

Lemma fnode_maker_cases G f :
  f ∈ file_nodes G ->
  exists r, reconstruct_fnode_maker isfile samefile G f = Ok r /\
    match r with
    | Some f2 =>
        f2 ∈ file_nodes G /\ f2 <> f /\ node_hash f2 = node_hash f /\
        same_path_class isfile samefile f f2 /\
        forall c, c ∈ file_nodes G -> c <> f -> node_hash c = node_hash f ->
                  same_path_class isfile samefile f c ->
                  node_mtime c <= node_mtime f2
    | None =>
        forall c, c ∈ file_nodes G -> node_hash c = node_hash f ->
                  same_path_class isfile samefile f c -> c = f
    end.
Proof.
  intros Hf. unfold reconstruct_fnode_maker. cbv zeta.
  set (f2s := filter (fun f2 => f2 <> f) _).
  assert (Hin : forall c, c ∈ f2s <->
            c <> f /\ c ∈ file_nodes G /\ node_hash c = node_hash f /\
            same_path_class isfile samefile f c).
  { intros c. unfold f2s.
    by rewrite list_elem_of_filter, elem_of_same_hash_and_path. }
  destruct (last (sorted_asc node_mtime f2s)) as [f2|] eqn:Hlast.
  - apply (last_sorted_max node_mtime) in Hlast as [H2 Hmax];
      [|apply sorted_asc_sorted].
    apply elem_of_sorted_asc, Hin in H2 as (Hne & H2 & Hh & Hp).
    rewrite !bool_decide_eq_true_2 by done. cbn [andb].
    exists (Some f2). split; [done|]. repeat split; try done.
    intros c Hc Hcf Hch Hcp. apply Hmax, elem_of_sorted_asc, Hin. auto.
  - exists None. split; [done|]. intros c Hc Hch Hcp.
    destruct (decide (c = f)) as [|Hne]; [done|]. exfalso.
    apply last_None in Hlast.
    assert (Hc' : c ∈ sorted_asc node_mtime f2s)
      by (apply elem_of_sorted_asc, Hin; auto).
    rewrite Hlast in Hc'. by apply elem_of_nil in Hc'.
Qed.

(** X17. [_reconstruct_fnode_maker] on a file node of the graph never
    raises: its assertion cannot fail. It returns a node exactly when
    another file node has the same hash at the same place, and then the one
    with the greatest mtime among them, whether earlier or later than the
    node asked about; otherwise it returns None. *)
Theorem fnode_maker_spec G f :
  f ∈ file_nodes G ->
  exists r, reconstruct_fnode_maker isfile samefile G f = Ok r /\
    match r with
    | Some f2 =>
        f2 ∈ file_nodes G /\ f2 <> f /\ node_hash f2 = node_hash f /\
        same_path_class isfile samefile f f2 /\
        forall c, c ∈ file_nodes G -> c <> f -> node_hash c = node_hash f ->
                  same_path_class isfile samefile f c ->
                  node_mtime c <= node_mtime f2
    | None =>
        forall c, c ∈ file_nodes G -> node_hash c = node_hash f ->
                  same_path_class isfile samefile f c -> c = f
    end.
Proof. apply fnode_maker_cases. Qed.

Variable hasher : string -> string.
Variable os_realpath : string -> string.
Variable os_stat : string -> option stat_result.

(** X18. [print_provenance] of a file whose content is unknown to a loaded
    graph (the file's node is not in the graph and no file node has its
    hash) fails with a bare AssertionError, from [assert f_node in G] with
    f_node None, and not with the message 'No provenance info for file'. *)
Theorem provenance_of_unknown_content_fails now max_age S G log fname st :
  load isfile samefile now max_age S = Ok (G, log) ->
  os_stat fname = Some st ->
  has_node G (FNode (os_realpath fname) (hasher fname) (st_mtime st)) = false ->
  (forall c, c ∈ file_nodes G -> node_hash c <> hasher fname) ->
  print_provenance isfile samefile hasher os_realpath os_stat G fname
  = Raise (Exn AssertionError "").
Proof.
  intros Hload Hst Hnew Hhash. apply load_ok in Hload as (_ & _ & Hclosed).
  unfold print_provenance. rewrite Hst, Ok_bind, Hnew.
  set (f := FNode _ _ _) in *.
  set (G' := add_node f _ G).
  assert (Hdeg : in_degree G' f = 0%nat).
  { unfold in_degree, pred, G', add_node. cbn [g_edges].
    rewrite pred_in_no_target; [done|].
    intros e He <-. destruct (Hclosed _ He) as [_ Hv]. congruence. }
  rewrite Hdeg. cbn [Nat.ltb Nat.leb].
  assert (Hf : f ∈ file_nodes G') by (by apply file_nodes_add_file).
  destruct (fnode_maker_cases G' f Hf) as (r & -> & Hr).
  rewrite Ok_bind. destruct r as [f2|]; [|done]. exfalso.
  destruct Hr as (H2 & Hne & Hh & _).
  apply file_nodes_add_node in H2 as [?|H2]; [done|].
  by apply (Hhash _ H2).
Qed.

End PointQuery.

Lemma fnode_maker_spec_witness :
  let f := FNode "/f1" "h1" 10 in
  let G := add_node f [("node_kind", JStr "file")] later_graph in
  f ∈ file_nodes G /\
  exists r, reconstruct_fnode_maker no_file no_samefile G f = Ok r /\
    match r with
    | Some f2 =>
        f2 ∈ file_nodes G /\ f2 <> f /\ node_hash f2 = node_hash f /\
        same_path_class no_file no_samefile f f2 /\
        forall c, c ∈ file_nodes G -> c <> f -> node_hash c = node_hash f ->
                  same_path_class no_file no_samefile f c ->
                  node_mtime c <= node_mtime f2
    | None =>
        forall c, c ∈ file_nodes G -> node_hash c = node_hash f ->
                  same_path_class no_file no_samefile f c -> c = f
    end.
Proof.
  intros f G.
  assert (Hf : f ∈ file_nodes G)
    by (apply (bool_decide_unpack _); vm_compute; exact I).
  split; [exact Hf|].
  exact (fnode_maker_spec no_file no_samefile G f Hf).
Defined.

Lemma provenance_of_unknown_content_fails_witness :
  load no_file no_samefile 100 10000 repair_store = Ok repair_loaded /\
  print_provenance no_file no_samefile sample_hasher same_path (stat_at 10)
    repair_loaded.1 "/new" = Raise (Exn AssertionError "").
Proof.
  assert (H1 : load no_file no_samefile 100 10000 repair_store
               = Ok (repair_loaded.1, repair_loaded.2)) by (vm_compute; reflexivity).
  split; [exact H1|].
  refine (provenance_of_unknown_content_fails no_file no_samefile sample_hasher
            same_path (stat_at 10) 100 10000 repair_store _ _ "/new" _
            H1 eq_refl _ _).
  - vm_compute. reflexivity.
  - apply Forall_forall. apply (bool_decide_unpack _). vm_compute. exact I.
Defined.

(** ** The extracted Comps *)

Lemma foldM_inv_elem {A S} (P : S -> Prop) (f : S -> A -> result S) l :
  (forall s a s', a ∈ l -> P s -> f s a = Ok s' -> P s') ->
  forall s s', P s -> foldM f s l = Ok s' -> P s'.
Proof.
  induction l as [|a l IH]; simpl; intros Hstep s s' Hs H.
  - congruence.
  - inv_bind H. eapply IH; [|eapply Hstep; [left|exact Hs|exact Hx]|exact H].
    intros s1 b s2 Hb. apply Hstep. by right.
Qed.

Lemma elem_of_add_new acc ns x : x ∈ add_new acc ns <-> x ∈ acc \/ x ∈ ns.
Proof.
  unfold add_new. revert acc. induction ns as [|n ns IH]; intros acc; cbn [foldl].
  - rewrite elem_of_nil. tauto.
  - rewrite IH, elem_of_cons. case_bool_decide as E.
    + split; [tauto|]. intros [?|[->|?]]; auto.
    + rewrite elem_of_app, list_elem_of_singleton. tauto.
Qed.

Lemma last_char_None s : last_char s = None -> s = "".
Proof. destruct s as [|c s]; [done|]. cbn. by destruct (last_char s). Qed.

(** A pattern that ends in a literal character matches only strings that
    end in that character. *)
Lemma fnmatch_last_char pat s c :
  last_char pat = Some c -> c <> "*"%char ->
  fnmatch s pat = true -> last_char s = Some c.
Proof.
  unfold fnmatch. intros Hl Hc. revert s.
  induction pat as [|p pat IH]; [done|]. intros s.
  cbn [last_char] in Hl. cbn [fnmatch_pat]. case_bool_decide as Ep.
  - destruct (last_char pat) as [d|] eqn:Ed; [|congruence].
    induction s as [|x s IHs].
    + rewrite orb_false_r. by apply IH.
    + intros H. apply orb_true_iff in H as [H|H]; [by apply IH|].
      cbn [last_char]. by rewrite (IHs H).
  - destruct s as [|x s]; [done|]. intros H.
    apply andb_true_iff in H as [Hx H]. apply bool_decide_eq_true in Hx as <-.
    cbn [last_char]. destruct (last_char pat) as [d|] eqn:Ed.
    + by rewrite (IH Hl _ H).
    + apply last_char_None in Ed as ->. cbn [fnmatch_pat] in H.
      apply bool_decide_eq_true in H as ->. cbn. congruence.
Qed.

Lemma raw_input_not_output n : raw_input n -> assembly_output n -> False.
Proof.
  unfold raw_input, assembly_output. intros H1 H2.
  apply (fnmatch_last_char _ _ "m"%char) in H1; [|done|done].
  apply (fnmatch_last_char _ _ "a"%char) in H2; [|done|done].
  congruence.
Qed.

(** What the extractor guarantees of a Comp. *)
Lemma extract_comp_for_shape (P : Comp -> Prop) G beg_nodes comps end_node comps' :
  (forall b s,
     b ∈ beg_nodes -> b ∈ closure G end_node ->
     s ∈ succ G end_node -> is_metrics_step G s ->
     P (mkComp (add_new (closure G end_node) [s]) [b] [end_node])) ->
  Forall P comps ->
  extract_comp_for G beg_nodes comps end_node = Ok comps' ->
  Forall P comps'.
Proof.
  intros HP Hcomps. unfold extract_comp_for. fold (closure G end_node).
  cbv zeta. set (beg := filter (fun f => f ∈ closure G end_node) beg_nodes).
  intros H.
  case_bool_decide as Hbeg; [by injection H as <-|].
  case_bool_decide as Hlen; cbn [negb] in H; [|discriminate].
  inv_bind H. rename x into fam. apply filterM_Ok in Hx as [_ Hfam].
  case_bool_decide as Hfam0; [by injection H as <-|].
  inv_bind H. rename x into keyed. apply mapM_keyed_elem in Hx as [Hk1 _].
  destruct (sorted_desc snd keyed) as [|[s0 t0] rest] eqn:Hsort;
    [by injection H as <-|].
  injection H as <-. apply Forall_app. split; [done|].
  apply Forall_singleton.
  destruct beg as [|b [|b' beg']] eqn:Eb; try done.
  assert (Hb : b ∈ beg) by (rewrite Eb; left).
  apply list_elem_of_filter in Hb as [Hb1 Hb2].
  assert (Hs0 : (s0, t0) ∈ keyed).
  { apply (elem_of_sorted_desc snd). rewrite Hsort. left. }
  apply Hk1 in Hs0 as [Hs0 _]. apply Hfam in Hs0 as [Hs0 Hn].
  apply HP; try done.
  unfold is_metrics_step. inv_bind Hn. injection Hn as Hn.
  apply json_is_str_true in Hn. by subst.
Qed.

(** X19. Every Comp that [extract_comps_assembly] returns has exactly one
    main input, a file node matching */data/00_raw/*.bam, and exactly one
    main output, a file node matching */data/02_assembly/*.fasta; the input
    is a proper ancestor of the output; and the nodes of the Comp are the
    output, its ancestors and one assembly_metrics step reading the
    output. *)
Theorem extracted_comps_shape G comps c :
  extract_comps_assembly G = Ok comps ->
  c ∈ comps ->
  exists b e s,
    main_inputs c = [b] /\ main_outputs c = [e] /\
    b ∈ file_nodes G /\ raw_input b /\
    e ∈ file_nodes G /\ assembly_output e /\
    b ∈ ancestors G e /\
    s ∈ succ G e /\ is_metrics_step G s /\
    (forall n, n ∈ nodes c <-> n = e \/ n ∈ ancestors G e \/ n = s).
Proof.
  unfold extract_comps_assembly. cbv zeta.
  fold (raw_input). fold (assembly_output).
  intros H Hc. revert c Hc. apply Forall_forall. revert H.
  apply foldM_inv_elem; [|constructor].
  intros comps1 e comps2 He Hcomps1.
  apply list_elem_of_filter in He as [He1 He2].
  apply extract_comp_for_shape; [|exact Hcomps1].
  intros b s Hb Hbc Hs Hm.
  rewrite elem_of_remove_dups in Hb.
  apply list_elem_of_filter in Hb as [Hb1 Hb2].
  assert (Hanc : b ∈ ancestors G e).
  { unfold closure in Hbc. apply elem_of_add_new in Hbc as [Hbc|Hbc]; [exact Hbc|].
    apply list_elem_of_singleton in Hbc. subst b.
    destruct (raw_input_not_output e Hb1 He1). }
  exists b, e, s.
  split; [reflexivity|]. split; [reflexivity|].
  split; [exact Hb2|]. split; [exact Hb1|].
  split; [exact He2|]. split; [exact He1|].
  split; [exact Hanc|]. split; [exact Hs|]. split; [exact Hm|].
  intros n. cbn [nodes]. unfold closure.
  rewrite !elem_of_add_new, !list_elem_of_singleton. tauto.
Qed.

Lemma extracted_comps_shape_witness :
  let out := FNode "/s/data/02_assembly/x.fasta" "h2" 20 in
  let raw := FNode "/s/data/00_raw/x.bam" "h1" 1 in
  let c := mkComp [SNode "A"; raw; out; SNode "M2"] [raw] [out] in
  extract_comps_assembly metrics_graph = Ok [c] /\
  exists b e s,
    main_inputs c = [b] /\ main_outputs c = [e] /\
    b ∈ file_nodes metrics_graph /\ raw_input b /\
    e ∈ file_nodes metrics_graph /\ assembly_output e /\
    b ∈ ancestors metrics_graph e /\
    s ∈ succ metrics_graph e /\ is_metrics_step metrics_graph s /\
    (forall n, n ∈ nodes c <-> n = e \/ n ∈ ancestors metrics_graph e \/ n = s).
Proof.
  intros out raw c.
  assert (H1 : extract_comps_assembly metrics_graph = Ok [c])
    by (vm_compute; reflexivity).
  split; [exact H1|].
  apply (extracted_comps_shape metrics_graph [c] c H1). left.
Defined.

(** ** The cache of data files *)

Section CacheFacts.

Variable hasher : string -> string.
Variable os_realpath : string -> string.
Variable os_abspath : string -> string.
Variable os_stat : string -> option stat_result.
Variable getpwuid : Z -> option string.

Variable FS : Type.
Variable os_isfile : FS -> string -> bool.
Variable copyfile : string -> string -> FS -> result FS.
Variable path_join : string -> string -> string.

Abbreviation file_info_of :=
  (gather_file_info hasher os_realpath os_abspath os_stat getpwuid).
Abbreviation file_dict :=
  (file2dict hasher os_realpath os_abspath os_stat getpwuid).
Abbreviation cache := (cache_results os_isfile copyfile path_join).
Abbreviation cached := (has_file_with_hash os_isfile path_join).
Abbreviation save := (save_file os_isfile copyfile path_join).

Lemma file2dict_without_hash mode f :
  mode <> "r" -> dict_mem "hash" (file_dict mode false f) = false.
Proof.
  intros Hm. unfold file2dict. by rewrite bool_decide_eq_false_2.
Qed.

Lemma file2dict_with_hash mode f :
  dict_mem "hash" (file_dict mode true f) = true /\
  dict_get "hash" (file_dict mode true f) = Some (JStr (hasher f)) /\
  dict_get "abspath" (file_dict mode true f) = Some (JStr (os_abspath f)).
Proof.
  unfold file2dict. rewrite orb_true_r.
  destruct (os_stat f) as [st|]; [destruct (getpwuid (st_uid st))|];
    repeat split; reflexivity.
Qed.

Lemma cache_file_of_output d mode f fs :
  cache_file os_isfile copyfile path_join d fs (JDict (file_dict mode true f))
  = save d (os_abspath f) (hasher f) fs.
Proof.
  destruct (file2dict_with_hash mode f) as (Hm & Hh & Ha).
  unfold cache_file, py_in, getitem. rewrite Hm, Ok_bind, Ha, Ok_bind, Hh.
  reflexivity.
Qed.

Lemma cache_file_of_failed d mode f fs :
  mode <> "r" ->
  cache_file os_isfile copyfile path_join d fs (JDict (file_dict mode false f))
  = Ok fs.
Proof.
  intros Hm. unfold cache_file, py_in.
  by rewrite file2dict_without_hash.
Qed.

Lemma getitem_mode fa b :
  getitem (file_info_of fa b) "mode" = Ok (JStr (fa_mode fa)).
Proof. reflexivity. Qed.

Lemma getitem_files fa b :
  getitem (file_info_of fa b) "files"
  = Ok (JList (map (fun f => JDict (file_dict (fa_mode fa) b f)) (fa_fnames fa))).
Proof. reflexivity. Qed.

(** With the cache on, the output files of a command that returned are
    offered to the cache one by one, each under the hash recorded for it. *)
Lemma cache_results_of_outputs env d fa fs :
  env !! "VIRAL_NGS_DATA_CACHE" = Some d -> fa_mode fa <> "r" ->
  cache env (file_info_of fa true) fs
  = foldM (fun fs f => save d (os_abspath f) (hasher f) fs) fs (fa_fnames fa).
Proof.
  intros Hd Hm. unfold cache_results. rewrite Hd.
  rewrite getitem_mode, getitem_files, Ok_bind. unfold json_is_str.
  rewrite bool_decide_eq_false_2 by done.
  rewrite Ok_bind. cbn [py_iter]. rewrite Ok_bind.
  revert fs. induction (fa_fnames fa) as [|f l IH]; intros fs; [done|].
  cbn [map foldM]. rewrite cache_file_of_output.
  destruct (save _ _ _ _) as [fs1|e]; [|done]. rewrite !Ok_bind. apply IH.
Qed.

(** X20. [cache_results] leaves the cache alone for an input argument and
    for any argument of a command that raised: the files of a failed
    command are recorded without a hash and never enter the cache. *)
Theorem cache_untouched_by_inputs_and_failures env fa out_files_exist fs :
  fa_mode fa = "r" \/ out_files_exist = false ->
  cache_results os_isfile copyfile path_join env
    (gather_file_info hasher os_realpath os_abspath os_stat getpwuid fa out_files_exist) fs = Ok fs.
Proof.
  intros H. unfold cache_results.
  destruct (env !! "VIRAL_NGS_DATA_CACHE") as [d|]; [|done].
  rewrite getitem_mode, getitem_files, Ok_bind. unfold json_is_str.
  destruct (decide (fa_mode fa = "r")) as [Hr|Hr];
    [by rewrite bool_decide_eq_true_2|].
  rewrite bool_decide_eq_false_2 by done.
  destruct H as [?| ->]; [done|].
  rewrite Ok_bind. cbn [py_iter]. rewrite Ok_bind.
  induction (fa_fnames fa) as [|f l IH]; [done|].
  cbn [map foldM]. rewrite cache_file_of_failed by done.
  rewrite Ok_bind. apply IH.
Qed.

(** What is assumed of [shutil.copyfile]: when it returns, the destination
    is a regular file and no other path has changed its kind. *)
Hypothesis copyfile_dst : forall src dst fs fs',
  copyfile src dst fs = Ok fs' -> os_isfile fs' dst = true.
Hypothesis copyfile_frame : forall src dst fs fs' p,
  copyfile src dst fs = Ok fs' -> p <> dst -> os_isfile fs' p = os_isfile fs p.

Lemma save_file_keeps d fname h0 h fs fs' :
  cached d h fs = true -> save d fname h0 fs = Ok fs' -> cached d h fs' = true.
Proof.
  unfold has_file_with_hash, save_file. intros Hh.
  destruct (os_isfile fs (path_join d h0)) eqn:E; cbn [negb];
    [by intros [= <-]|].
  intros Hc. destruct (decide (path_join d h = path_join d h0)) as [->|Hne].
  - eapply copyfile_dst, Hc.
  - by rewrite (copyfile_frame _ _ _ _ _ Hc Hne).
Qed.

Lemma save_file_cached d fname h fs fs' :
  save d fname h fs = Ok fs' -> cached d h fs' = true.
Proof.
  unfold has_file_with_hash, save_file.
  destruct (os_isfile fs (path_join d h)) eqn:E; cbn [negb].
  - by intros [= <-].
  - apply copyfile_dst.
Qed.

Lemma cache_file_keeps d h fs f fs' :
  cached d h fs = true ->
  cache_file os_isfile copyfile path_join d fs f = Ok fs' ->
  cached d h fs' = true.
Proof.
  intros Hh. unfold cache_file. intros H. inv_bind H.
  destruct x; [|by injection H as <-].
  do 4 (inv_bind H). by eapply save_file_keeps.
Qed.

(** X21. [cache_results] never takes a file out of the cache: a hash that
    the cache holds before the call is held after it, whatever the file
    info passed. Assumed of [shutil.copyfile]: on return the destination is
    a regular file and no other path has changed its kind. *)
Theorem cache_results_keeps_entries env d h file_info fs fs' :
  env !! "VIRAL_NGS_DATA_CACHE" = Some d ->
  has_file_with_hash os_isfile path_join d h fs = true ->
  cache_results os_isfile copyfile path_join env file_info fs = Ok fs' ->
  has_file_with_hash os_isfile path_join d h fs' = true.
Proof.
  intros Hd Hh. unfold cache_results. rewrite Hd. intros H.
  inv_bind H. destruct (json_is_str x "r"); [by injection H as <-|].
  inv_bind H. revert H.
  apply (foldM_inv (fun fs => cached d h fs = true)); [|done].
  intros fs1 f fs2. apply cache_file_keeps.
Qed.

(** X22. After [cache_results] has returned for an output argument of a
    command that returned, the cache holds every file of the argument under
    the hash that the step record gives for it. Assumed of
    [shutil.copyfile] as before. *)
Theorem successful_outputs_are_cached env d fa fs fs' f :
  env !! "VIRAL_NGS_DATA_CACHE" = Some d ->
  fa_mode fa <> "r" ->
  cache_results os_isfile copyfile path_join env
    (gather_file_info hasher os_realpath os_abspath os_stat getpwuid fa true) fs = Ok fs' ->
  f ∈ fa_fnames fa ->
  has_file_with_hash os_isfile path_join d (hasher f) fs' = true.
Proof.
  intros Hd Hm. rewrite (cache_results_of_outputs _ d) by done.
  revert fs. induction (fa_fnames fa) as [|f0 l IH]; intros fs H Hf.
  - by apply elem_of_nil in Hf.
  - cbn [foldM] in H. inv_bind H.
    apply elem_of_cons in Hf as [->|Hf]; [|by eapply IH].
    apply save_file_cached in Hx. revert H.
    apply (foldM_inv (fun fs => cached d (hasher f0) fs = true)); [|done].
    intros fs1 g fs2. apply save_file_keeps.
Qed.

End CacheFacts.

Lemma flat_copyfile_dst src dst fs fs' :
  flat_copyfile src dst fs = Ok fs' -> flat_isfile fs' dst = true.
Proof.
  unfold flat_copyfile, flat_isfile. case_bool_decide; [|done].
  intros [= <-]. apply bool_decide_eq_true_2. left.
Qed.

Lemma flat_copyfile_frame src dst fs fs' p :
  flat_copyfile src dst fs = Ok fs' -> p <> dst ->
  flat_isfile fs' p = flat_isfile fs p.
Proof.
  unfold flat_copyfile, flat_isfile. case_bool_decide; [|done].
  intros [= <-] Hne. apply bool_decide_ext. rewrite elem_of_cons. tauto.
Qed.

Lemma cache_untouched_by_inputs_and_failures_witness :
  (fa_mode out_arg = "r" \/ false = false) /\
  cache_results flat_isfile flat_copyfile flat_join cache_env
    (gather_file_info sample_hasher same_path same_path (stat_at 10)
       sample_getpwuid out_arg false) ["out.fa"]
  = Ok ["out.fa"].
Proof.
  assert (H : fa_mode out_arg = "r" \/ false = false) by (right; reflexivity).
  split; [exact H|].
  exact (cache_untouched_by_inputs_and_failures sample_hasher same_path same_path
           (stat_at 10) sample_getpwuid _ flat_isfile flat_copyfile flat_join
           cache_env out_arg false ["out.fa"] H).
Defined.

Lemma cache_results_keeps_entries_witness :
  let fs := ["out.fa"; "/cache/sha1_old"] in
  let fs' := ["/cache/sha1_out.fa"; "out.fa"; "/cache/sha1_old"] in
  let info := gather_file_info sample_hasher same_path same_path (stat_at 10)
                sample_getpwuid out_arg true in
  cache_results flat_isfile flat_copyfile flat_join cache_env info fs = Ok fs' /\
  has_file_with_hash flat_isfile flat_join "/cache" "sha1_old" fs' = true.
Proof.
  intros fs fs' info.
  assert (H1 : cache_env !! "VIRAL_NGS_DATA_CACHE" = Some "/cache")
    by (vm_compute; reflexivity).
  assert (H2 : has_file_with_hash flat_isfile flat_join "/cache" "sha1_old" fs = true)
    by (vm_compute; reflexivity).
  assert (H3 : cache_results flat_isfile flat_copyfile flat_join cache_env info fs
               = Ok fs') by (vm_compute; reflexivity).
  split; [exact H3|].
  exact (cache_results_keeps_entries _ flat_isfile flat_copyfile flat_join
           flat_copyfile_dst flat_copyfile_frame cache_env "/cache" "sha1_old"
           info fs fs' H1 H2 H3).
Defined.

Lemma successful_outputs_are_cached_witness :
  let fs := ["out.fa"] in
  let fs' := ["/cache/sha1_out.fa"; "out.fa"] in
  cache_results flat_isfile flat_copyfile flat_join cache_env
    (gather_file_info sample_hasher same_path same_path (stat_at 10)
       sample_getpwuid out_arg true) fs = Ok fs' /\
  has_file_with_hash flat_isfile flat_join "/cache" (sample_hasher "out.fa") fs'
  = true.
Proof.
  intros fs fs'.
  assert (H1 : cache_env !! "VIRAL_NGS_DATA_CACHE" = Some "/cache")
    by (vm_compute; reflexivity).
  assert (H2 : fa_mode out_arg <> "r") by discriminate.
  assert (H3 : cache_results flat_isfile flat_copyfile flat_join cache_env
                 (gather_file_info sample_hasher same_path same_path (stat_at 10)
                    sample_getpwuid out_arg true) fs = Ok fs')
    by (vm_compute; reflexivity).
  assert (H4 : "out.fa" ∈ fa_fnames out_arg) by left.
  split; [exact H3|].
  exact (successful_outputs_are_cached sample_hasher same_path same_path
           (stat_at 10) sample_getpwuid _ flat_isfile flat_copyfile flat_join
           flat_copyfile_dst flat_copyfile_frame cache_env "/cache" out_arg
           fs fs' "out.fa" H1 H2 H3 H4).
Defined.

(** ** Masking of secrets *)

Lemma contains_at_cons x s :
  contains "@" (String x s) = bool_decide (x = "@"%char) || contains "@" s.
Proof.
  cbn [contains String.prefix]. destruct (ascii_dec "@" x) as [<-|Hne].
  - by destruct s.
  - by rewrite bool_decide_eq_false_2.
Qed.

Lemma contains_at_index s :
  contains "@" s = true -> is_Some (str_index "@" s).
Proof.
  induction s as [|x s IH]; [done|]. rewrite contains_at_cons.
  cbn [str_index]. case_bool_decide as E; [by eexists|].
  cbn [orb]. intros H. destruct (IH H) as [i ->]. by eexists.
Qed.

Lemma str_index_split pre rest :
  contains "@" pre = false ->
  contains "@" (pre +:+ String "@" rest) = true /\
  str_index "@" (pre +:+ String "@" rest) = Some (String.length pre) /\
  str_from (String.length pre + 1) (pre +:+ String "@" rest) = rest.
Proof.
  induction pre as [|x pre IH].
  - intros _. change ("" +:+ String "@" rest) with (String "@" rest).
    split; [|split].
    + rewrite contains_at_cons. by rewrite bool_decide_eq_true_2.
    + cbn [String.append str_index String.length].
      by rewrite bool_decide_eq_true_2.
    + reflexivity.
  - rewrite contains_at_cons. intros H.
    apply orb_false_iff in H as [Hx H]. destruct (IH H) as (H1 & H2 & H3).
    change (String x pre +:+ String "@" rest)
      with (String x (pre +:+ String "@" rest)).
    rewrite contains_at_cons, H1, orb_true_r.
    cbn [str_index String.length]. rewrite Hx, H2.
    split; [reflexivity|]. split; [reflexivity|]. exact H3.
Qed.

(** X23. Masking drops the credentials of an s3 URL: everything between
    s3:// and the first @ is removed, so the masked URL does not depend on
    it. *)
Theorem mask_hides_credentials key rest :
  contains "@" key = false ->
  mask_secret_info ("s3://" +:+ key +:+ "@" +:+ rest) = Ok ("s3://" +:+ rest).
Proof.
  intros Hkey. unfold mask_secret_info, starts_with.
  rewrite prefix_append.
  assert (Hpre : contains "@" ("s3://" +:+ key) = false).
  { change ("s3://" +:+ key)
      with (String "s" (String "3" (String ":" (String "/" (String "/" key))))).
    by rewrite !contains_at_cons, Hkey. }
  destruct (str_index_split ("s3://" +:+ key) rest Hpre) as (H1 & H2 & H3).
  change ("@" +:+ rest) with (String "@" rest).
  rewrite <- (string_app_assoc "s3://" key (String "@" rest)).
  by rewrite H1, H2, H3.
Qed.

(** X24. [_mask_secret_info] never raises: [fs_url.index('@')] is reached
    only when the URL holds an @. *)
Theorem mask_secret_info_returns fs_url :
  exists masked, mask_secret_info fs_url = Ok masked.
Proof.
  unfold mask_secret_info.
  destruct (starts_with "s3://" fs_url); cbn [andb]; [|by eexists].
  destruct (contains "@" fs_url) eqn:E; [|by eexists].
  destruct (contains_at_index _ E) as [i ->]. by eexists.
Qed.

Lemma mask_hides_credentials_witness :
  contains "@" "KEY:SECRET" = false /\
  mask_secret_info "s3://KEY:SECRET@bucket/dir" = Ok "s3://bucket/dir".
Proof.
  assert (H : contains "@" "KEY:SECRET" = false) by (vm_compute; reflexivity).
  split; [exact H|].
  exact (mask_hides_credentials "KEY:SECRET" "bucket/dir" H).
Defined.

(** ** Grouping of Comps *)

Lemma string_compare_eq x y : String.compare x y = Eq <-> x = y.
Proof. apply OrderedTypeEx.String_as_OT.cmp_eq. Qed.

Lemma string_compare_antisym x y :
  String.compare y x = CompOpp (String.compare x y).
Proof. apply String.compare_antisym. Qed.

Lemma string_compare_trans x y z c :
  String.compare x y = c -> String.compare y z = c -> String.compare x z = c.
Proof.
  assert (Hlt : forall a b d, String.compare a b = Lt -> String.compare b d = Lt ->
                              String.compare a d = Lt).
  { intros a b d H1 H2.
    apply OrderedTypeEx.String_as_OT.cmp_lt.
    apply OrderedTypeEx.String_as_OT.cmp_lt in H1, H2.
    eapply OrderedTypeEx.String_as_OT.lt_trans; eauto. }
  destruct c.
  - rewrite !string_compare_eq. congruence.
  - apply Hlt.
  - intros H1 H2.
    rewrite (string_compare_antisym z x).
    rewrite (Hlt z y x); [done| |].
    + by rewrite (string_compare_antisym y z), H2.
    + by rewrite (string_compare_antisym x y), H1.
Qed.

Abbreviation tuple_compare := (List.list_compare String.compare).

Lemma tuple_compare_eq a b : tuple_compare a b = Eq <-> a = b.
Proof. apply List.list_compare_refl, string_compare_eq. Qed.

Lemma tuple_compare_antisym a b :
  tuple_compare b a = CompOpp (tuple_compare a b).
Proof.
  apply List.list_compare_antisym;
    [apply string_compare_eq|apply string_compare_antisym].
Qed.

Lemma tuple_le_total a b : tuple_le a b = true \/ tuple_le b a = true.
Proof.
  unfold tuple_le. rewrite (tuple_compare_antisym a b).
  destruct (tuple_compare a b); auto.
Qed.

Lemma tuple_le_antisym a b :
  tuple_le a b = true -> tuple_le b a = true -> a = b.
Proof.
  unfold tuple_le. rewrite (tuple_compare_antisym a b).
  destruct (tuple_compare a b) eqn:E; try done.
  intros _ _. by apply tuple_compare_eq.
Qed.

Lemma tuple_le_trans a b c :
  tuple_le a b = true -> tuple_le b c = true -> tuple_le a c = true.
Proof.
  unfold tuple_le.
  destruct (tuple_compare a b) eqn:E1; try done;
    destruct (tuple_compare b c) eqn:E2; try done; intros _ _.
  - apply tuple_compare_eq in E1 as ->. by rewrite E2.
  - apply tuple_compare_eq in E1 as ->. by rewrite E2.
  - apply tuple_compare_eq in E2 as <-. by rewrite E1.
  - rewrite (List.list_compare_trans String.compare string_compare_eq a b c
               string_compare_trans string_compare_antisym E1 E2).
    done.
Qed.

Section Grouping.

Context {A : Type}.
Implicit Types (x y : list string * A) (l : list (list string * A)).

Lemma insert_by_key_perm x l : insert_by_key x l ≡ₚ x :: l.
Proof.
  induction l as [|y l IH]; [done|]. cbn [insert_by_key].
  destruct (tuple_le x.1 y.1); [done|]. rewrite IH. apply Permutation_swap.
Qed.

Lemma sorted_by_key_perm l : sorted_by_key l ≡ₚ l.
Proof.
  induction l as [|x l IH]; [done|].
  cbn [sorted_by_key foldr]. fold (sorted_by_key l).
  by rewrite insert_by_key_perm, IH.
Qed.

Lemma insert_by_key_sorted x l :
  StronglySorted key_le l -> StronglySorted key_le (insert_by_key x l).
Proof.
  induction l as [|y l IH]; cbn [insert_by_key]; intros Hs.
  - repeat constructor.
  - apply StronglySorted_cons in Hs as [Hy Hl].
    destruct (tuple_le x.1 y.1) eqn:E.
    + constructor; [by constructor|]. constructor; [exact E|].
      eapply Forall_impl; [exact Hy|]. intros z Hz.
      unfold key_le in *. by eapply tuple_le_trans.
    + constructor; [auto|].
      apply Forall_forall. intros z Hz.
      rewrite insert_by_key_perm in Hz.
      apply elem_of_cons in Hz as [->|Hz].
      * unfold key_le. destruct (tuple_le_total x.1 y.1); congruence.
      * rewrite Forall_forall in Hy. by apply Hy.
Qed.

Lemma sorted_by_key_sorted l : StronglySorted key_le (sorted_by_key l).
Proof.
  induction l as [|x l IH]; [constructor|]. by apply insert_by_key_sorted.
Qed.

(** The groups are the list cut into pieces, none of them empty, each of
    one key. *)
Lemma groupby_nonempty l : Forall (fun g => g <> []) (groupby l).
Proof.
  induction l as [|x l IH]; [constructor|]. cbn [groupby].
  destruct (groupby l) as [|[|y g] gs]; [by repeat constructor..|].
  apply Forall_cons in IH as [_ IH].
  case_bool_decide; repeat constructor; done.
Qed.

Lemma groupby_join l : mjoin (groupby l) = l.
Proof.
  induction l as [|x l IH]; [done|]. cbn [groupby].
  pose proof (groupby_nonempty l) as Hne.
  destruct (groupby l) as [|[|y g] gs].
  - cbn in IH. by subst.
  - by apply Forall_cons in Hne as [? _].
  - case_bool_decide;
      change (x :: mjoin ((y :: g) :: gs) = x :: l); by rewrite IH.
Qed.

Lemma groupby_one_key l :
  Forall (fun g => forall x y, x ∈ g -> y ∈ g -> x.1 = y.1) (groupby l).
Proof.
  induction l as [|x l IH]; [constructor|]. cbn [groupby].
  assert (H1 : forall a b : list string * A, a ∈ [x] -> b ∈ [x] -> a.1 = b.1).
  { intros a b Ha Hb. apply list_elem_of_singleton in Ha, Hb. by subst. }
  destruct (groupby l) as [|[|y g] gs]; [by repeat constructor..|].
  apply Forall_cons in IH as [Hg IH].
  case_bool_decide as E; [|by repeat constructor].
  constructor; [|done]. intros a b Ha Hb.
  assert (Hy : forall c, c ∈ x :: y :: g -> c.1 = y.1).
  { intros c Hc. apply elem_of_cons in Hc as [->|Hc]; [done|].
    apply Hg; [done|left]. }
  by rewrite (Hy a Ha), (Hy b Hb).
Qed.

(** In a sorted list no key comes back in a later group. *)
Lemma groupby_keys_apart l :
  StronglySorted key_le l ->
  forall i j g1 g2 x y,
    groupby l !! i = Some g1 -> groupby l !! j = Some g2 ->
    (i < j)%nat -> x ∈ g1 -> y ∈ g2 -> x.1 = y.1 -> False.
Proof.
  induction l as [|z l IH]; intros Hs i j g1 g2 x y Hi Hj Hij Hx Hy Hxy.
  - by destruct i.
  - apply StronglySorted_cons in Hs as [Hz Hs]. specialize (IH Hs).
    pose proof (groupby_join l) as Hjoin.
    pose proof (groupby_one_key l) as Hone.
    cbn [groupby] in Hi, Hj.
    destruct (groupby l) as [|[|y0 g0] gs0] eqn:Egl.
    + destruct j as [|j]; [lia|]. by destruct j.
    + destruct j as [|j]; [lia|]. by destruct j.
    + apply Forall_cons in Hone as [Hone _].
      destruct j as [|j]; [lia|].
      case_bool_decide as E.
      * cbn in Hj. destruct i as [|i]; cbn in Hi.
        -- injection Hi as <-.
           assert (Hx0 : y0.1 = y.1).
           { rewrite <- Hxy. apply elem_of_cons in Hx as [->|Hx]; [done|].
             apply Hone; [left|done]. }
           apply (IH 0%nat (S j) (y0 :: g0) g2 y0 y);
             [reflexivity|exact Hj|lia|left|exact Hy|exact Hx0].
        -- apply (IH (S i) (S j) g1 g2 x y);
             [exact Hi|exact Hj|lia|exact Hx|exact Hy|exact Hxy].
      * cbn in Hj. destruct i as [|i]; cbn in Hi.
        -- injection Hi as <-. apply list_elem_of_singleton in Hx as ->.
           apply E.
           assert (Hy0 : y0 ∈ l) by (rewrite <- Hjoin; left).
           assert (Hyl : y ∈ l).
           { rewrite <- Hjoin. apply list_elem_of_join. exists g2.
             split; [done|]. by eapply list_elem_of_lookup_2. }
           rewrite Forall_forall in Hz.
           apply tuple_le_antisym; [by apply Hz|].
           rewrite Hxy.
           assert (Hl : l = y0 :: mjoin ((g0 :: gs0))) by (by rewrite <- Hjoin).
           rewrite Hl in Hs, Hyl.
           apply StronglySorted_cons in Hs as [Hy0l _].
           apply elem_of_cons in Hyl as [->|Hyl].
           ++ destruct (tuple_le_total y0.1 y0.1); done.
           ++ rewrite Forall_forall in Hy0l. by apply Hy0l.
        -- apply (IH i j g1 g2 x y);
             [exact Hi|exact Hj|lia|exact Hx|exact Hy|exact Hxy].
Qed.

Lemma groupby_keys_differ l i j g1 g2 x y :
  StronglySorted key_le l ->
  groupby l !! i = Some g1 -> groupby l !! j = Some g2 ->
  x ∈ g1 -> y ∈ g2 -> x.1 = y.1 -> i = j.
Proof.
  intros Hs Hi Hj Hx Hy Hxy.
  destruct (lt_eq_lt_dec i j) as [[Hlt|Heq]|Hgt]; [|done|].
  - destruct (groupby_keys_apart l Hs i j g1 g2 x y); done.
  - destruct (groupby_keys_apart l Hs j i g2 g1 y x); done.
Qed.

End Grouping.

Lemma elem_of_map {A B} (f : A -> B) l y :
  y ∈ map f l <-> exists x, y = f x /\ x ∈ l.
Proof.
  induction l as [|a l IH]; cbn [map].
  - rewrite elem_of_nil. split; [done|]. intros (x & _ & Hx).
    by apply elem_of_nil in Hx.
  - rewrite elem_of_cons, IH. split.
    + intros [->|(x & -> & Hx)]; [exists a; split; [done|left]|].
      exists x. split; [done|by right].
    + intros (x & -> & Hx). apply elem_of_cons in Hx as [->|Hx]; [by left|].
      right. by exists x.
Qed.

Lemma lookup_map {A B} (f : A -> B) l i y :
  map f l !! i = Some y -> exists x, y = f x /\ l !! i = Some x.
Proof.
  revert i. induction l as [|a l IH]; intros [|i]; cbn; try done.
  - intros [= <-]. by exists a.
  - apply IH.
Qed.

Lemma join_map_map {A B} (f : A -> B) (gs : list (list A)) :
  mjoin (map (map f) gs) = map f (mjoin gs).
Proof.
  induction gs as [|g gs IH]; [done|].
  change (map f g ++ mjoin (map (map f) gs) = map f (g ++ mjoin gs)).
  by rewrite IH, map_app.
Qed.

Lemma mapM_keyed_inv {A K} (f : A -> result K) l r :
  mapM (fun c => k ← f c; Ok (k, c)) l = Ok r ->
  map snd r = l /\ Forall (fun p => f p.2 = Ok p.1) r.
Proof.
  intros H. apply mapM_Ok in H.
  induction H as [|a [k c] l r Ha H [IH1 IH2]]; [by split|].
  inv_bind Ha. injection Ha as <- <-. split.
  - cbn. by rewrite IH1.
  - by constructor.
Qed.

Lemma mapM_total {A B} (f : A -> result B) l :
  (forall a, a ∈ l -> exists b, f a = Ok b) -> exists r, mapM f l = Ok r.
Proof.
  induction l as [|a l IH]; intros H; [by eexists|].
  destruct (H a) as [b Hb]; [left|].
  destruct IH as [r Hr]; [intros a' Ha'; apply H; by right|].
  exists (b :: r). cbn [mapM]. by rewrite Hb, Ok_bind, Hr.
Qed.

(** The groups of [group_comps_by_main_input], with the key of each Comp. *)
Lemma group_comps_keyed comps groups :
  group_comps_by_main_input comps = Ok groups ->
  exists keyed,
    map snd keyed = comps /\
    Forall (fun p => comp_main_inputs_contents p.2 = Ok p.1) keyed /\
    groups = map (map snd) (groupby (sorted_by_key keyed)).
Proof.
  unfold group_comps_by_main_input. intros H. inv_bind H. injection H as <-.
  apply mapM_keyed_inv in Hx as [H1 H2]. by exists x.
Qed.

(** X25. [group_comps_by_main_input] cuts the Comps into groups: the groups
    together hold the given Comps, each as often as it was given, and no
    group is empty. *)
Theorem group_comps_partition comps groups :
  group_comps_by_main_input comps = Ok groups ->
  mjoin groups ≡ₚ comps /\ Forall (fun g => g <> []) groups.
Proof.
  intros H. apply group_comps_keyed in H as (keyed & <- & _ & ->). split.
  - rewrite join_map_map, groupby_join.
    apply Permutation_map, sorted_by_key_perm.
  - apply Forall_forall. intros g Hg.
    apply elem_of_map in Hg as (pg & -> & Hpg).
    pose proof (groupby_nonempty (sorted_by_key keyed)) as Hne.
    rewrite Forall_forall in Hne. specialize (Hne _ Hpg).
    by destruct pg.
Qed.

(** X26. Two Comps are put in the same group exactly when the hashes of
    their main inputs are the same, in the same order. *)
Theorem group_comps_by_content comps groups i j g1 g2 c1 c2 :
  group_comps_by_main_input comps = Ok groups ->
  groups !! i = Some g1 -> groups !! j = Some g2 ->
  c1 ∈ g1 -> c2 ∈ g2 ->
  (comp_main_inputs_contents c1 = comp_main_inputs_contents c2 <-> i = j).
Proof.
  intros H Hi Hj Hc1 Hc2.
  apply group_comps_keyed in H as (keyed & _ & Hkeys & ->).
  apply lookup_map in Hi as (pg1 & -> & Hi), Hj as (pg2 & -> & Hj).
  apply elem_of_map in Hc1 as (p1 & -> & Hp1), Hc2 as (p2 & -> & Hp2).
  assert (Hk : forall pg k p, groupby (sorted_by_key keyed) !! k = Some pg ->
                 p ∈ pg -> comp_main_inputs_contents p.2 = Ok p.1).
  { intros pg k p Hpg Hp. rewrite Forall_forall in Hkeys. apply Hkeys.
    rewrite <- (sorted_by_key_perm keyed), <- groupby_join.
    apply list_elem_of_join. exists pg. split; [done|].
    by eapply list_elem_of_lookup_2. }
  rewrite (Hk _ _ _ Hi Hp1), (Hk _ _ _ Hj Hp2). split.
  - intros [= Heq].
    eapply groupby_keys_differ; [apply sorted_by_key_sorted|done..].
  - intros <-. f_equal.
    pose proof (groupby_one_key (sorted_by_key keyed)) as Hone.
    rewrite Forall_forall in Hone.
    assert (pg2 = pg1) as -> by congruence.
    apply (Hone pg1); [by eapply list_elem_of_lookup_2|done..].
Qed.

(** X27. The Comps extracted from a loaded graph can always be grouped:
    their main inputs are file nodes, so reading [file_hash] off them never
    raises AttributeError. *)
Theorem loaded_comps_can_be_grouped isfile samefile now max_age S G log comps :
  load isfile samefile now max_age S = Ok (G, log) ->
  extract_comps_assembly G = Ok comps ->
  exists groups, group_comps_by_main_input comps = Ok groups.
Proof.
  intros Hload Hcomps. apply load_ok in Hload as (_ & Hk & _).
  unfold group_comps_by_main_input.
  destruct (mapM_total
    (fun c => k ← comp_main_inputs_contents c; Ok (k, c)) comps) as [r ->];
    [|by eexists].
  intros c Hc.
  assert (Hin : exists b, main_inputs c = [b] /\ b ∈ file_nodes G).
  { revert c Hc. apply Forall_forall. revert Hcomps.
    unfold extract_comps_assembly. cbv zeta.
    apply foldM_inv_elem; [|constructor].
    intros comps1 e comps2 _ Hcomps1.
    apply extract_comp_for_shape; [|exact Hcomps1].
    intros b s Hb _ _ _. exists b. split; [reflexivity|].
    rewrite elem_of_remove_dups in Hb.
    by apply list_elem_of_filter in Hb as [_ Hb]. }
  destruct Hin as (b & Hb & Hbf).
  apply elem_of_file_nodes in Hbf as [Hbf _]. apply Hk in Hbf.
  unfold comp_main_inputs_contents. rewrite Hb.
  destruct b as [|p h m]; [discriminate|]. by eexists.
Qed.

Lemma group_comps_partition_witness :
  let groups := [[comp_on "ha" "/o2"]; [comp_on "hb" "/o1"; comp_on "hb" "/o3"]] in
  group_comps_by_main_input three_comps = Ok groups /\
  mjoin groups ≡ₚ three_comps /\ Forall (fun g => g <> []) groups.
Proof.
  intros groups.
  assert (H : group_comps_by_main_input three_comps = Ok groups)
    by (vm_compute; reflexivity).
  split; [exact H|]. exact (group_comps_partition three_comps groups H).
Defined.

Lemma group_comps_by_content_witness :
  let groups := [[comp_on "ha" "/o2"]; [comp_on "hb" "/o1"; comp_on "hb" "/o3"]] in
  group_comps_by_main_input three_comps = Ok groups /\
  (comp_main_inputs_contents (comp_on "hb" "/o1")
   = comp_main_inputs_contents (comp_on "hb" "/o3") <-> 1%nat = 1%nat).
Proof.
  intros groups.
  assert (H : group_comps_by_main_input three_comps = Ok groups)
    by (vm_compute; reflexivity).
  split; [exact H|].
  refine (group_comps_by_content three_comps groups 1 1
            [comp_on "hb" "/o1"; comp_on "hb" "/o3"]
            [comp_on "hb" "/o1"; comp_on "hb" "/o3"]
            (comp_on "hb" "/o1") (comp_on "hb" "/o3") H eq_refl eq_refl _ _).
  - left.
  - right. left.
Defined.

Lemma loaded_comps_can_be_grouped_witness :
  load no_file no_samefile 100 10000 metrics_store
  = Ok (metrics_graph, ["UNKNOWN_ORIGIN:"]) /\
  exists groups,
    group_comps_by_main_input
      [mkComp [SNode "A"; FNode "/s/data/00_raw/x.bam" "h1" 1;
               FNode "/s/data/02_assembly/x.fasta" "h2" 20; SNode "M2"]
              [FNode "/s/data/00_raw/x.bam" "h1" 1]
              [FNode "/s/data/02_assembly/x.fasta" "h2" 20]] = Ok groups.
Proof.
  assert (H1 : load no_file no_samefile 100 10000 metrics_store
               = Ok (metrics_graph, ["UNKNOWN_ORIGIN:"]))
    by (vm_compute; reflexivity).
  split; [exact H1|].
  refine (loaded_comps_can_be_grouped no_file no_samefile 100 10000
            metrics_store metrics_graph _ _ H1 _).
  vm_compute. reflexivity.
Defined.

(** ** Graphs that need no repair *)

Lemma foldM_fixed {A S} (f : S -> A -> result S) l s :
  (forall a, a ∈ l -> f s a = Ok s) -> foldM f s l = Ok s.
Proof.
  induction l as [|a l IH]; intros H; [done|].
  cbn [foldM]. rewrite (H a) by left. rewrite Ok_bind.
  apply IH. intros a' Ha'. apply H. by right.
Qed.

(** X28. The repair pass returns the graph unchanged when every file node
    either has a producer or is the only file node with its hash: no edge
    is moved unless an orphan shares its content with another file node. *)
Theorem repair_leaves_settled_graph isfile samefile G :
  (forall f, f ∈ file_nodes G ->
     pred G f <> [] \/
     forall c, c ∈ file_nodes G -> node_hash c = node_hash f -> c = f) ->
  reconstruct_missing_connections isfile samefile G = Ok G.
Proof.
  intros H. unfold reconstruct_missing_connections, repair_turns.
  apply foldM_fixed. intros f Hf. unfold reconnect_file.
  destruct (is_fnode G f); cbn [andb]; [|done].
  case_bool_decide as Hp; [|done].
  destruct (H f Hf) as [?|Hone]; [done|].
  rewrite bool_decide_eq_true_2; [done|].
  apply elem_of_nil_inv. intros c Hc.
  apply elem_of_candidates in Hc as (Hc & Hh & _ & Hne & _); [|done].
  by apply Hne, Hone.
Qed.

Lemma repair_leaves_settled_graph_witness :
  (forall f, f ∈ file_nodes chain_loaded.1 ->
     pred chain_loaded.1 f <> [] \/
     forall c, c ∈ file_nodes chain_loaded.1 -> node_hash c = node_hash f -> c = f) /\
  reconstruct_missing_connections no_file no_samefile chain_loaded.1
  = Ok chain_loaded.1.
Proof.
  assert (H : forall f, f ∈ file_nodes chain_loaded.1 ->
     pred chain_loaded.1 f <> [] \/
     forall c, c ∈ file_nodes chain_loaded.1 -> node_hash c = node_hash f -> c = f).
  { assert (Hall : Forall (fun f =>
        Forall (fun c => node_hash c = node_hash f -> c = f)
               (file_nodes chain_loaded.1)) (file_nodes chain_loaded.1))
      by (apply (bool_decide_unpack _); vm_compute; exact I).
    intros f Hf. right. intros c Hc.
    rewrite Forall_forall in Hall. specialize (Hall f Hf).
    rewrite Forall_forall in Hall. by apply Hall. }
  split; [exact H|].
  exact (repair_leaves_settled_graph no_file no_samefile chain_loaded.1 H).
Defined.
